(** * discovery_mcp: the instrument layer of [dwf/device.go]

    A shallow embedding of the Go instrument facades ([Device], [scopeImpl],
    [wavegenImpl], [supplyImpl], [dmmImpl], [logicImpl], [patternImpl],
    [staticIOImpl], [uartImpl], [spiImpl], [i2cImpl]) together with the cgo
    bindings they call.  The native library [libdwf] is the only part left
    abstract: it answers every C call with a return code and the values of
    its out-parameters, and every call is appended to a trace, so that
    "which driver calls were made, in which order and with which arguments"
    is a statement about a list. *)

From Stdlib Require Import ZArith String Ascii Bool Lia Floats List.
From Stdlib Require Import DecimalString Sorted.
Import ListNotations.
Open Scope Z_scope.

(** ** Machine numbers *)

(** Go's [int] is 64 bits wide on the targets the server is built for; the C
    types of the bindings are 32 bits ([C.int], [C.uint]) and 8 bits
    ([C.uchar], Go's [byte]).  A conversion keeps the low bits. *)

Definition wrapU (bits z : Z) : Z := z mod 2 ^ bits.

Definition wrapS (bits z : Z) : Z :=
  (z + 2 ^ (bits - 1)) mod 2 ^ bits - 2 ^ (bits - 1).

Definition int (z : Z) : Z := wrapS 64 z.
Definition uint32 (z : Z) : Z := wrapU 32 z.
Definition uint16 (z : Z) : Z := wrapU 16 z.
Definition byte (z : Z) : Z := wrapU 8 z.
Definition C_int (z : Z) : Z := wrapS 32 z.
Definition C_uint (z : Z) : Z := wrapU 32 z.
Definition C_uchar (z : Z) : Z := wrapU 8 z.

(** [cInt] and [cUint] of the bindings file. *)
Definition cInt (v : Z) : Z := C_int v.
Definition cUint (v : Z) : Z := C_uint v.

Definition in_int (z : Z) : Prop := - 2 ^ 63 <= z < 2 ^ 63.

(** Shifts of a [uint32] and of a [uint16]: a count at or above the width
    gives zero, bits shifted out on the left are lost. *)
Definition shl32 (x s : Z) : Z := if 32 <=? s then 0 else uint32 (Z.shiftl x s).
Definition shr32 (x s : Z) : Z := if 32 <=? s then 0 else Z.shiftr x s.
Definition shl16 (x s : Z) : Z := if 16 <=? s then 0 else uint16 (Z.shiftl x s).
Definition shr16 (x s : Z) : Z := if 16 <=? s then 0 else Z.shiftr x s.

(** ** float64 *)

(** [float64(n)] for an integer [n]: the nearest double, ties to even. *)
Definition float64 (n : Z) : float :=
  SF2Prim (binary_normalize prec emax n 0 false).

(** The integer part of a finite double, rounding toward zero; [None] for
    NaN and the infinities. *)
Definition float_trunc (x : float) : option Z :=
  match Prim2SF x with
  | S754_zero _ => Some 0
  | S754_finite s m e =>
      let mag := if 0 <=? e then Z.pos m * 2 ^ e else Z.pos m / 2 ^ (- e) in
      Some (if s then - mag else mag)
  | _ => None
  end.

(** The greatest integer not above a finite double. *)
Definition float_floor (x : float) : option Z :=
  match Prim2SF x with
  | S754_zero _ => Some 0
  | S754_finite s m e =>
      let n := if s then Z.neg m else Z.pos m in
      Some (if 0 <=? e then n * 2 ^ e else n / 2 ^ (- e))
  | _ => None
  end.

(** The nearest integer to a finite double, halves away from zero (Go's
    [math.Round]). *)
Definition float_round (x : float) : option Z :=
  match Prim2SF x with
  | S754_zero _ => Some 0
  | S754_finite s m e =>
      let mag :=
        if 0 <=? e then Z.pos m * 2 ^ e
        else (2 * Z.pos m + 2 ^ (- e)) / 2 ^ (- e + 1) in
      Some (if s then - mag else mag)
  | _ => None
  end.

(** The double stored in a 64-bit word: sign bit, eleven exponent bits and
    fifty-two fraction bits. *)
Definition float_of_bits (word : Z) : float :=
  let bits := wrapU 64 word in
  let sign := Z.testbit bits 63 in
  let expo := Z.shiftr bits 52 mod 2 ^ 11 in
  let frac := bits mod 2 ^ 52 in
  SF2Prim
    (if expo =? 0 then
       match frac with
       | Z.pos m => S754_finite sign m (- 1074)
       | _ => S754_zero sign
       end
     else if expo =? 2047 then
       if frac =? 0 then S754_infinity sign else S754_nan
     else
       match frac + 2 ^ 52 with
       | Z.pos m => S754_finite sign m (expo - 1075)
       | _ => S754_zero sign
       end).

(** ** The native library *)

(** The C entry points of [libdwf] that the modelled code reaches. *)
Inductive CFun : Set :=
| FDwfGetLastErrorMsg
| FDwfDeviceClose
| FDwfAnalogIOChannelCount
| FDwfAnalogIOChannelName
| FDwfAnalogIOChannelInfo
| FDwfAnalogIOChannelNodeName
| FDwfAnalogIOChannelNodeSet
| FDwfAnalogIOEnableSet
| FDwfDigitalInBufferSizeInfo
| FDwfDigitalInInternalClockInfo
| FDwfDigitalInDividerSet
| FDwfDigitalInSampleFormatSet
| FDwfDigitalInBufferSizeSet
| FDwfDigitalInConfigure
| FDwfDigitalInStatus
| FDwfDigitalInStatusData
| FDwfDigitalInTriggerSourceSet
| FDwfDigitalInTriggerPositionSet
| FDwfDigitalInTriggerPrefillSet
| FDwfDigitalInTriggerSet
| FDwfDigitalInTriggerResetSet
| FDwfDigitalInTriggerAutoTimeoutSet
| FDwfDigitalInTriggerLengthSet
| FDwfDigitalInTriggerCountSet
| FDwfDigitalOutInternalClockInfo
| FDwfDigitalOutEnableSet
| FDwfDigitalOutTypeSet
| FDwfDigitalOutDividerSet
| FDwfDigitalOutIdleSet
| FDwfDigitalOutRunSet
| FDwfDigitalOutWaitSet
| FDwfDigitalOutRepeatSet
| FDwfDigitalOutCounterSet
| FDwfDigitalOutDataSet
| FDwfDigitalOutConfigure
| FDwfDigitalOutRepeatTriggerSet
| FDwfDigitalOutTriggerSourceSet
| FDwfDigitalOutTriggerSlopeSet
| FDwfDigitalIOOutputEnableGet
| FDwfDigitalIOOutputEnableSet
| FDwfDigitalUartRx
| FDwfDigitalSpiSelect
| FDwfDigitalSpiRead
| FDwfDigitalSpiWrite
| FDwfDigitalSpiWriteRead
| FDwfDigitalI2cWrite
| FDwfGetVersion
| FDwfEnum
| FDwfDeviceConfigOpen
| FDwfEnumDeviceType
| FDwfEnumSN
| FDwfEnumDeviceName
| FDwfEnumUserName
| FDwfEnumDeviceIsOpened
| FDwfAnalogInChannelCount
| FDwfAnalogInBufferSizeInfo
| FDwfAnalogInBitsInfo
| FDwfAnalogOutCount
| FDwfDigitalInBitsInfo
| FDwfDigitalOutCount
| FDwfAnalogInChannelEnableSet
| FDwfAnalogInChannelOffsetSet
| FDwfAnalogInChannelRangeSet
| FDwfAnalogInBufferSizeSet
| FDwfAnalogInFrequencySet
| FDwfAnalogInChannelFilterSet
| FDwfAnalogInConfigure
| FDwfAnalogInStatus
| FDwfAnalogInStatusSample
| FDwfAnalogInStatusData
| FDwfAnalogInReset
| FDwfAnalogInTriggerAutoTimeoutSet
| FDwfAnalogInTriggerSourceSet
| FDwfAnalogInTriggerChannelSet
| FDwfAnalogInTriggerTypeSet
| FDwfAnalogInTriggerLevelSet
| FDwfAnalogInTriggerConditionSet
| FDwfAnalogOutNodeEnableSet
| FDwfAnalogOutNodeFunctionSet
| FDwfAnalogOutNodeDataSet
| FDwfAnalogOutNodeFrequencySet
| FDwfAnalogOutNodeAmplitudeSet
| FDwfAnalogOutNodeOffsetSet
| FDwfAnalogOutNodeSymmetrySet
| FDwfAnalogOutRunSet
| FDwfAnalogOutWaitSet
| FDwfAnalogOutRepeatSet
| FDwfAnalogOutConfigure
| FDwfAnalogOutReset
| FDwfAnalogIOChannelNodeStatus
| FDwfAnalogIOStatus
| FDwfAnalogIOReset
| FDwfDigitalInReset
| FDwfDigitalOutReset
| FDwfDigitalIOOutputGet
| FDwfDigitalIOOutputSet
| FDwfDigitalIOStatus
| FDwfDigitalIOInputStatus
| FDwfDigitalIOReset
| FDwfDigitalUartRateSet
| FDwfDigitalUartTxSet
| FDwfDigitalUartRxSet
| FDwfDigitalUartBitsSet
| FDwfDigitalUartParitySet
| FDwfDigitalUartStopSet
| FDwfDigitalUartTx
| FDwfDigitalUartReset
| FDwfDigitalSpiFrequencySet
| FDwfDigitalSpiClockSet
| FDwfDigitalSpiDataSet
| FDwfDigitalSpiIdleSet
| FDwfDigitalSpiModeSet
| FDwfDigitalSpiOrderSet
| FDwfDigitalSpiWriteOne
| FDwfDigitalSpiReset
| FDwfDigitalI2cReset
| FDwfDigitalI2cStretchSet
| FDwfDigitalI2cRateSet
| FDwfDigitalI2cSclSet
| FDwfDigitalI2cSdaSet
| FDwfDigitalI2cClear
| FDwfDigitalI2cRead
| FDwfDigitalI2cWriteRead.

(** What a call hands to the library: scalars and the contents of input
    buffers.  Pointers to out-parameters carry no information and are left
    out; the capacity of an output buffer is the scalar that follows it in
    the C signature. *)
Inductive CArg : Set :=
| AInt (z : Z)
| ADouble (x : float)
| AData (l : list Z).

Record CCall : Set := Call { cfun : CFun; cargs : list CArg }.

(** What the library hands back: the C return value ([0] is failure) and
    whatever it stored through the out-parameters. *)
Record CReply : Set := Reply {
  rc : Z;
  outInts : list Z;
  outDouble : float;
  outStrs : list string;
  outData : list Z
}.

Definition outInt (r : CReply) (i : nat) : Z := nth i (outInts r) 0.
Definition outStr (r : CReply) (i : nat) : string := nth i (outStrs r) EmptyString.

(** The library and what the Go side inherits from outside the repository:
    the constants of [dwf.h], the C enumeration types behind [cTrigSrc],
    [cDigitalOutType] and [cDigitalOutIdle], and the value a conversion
    from [float64] to [int] yields when the double has no [int] value
    (the language leaves it to the implementation). *)
Class Sdk (H : Type) : Type := {
  exec : H -> CCall -> CReply * H;
  cTrigsrcNone : Z;
  cTrigsrcDetectorDigIn : Z;
  cDwfTriggerSlopeRise : Z;
  cDwfTriggerSlopeFall : Z;
  cDwfStateDone : Z;
  cTrigSrc : Z -> Z;
  cDigitalOutType : Z -> Z;
  cDigitalOutIdle : Z -> Z;
  int_of_unrepresentable : float -> Z
}.

(** The further constants of [dwf.h] and the C enumeration type behind
    [cFunc], used by the session, the oscilloscope, the waveform generator
    and the SPI engine. *)
Class Header : Type := {
  cEnumfilterAll : Z;
  cDevidDiscovery : Z;
  cDevidDiscovery2 : Z;
  cDevidDDiscovery : Z;
  cDevidADP3X50 : Z;
  cDevidADP5250 : Z;
  cFilterDecimate : Z;
  cAnalogOutNodeCarrier : Z;
  cDwfDigitalOutIdleZet : Z;
  cFunc : Z -> Z
}.

(** ** Effects *)

Record World (H : Type) : Type := mkWorld {
  hw : H;
  trace : list (CCall * CReply)
}.
Arguments mkWorld {H} _ _.
Arguments hw {H} _.
Arguments trace {H} _.

(** A Go computation ends with a value, with a run-time panic, or is still
    polling when its budget of loop iterations is spent. *)
Inductive outcome (A : Type) : Type :=
| Done (a : A)
| Panic (reason : string)
| Polling.
Arguments Done {A} _.
Arguments Panic {A} _.
Arguments Polling {A}.

Definition M (H A : Type) : Type := World H -> outcome A * World H.

Definition ret {H A} (a : A) : M H A := fun w => (Done a, w).

Definition bind {H A B} (m : M H A) (k : A -> M H B) : M H B :=
  fun w =>
    match m w with
    | (Done a, w') => k a w'
    | (Panic s, w') => (Panic s, w')
    | (Polling, w') => (Polling, w')
    end.

Definition panic {H A} (reason : string) : M H A := fun w => (Panic reason, w).

Declare Scope go_scope.
Delimit Scope go_scope with go.
Notation "x <- m ;; k" := (bind m (fun x => k))
  (at level 61, m at next level, right associativity) : go_scope.
Notation "' p <- m ;; k" := (bind m (fun p => k))
  (at level 61, p pattern, m at next level, right associativity) : go_scope.
Notation "m ;; k" := (bind m (fun _ => k))
  (at level 61, right associativity) : go_scope.
Open Scope go_scope.

(** Go's [error]: [None] is [nil], [Some msg] carries the message. *)
Definition error : Set := option string.

(** [%d] of [fmt.Errorf]. *)
Definition fmt_d (z : Z) : string := NilZero.string_of_int (Z.to_int z).

(** [int(x)] for a [float64] [x]. *)
Definition int_of_float64 {H} `{Sdk H} (x : float) : Z :=
  match float_trunc x with
  | Some z => if (- 2 ^ 63 <=? z) && (z <? 2 ^ 63) then z
              else int (int_of_unrepresentable x)
  | None => int (int_of_unrepresentable x)
  end.

(** [make([]T, n)]: a zeroed slice, a panic for a negative length. *)
Definition make {H} (n : Z) : M H (list Z) :=
  if n <? 0 then panic "makeslice: len out of range"
  else ret (repeat 0 (Z.to_nat n)).

(** The library writing [data] through a pointer to the first element of
    [buf]: the slice keeps its length. *)
Definition store_into (buf data : list Z) : list Z :=
  firstn (length buf) (data ++ skipn (length data) buf).

(** [a / b] on [int]. *)
Definition int_div {H} (a b : Z) : M H Z :=
  if b =? 0 then panic "integer divide by zero" else ret (int (Z.quot a b)).

(** ** The cgo bindings *)

Section Bindings.
Context {H : Type} `{Sdk H}.

(** The reply of the library to call [c] in world [w], and the world after
    it: the library has moved on and the trace has one more entry. *)
Definition reply (w : World H) (c : CCall) : CReply := fst (exec (hw w) c).

Definition after (w : World H) (c : CCall) : World H :=
  mkWorld (snd (exec (hw w) c)) (trace w ++ [(c, reply w c)]).

Definition ccall (f : CFun) (args : list CArg) : M H CReply :=
  fun w => (Done (reply w (Call f args)), after w (Call f args)).

Definition getLastErrorMsg : CCall := Call FDwfGetLastErrorMsg [].

Definition errorText (r : CReply) : string :=
  let msg := outStr r 0 in
  if String.eqb msg "" then "unknown DWF SDK error"%string
  else ("dwf: " ++ msg)%string.

Definition lastError : M H string :=
  r <- ccall FDwfGetLastErrorMsg [] ;; ret (errorText r).

(** The shape shared by the setters:
    [if C.F(...) == 0 { return lastError() }; return nil]. *)
Definition nil_unless_failed (r : CReply) : M H error :=
  if rc r =? 0 then e <- lastError ;; ret (Some e) else ret None.

Definition b2i (b : bool) : Z := if b then 1 else 0.

Definition dwfDeviceClose (hdwf : Z) : M H error :=
  r <- ccall FDwfDeviceClose [AInt hdwf] ;; nil_unless_failed r.

(** *** Analog IO *)

Definition dwfAnalogIOChannelCount (hdwf : Z) : M H (Z * error) :=
  r <- ccall FDwfAnalogIOChannelCount [AInt hdwf] ;;
  if rc r =? 0 then e <- lastError ;; ret (0, Some e)
  else ret (C_int (outInt r 0), None).

Definition dwfAnalogIOChannelName (hdwf channel : Z)
  : M H (string * string * error) :=
  r <- ccall FDwfAnalogIOChannelName [AInt hdwf; AInt channel] ;;
  if rc r =? 0 then e <- lastError ;; ret (EmptyString, EmptyString, Some e)
  else ret (outStr r 0, outStr r 1, None).

Definition dwfAnalogIOChannelInfo (hdwf channel : Z) : M H (Z * error) :=
  r <- ccall FDwfAnalogIOChannelInfo [AInt hdwf; AInt channel] ;;
  if rc r =? 0 then e <- lastError ;; ret (0, Some e)
  else ret (C_int (outInt r 0), None).

Definition dwfAnalogIOChannelNodeName (hdwf channel node : Z)
  : M H (string * string * error) :=
  r <- ccall FDwfAnalogIOChannelNodeName [AInt hdwf; AInt channel; AInt node] ;;
  if rc r =? 0 then e <- lastError ;; ret (EmptyString, EmptyString, Some e)
  else ret (outStr r 0, outStr r 1, None).

Definition dwfAnalogIOChannelNodeSet (hdwf channel node : Z) (value : float)
  : M H error :=
  r <- ccall FDwfAnalogIOChannelNodeSet
         [AInt hdwf; AInt channel; AInt node; ADouble value] ;;
  nil_unless_failed r.

Definition dwfAnalogIOEnableSet (hdwf : Z) (enable : bool) : M H error :=
  r <- ccall FDwfAnalogIOEnableSet [AInt hdwf; AInt (b2i enable)] ;;
  nil_unless_failed r.

(** *** Digital input (logic analyzer) *)

Definition dwfDigitalInBufferSizeInfo (hdwf : Z) : M H (Z * error) :=
  r <- ccall FDwfDigitalInBufferSizeInfo [AInt hdwf] ;;
  if rc r =? 0 then e <- lastError ;; ret (0, Some e)
  else ret (C_int (outInt r 0), None).

Definition dwfDigitalInInternalClockInfo (hdwf : Z) : M H (float * error) :=
  r <- ccall FDwfDigitalInInternalClockInfo [AInt hdwf] ;;
  if rc r =? 0 then e <- lastError ;; ret (0%float, Some e)
  else ret (outDouble r, None).

Definition dwfDigitalInDividerSet (hdwf divider : Z) : M H error :=
  r <- ccall FDwfDigitalInDividerSet [AInt hdwf; AInt (C_uint divider)] ;;
  nil_unless_failed r.

Definition dwfDigitalInSampleFormatSet (hdwf bits : Z) : M H error :=
  r <- ccall FDwfDigitalInSampleFormatSet [AInt hdwf; AInt (C_int bits)] ;;
  nil_unless_failed r.

Definition dwfDigitalInBufferSizeSet (hdwf size : Z) : M H error :=
  r <- ccall FDwfDigitalInBufferSizeSet [AInt hdwf; AInt (C_int size)] ;;
  nil_unless_failed r.

Definition dwfDigitalInConfigure (hdwf : Z) (reconfigure start : bool)
  : M H error :=
  r <- ccall FDwfDigitalInConfigure
         [AInt hdwf; AInt (b2i reconfigure); AInt (b2i start)] ;;
  nil_unless_failed r.

Definition dwfDigitalInStatus (hdwf : Z) (readData : bool) : M H (Z * error) :=
  r <- ccall FDwfDigitalInStatus [AInt hdwf; AInt (b2i readData)] ;;
  if rc r =? 0 then e <- lastError ;; ret (0, Some e)
  else ret (byte (outInt r 0), None).

(** The slice is filled in place: the result pairs its new contents with
    the error.  [&buf[0]] panics on an empty slice. *)
Definition dwfDigitalInStatusData (hdwf : Z) (buf : list Z)
  : M H (list Z * error) :=
  match buf with
  | [] => panic "index out of range [0] with length 0"
  | _ =>
      r <- ccall FDwfDigitalInStatusData
             [AInt hdwf; AInt (C_int (int (2 * Z.of_nat (length buf))))] ;;
      let buf' := store_into buf (map uint16 (outData r)) in
      if rc r =? 0 then e <- lastError ;; ret (buf', Some e)
      else ret (buf', None)
  end.

Definition dwfDigitalInTriggerSourceSet (hdwf src : Z) : M H error :=
  r <- ccall FDwfDigitalInTriggerSourceSet [AInt hdwf; AInt src] ;;
  nil_unless_failed r.

Definition dwfDigitalInTriggerPositionSet (hdwf position : Z) : M H error :=
  r <- ccall FDwfDigitalInTriggerPositionSet [AInt hdwf; AInt (C_uint position)] ;;
  nil_unless_failed r.

Definition dwfDigitalInTriggerPrefillSet (hdwf prefill : Z) : M H error :=
  r <- ccall FDwfDigitalInTriggerPrefillSet [AInt hdwf; AInt (C_uint prefill)] ;;
  nil_unless_failed r.

Definition dwfDigitalInTriggerSet (hdwf levelLow levelHigh edgeRise edgeFall : Z)
  : M H error :=
  r <- ccall FDwfDigitalInTriggerSet
         [AInt hdwf; AInt levelLow; AInt levelHigh; AInt edgeRise; AInt edgeFall] ;;
  nil_unless_failed r.

Definition dwfDigitalInTriggerResetSet
  (hdwf levelLow levelHigh edgeRise edgeFall : Z) : M H error :=
  r <- ccall FDwfDigitalInTriggerResetSet
         [AInt hdwf; AInt levelLow; AInt levelHigh; AInt edgeRise; AInt edgeFall] ;;
  nil_unless_failed r.

Definition dwfDigitalInTriggerAutoTimeoutSet (hdwf : Z) (timeout : float)
  : M H error :=
  r <- ccall FDwfDigitalInTriggerAutoTimeoutSet [AInt hdwf; ADouble timeout] ;;
  nil_unless_failed r.

Definition dwfDigitalInTriggerLengthSet (hdwf : Z) (min max : float) (sync : Z)
  : M H error :=
  r <- ccall FDwfDigitalInTriggerLengthSet
         [AInt hdwf; ADouble min; ADouble max; AInt sync] ;;
  nil_unless_failed r.

Definition dwfDigitalInTriggerCountSet (hdwf count restart : Z) : M H error :=
  r <- ccall FDwfDigitalInTriggerCountSet [AInt hdwf; AInt count; AInt restart] ;;
  nil_unless_failed r.

(** *** Digital output (pattern generator) *)

Definition dwfDigitalOutInternalClockInfo (hdwf : Z) : M H (float * error) :=
  r <- ccall FDwfDigitalOutInternalClockInfo [AInt hdwf] ;;
  if rc r =? 0 then e <- lastError ;; ret (0%float, Some e)
  else ret (outDouble r, None).

Definition dwfDigitalOutEnableSet (hdwf channel : Z) (enable : bool) : M H error :=
  r <- ccall FDwfDigitalOutEnableSet [AInt hdwf; AInt channel; AInt (b2i enable)] ;;
  nil_unless_failed r.

Definition dwfDigitalOutTypeSet (hdwf channel outType : Z) : M H error :=
  r <- ccall FDwfDigitalOutTypeSet [AInt hdwf; AInt channel; AInt outType] ;;
  nil_unless_failed r.

Definition dwfDigitalOutDividerSet (hdwf channel divider : Z) : M H error :=
  r <- ccall FDwfDigitalOutDividerSet
         [AInt hdwf; AInt channel; AInt (C_uint divider)] ;;
  nil_unless_failed r.

Definition dwfDigitalOutIdleSet (hdwf channel idle : Z) : M H error :=
  r <- ccall FDwfDigitalOutIdleSet [AInt hdwf; AInt channel; AInt idle] ;;
  nil_unless_failed r.

Definition dwfDigitalOutRunSet (hdwf : Z) (runTime : float) : M H error :=
  r <- ccall FDwfDigitalOutRunSet [AInt hdwf; ADouble runTime] ;;
  nil_unless_failed r.

Definition dwfDigitalOutWaitSet (hdwf : Z) (wait : float) : M H error :=
  r <- ccall FDwfDigitalOutWaitSet [AInt hdwf; ADouble wait] ;;
  nil_unless_failed r.

Definition dwfDigitalOutRepeatSet (hdwf repeat : Z) : M H error :=
  r <- ccall FDwfDigitalOutRepeatSet [AInt hdwf; AInt (C_uint repeat)] ;;
  nil_unless_failed r.

Definition dwfDigitalOutCounterSet (hdwf channel low high : Z) : M H error :=
  r <- ccall FDwfDigitalOutCounterSet
         [AInt hdwf; AInt channel; AInt (C_uint low); AInt (C_uint high)] ;;
  nil_unless_failed r.

Definition dwfDigitalOutDataSet (hdwf channel : Z) (data : list Z) : M H error :=
  match data with
  | [] => ret None
  | _ =>
      r <- ccall FDwfDigitalOutDataSet
             [AInt hdwf; AInt channel; AData data;
              AInt (C_uint (Z.of_nat (length data)))] ;;
      nil_unless_failed r
  end.

Definition dwfDigitalOutConfigure (hdwf : Z) (start : bool) : M H error :=
  r <- ccall FDwfDigitalOutConfigure [AInt hdwf; AInt (b2i start)] ;;
  nil_unless_failed r.

Definition dwfDigitalOutRepeatTriggerSet (hdwf : Z) (enable : bool) : M H error :=
  r <- ccall FDwfDigitalOutRepeatTriggerSet [AInt hdwf; AInt (b2i enable)] ;;
  nil_unless_failed r.

Definition dwfDigitalOutTriggerSourceSet (hdwf src : Z) : M H error :=
  r <- ccall FDwfDigitalOutTriggerSourceSet [AInt hdwf; AInt src] ;;
  nil_unless_failed r.

Definition dwfDigitalOutTriggerSlopeSet (hdwf slope : Z) : M H error :=
  r <- ccall FDwfDigitalOutTriggerSlopeSet [AInt hdwf; AInt slope] ;;
  nil_unless_failed r.

(** *** Digital IO (static I/O) *)



(** *** UART *)

(** The receive buffer is allocated here; the library reports how many
    bytes it stored ([count], first out-parameter) and the parity indicator
    (second out-parameter).  Copying [count] bytes out of a buffer of
    [bufSize] elements panics when [count] exceeds [bufSize]. *)
Definition dwfDigitalUartRx (hdwf bufSize : Z) : M H (list Z * Z * error) :=
  buf <- make bufSize ;;
  match buf with
  | [] => panic "index out of range [0] with length 0"
  | _ =>
      r <- ccall FDwfDigitalUartRx [AInt hdwf; AInt (C_int bufSize)] ;;
      let count := C_int (outInt r 0) in
      let parity := C_int (outInt r 1) in
      if rc r =? 0 then e <- lastError ;; ret ([], parity, Some e)
      else
        result <- make count ;;
        if Z.of_nat (length buf) <? count
        then panic "index out of range"
        else ret (firstn (Z.to_nat count)
                    (map byte (store_into buf (outData r))), parity, None)
  end.

(** *** SPI *)

Definition dwfDigitalSpiSelect (hdwf cs level : Z) : M H error :=
  r <- ccall FDwfDigitalSpiSelect [AInt hdwf; AInt cs; AInt level] ;;
  nil_unless_failed r.

Definition dwfDigitalSpiRead (hdwf csMode bits : Z) (buf : list Z)
  : M H (list Z * error) :=
  match buf with
  | [] => panic "index out of range [0] with length 0"
  | _ =>
      r <- ccall FDwfDigitalSpiRead
             [AInt hdwf; AInt csMode; AInt bits;
              AInt (C_int (Z.of_nat (length buf)))] ;;
      let buf' := store_into buf (map byte (outData r)) in
      if rc r =? 0 then e <- lastError ;; ret (buf', Some e)
      else ret (buf', None)
  end.

Definition dwfDigitalSpiWrite (hdwf csMode bits : Z) (data : list Z)
  : M H error :=
  match data with
  | [] => panic "index out of range [0] with length 0"
  | _ =>
      r <- ccall FDwfDigitalSpiWrite
             [AInt hdwf; AInt csMode; AInt bits; AData data;
              AInt (C_int (Z.of_nat (length data)))] ;;
      nil_unless_failed r
  end.

Definition dwfDigitalSpiWriteRead (hdwf csMode bits : Z) (txData rxBuf : list Z)
  : M H (list Z * error) :=
  match txData, rxBuf with
  | [], _ | _, [] => panic "index out of range [0] with length 0"
  | _, _ =>
      r <- ccall FDwfDigitalSpiWriteRead
             [AInt hdwf; AInt csMode; AInt bits; AData txData;
              AInt (C_int (Z.of_nat (length txData)));
              AInt (C_int (Z.of_nat (length rxBuf)))] ;;
      let rx' := store_into rxBuf (map byte (outData r)) in
      if rc r =? 0 then e <- lastError ;; ret (rx', Some e)
      else ret (rx', None)
  end.

(** *** I2C *)

(** Returns the NAK indicator together with the error, on failure too. *)
Definition dwfDigitalI2cWrite (hdwf address : Z) (data : list Z)
  : M H (Z * error) :=
  r <- ccall FDwfDigitalI2cWrite
         [AInt hdwf; AInt (C_uchar address); AData data;
          AInt (C_int (Z.of_nat (length data)))] ;;
  let nak := C_int (outInt r 0) in
  if rc r =? 0 then e <- lastError ;; ret (nak, Some e)
  else ret (nak, None).

(** *** Enumeration and session *)

Definition dwfGetVersion : M H (string * error) :=
  r <- ccall FDwfGetVersion [] ;;
  if rc r =? 0 then e <- lastError ;; ret (EmptyString, Some e)
  else ret (outStr r 0, None).

Definition dwfEnum (filter : Z) : M H (Z * error) :=
  r <- ccall FDwfEnum [AInt filter] ;;
  if rc r =? 0 then e <- lastError ;; ret (0, Some e)
  else ret (C_int (outInt r 0), None).

Definition dwfDeviceConfigOpen (index config : Z) : M H (Z * error) :=
  r <- ccall FDwfDeviceConfigOpen [AInt index; AInt config] ;;
  if rc r =? 0 then e <- lastError ;; ret (0, Some e)
  else ret (C_int (outInt r 0), None).

Definition dwfEnumDeviceType (index : Z) : M H (Z * Z * error) :=
  r <- ccall FDwfEnumDeviceType [AInt index] ;;
  if rc r =? 0 then e <- lastError ;; ret (0, 0, Some e)
  else ret (C_int (outInt r 0), C_int (outInt r 1), None).

Definition dwfEnumSN (index : Z) : M H (string * error) :=
  r <- ccall FDwfEnumSN [AInt index] ;;
  if rc r =? 0 then e <- lastError ;; ret (EmptyString, Some e)
  else ret (outStr r 0, None).

Definition dwfEnumDeviceName (index : Z) : M H (string * error) :=
  r <- ccall FDwfEnumDeviceName [AInt index] ;;
  if rc r =? 0 then e <- lastError ;; ret (EmptyString, Some e)
  else ret (outStr r 0, None).

Definition dwfEnumUserName (index : Z) : M H (string * error) :=
  r <- ccall FDwfEnumUserName [AInt index] ;;
  if rc r =? 0 then e <- lastError ;; ret (EmptyString, Some e)
  else ret (outStr r 0, None).

Definition dwfEnumDeviceIsOpened (index : Z) : M H (bool * error) :=
  r <- ccall FDwfEnumDeviceIsOpened [AInt index] ;;
  if rc r =? 0 then e <- lastError ;; ret (false, Some e)
  else ret (negb (C_int (outInt r 0) =? 0), None).

Definition dwfAnalogInChannelCount (hdwf : Z) : M H (Z * error) :=
  r <- ccall FDwfAnalogInChannelCount [AInt hdwf] ;;
  if rc r =? 0 then e <- lastError ;; ret (0, Some e)
  else ret (C_int (outInt r 0), None).

Definition dwfAnalogInBufferSizeInfo (hdwf : Z) : M H (Z * error) :=
  r <- ccall FDwfAnalogInBufferSizeInfo [AInt hdwf] ;;
  if rc r =? 0 then e <- lastError ;; ret (0, Some e)
  else ret (C_int (outInt r 0), None).

Definition dwfAnalogInBitsInfo (hdwf : Z) : M H (Z * error) :=
  r <- ccall FDwfAnalogInBitsInfo [AInt hdwf] ;;
  if rc r =? 0 then e <- lastError ;; ret (0, Some e)
  else ret (C_int (outInt r 0), None).

Definition dwfAnalogOutCount (hdwf : Z) : M H (Z * error) :=
  r <- ccall FDwfAnalogOutCount [AInt hdwf] ;;
  if rc r =? 0 then e <- lastError ;; ret (0, Some e)
  else ret (C_int (outInt r 0), None).

Definition dwfDigitalInBitsInfo (hdwf : Z) : M H (Z * error) :=
  r <- ccall FDwfDigitalInBitsInfo [AInt hdwf] ;;
  if rc r =? 0 then e <- lastError ;; ret (0, Some e)
  else ret (C_int (outInt r 0), None).

Definition dwfDigitalOutCount (hdwf : Z) : M H (Z * error) :=
  r <- ccall FDwfDigitalOutCount [AInt hdwf] ;;
  if rc r =? 0 then e <- lastError ;; ret (0, Some e)
  else ret (C_int (outInt r 0), None).

(** *** Analog input (oscilloscope) *)

Definition dwfAnalogInChannelEnableSet (hdwf channel : Z) (enable : bool)
  : M H error :=
  r <- ccall FDwfAnalogInChannelEnableSet
         [AInt hdwf; AInt channel; AInt (b2i enable)] ;;
  nil_unless_failed r.

Definition dwfAnalogInChannelOffsetSet (hdwf channel : Z) (offset : float)
  : M H error :=
  r <- ccall FDwfAnalogInChannelOffsetSet [AInt hdwf; AInt channel; ADouble offset] ;;
  nil_unless_failed r.

Definition dwfAnalogInChannelRangeSet (hdwf channel : Z) (volts : float)
  : M H error :=
  r <- ccall FDwfAnalogInChannelRangeSet [AInt hdwf; AInt channel; ADouble volts] ;;
  nil_unless_failed r.

Definition dwfAnalogInBufferSizeSet (hdwf size : Z) : M H error :=
  r <- ccall FDwfAnalogInBufferSizeSet [AInt hdwf; AInt (C_int size)] ;;
  nil_unless_failed r.

Definition dwfAnalogInFrequencySet (hdwf : Z) (freq : float) : M H error :=
  r <- ccall FDwfAnalogInFrequencySet [AInt hdwf; ADouble freq] ;;
  nil_unless_failed r.

Definition dwfAnalogInChannelFilterSet (hdwf channel filter : Z) : M H error :=
  r <- ccall FDwfAnalogInChannelFilterSet [AInt hdwf; AInt channel; AInt filter] ;;
  nil_unless_failed r.

Definition dwfAnalogInConfigure (hdwf : Z) (reconfigure start : bool)
  : M H error :=
  r <- ccall FDwfAnalogInConfigure
         [AInt hdwf; AInt (b2i reconfigure); AInt (b2i start)] ;;
  nil_unless_failed r.

Definition dwfAnalogInStatus (hdwf : Z) (readData : bool) : M H (Z * error) :=
  r <- ccall FDwfAnalogInStatus [AInt hdwf; AInt (b2i readData)] ;;
  if rc r =? 0 then e <- lastError ;; ret (0, Some e)
  else ret (byte (outInt r 0), None).

(** The buffer of doubles is allocated here; the library stores 64-bit
    words in it, read back as doubles.  On failure the caller gets [nil]. *)
Definition dwfAnalogInStatusData (hdwf channel bufSize : Z)
  : M H (list float * error) :=
  buf <- make bufSize ;;
  match buf with
  | [] => panic "index out of range [0] with length 0"
  | _ =>
      r <- ccall FDwfAnalogInStatusData
             [AInt hdwf; AInt channel; AInt (C_int bufSize)] ;;
      if rc r =? 0 then e <- lastError ;; ret ([], Some e)
      else ret (map float_of_bits (store_into buf (outData r)), None)
  end.

(** *** Analog output (waveform generator) *)

Definition dwfAnalogOutNodeEnableSet (hdwf channel node : Z) (enable : bool)
  : M H error :=
  r <- ccall FDwfAnalogOutNodeEnableSet
         [AInt hdwf; AInt channel; AInt node; AInt (b2i enable)] ;;
  nil_unless_failed r.

Definition dwfAnalogOutNodeFunctionSet (hdwf channel node function : Z)
  : M H error :=
  r <- ccall FDwfAnalogOutNodeFunctionSet
         [AInt hdwf; AInt channel; AInt node; AInt function] ;;
  nil_unless_failed r.

(** The samples of the input buffer appear in the call as consecutive
    doubles, followed by their number. *)
Definition dwfAnalogOutNodeDataSet (hdwf channel node : Z) (data : list float)
  : M H error :=
  match data with
  | [] => ret None
  | _ =>
      r <- ccall FDwfAnalogOutNodeDataSet
             ([AInt hdwf; AInt channel; AInt node] ++ map ADouble data
              ++ [AInt (C_int (Z.of_nat (length data)))]) ;;
      nil_unless_failed r
  end.

Definition dwfAnalogOutNodeFrequencySet (hdwf channel node : Z) (freq : float)
  : M H error :=
  r <- ccall FDwfAnalogOutNodeFrequencySet
         [AInt hdwf; AInt channel; AInt node; ADouble freq] ;;
  nil_unless_failed r.

Definition dwfAnalogOutNodeAmplitudeSet (hdwf channel node : Z) (amplitude : float)
  : M H error :=
  r <- ccall FDwfAnalogOutNodeAmplitudeSet
         [AInt hdwf; AInt channel; AInt node; ADouble amplitude] ;;
  nil_unless_failed r.

Definition dwfAnalogOutNodeOffsetSet (hdwf channel node : Z) (offset : float)
  : M H error :=
  r <- ccall FDwfAnalogOutNodeOffsetSet
         [AInt hdwf; AInt channel; AInt node; ADouble offset] ;;
  nil_unless_failed r.

Definition dwfAnalogOutNodeSymmetrySet (hdwf channel node : Z) (symmetry : float)
  : M H error :=
  r <- ccall FDwfAnalogOutNodeSymmetrySet
         [AInt hdwf; AInt channel; AInt node; ADouble symmetry] ;;
  nil_unless_failed r.

Definition dwfAnalogOutRunSet (hdwf channel : Z) (runTime : float) : M H error :=
  r <- ccall FDwfAnalogOutRunSet [AInt hdwf; AInt channel; ADouble runTime] ;;
  nil_unless_failed r.

Definition dwfAnalogOutWaitSet (hdwf channel : Z) (wait : float) : M H error :=
  r <- ccall FDwfAnalogOutWaitSet [AInt hdwf; AInt channel; ADouble wait] ;;
  nil_unless_failed r.

Definition dwfAnalogOutRepeatSet (hdwf channel repeat : Z) : M H error :=
  r <- ccall FDwfAnalogOutRepeatSet [AInt hdwf; AInt channel; AInt (C_int repeat)] ;;
  nil_unless_failed r.

Definition dwfAnalogOutConfigure (hdwf channel : Z) (start : bool) : M H error :=
  r <- ccall FDwfAnalogOutConfigure [AInt hdwf; AInt channel; AInt (b2i start)] ;;
  nil_unless_failed r.

(** *** Analog IO, continued *)

Definition dwfAnalogIOChannelNodeStatus (hdwf channel node : Z)
  : M H (float * error) :=
  r <- ccall FDwfAnalogIOChannelNodeStatus [AInt hdwf; AInt channel; AInt node] ;;
  if rc r =? 0 then e <- lastError ;; ret (0%float, Some e)
  else ret (outDouble r, None).

Definition dwfAnalogIOStatus (hdwf : Z) : M H error :=
  r <- ccall FDwfAnalogIOStatus [AInt hdwf] ;; nil_unless_failed r.

(** *** Static I/O, continued *)

Definition dwfDigitalIOOutputGet (hdwf : Z) : M H (Z * error) :=
  r <- ccall FDwfDigitalIOOutputGet [AInt hdwf] ;;
  if rc r =? 0 then e <- lastError ;; ret (0, Some e)
  else ret (uint32 (outInt r 0), None).

Definition dwfDigitalIOOutputSet (hdwf mask : Z) : M H error :=
  r <- ccall FDwfDigitalIOOutputSet [AInt hdwf; AInt (C_uint mask)] ;;
  nil_unless_failed r.

Definition dwfDigitalIOStatus (hdwf : Z) : M H error :=
  r <- ccall FDwfDigitalIOStatus [AInt hdwf] ;; nil_unless_failed r.

Definition dwfDigitalIOInputStatus (hdwf : Z) : M H (Z * error) :=
  r <- ccall FDwfDigitalIOInputStatus [AInt hdwf] ;;
  if rc r =? 0 then e <- lastError ;; ret (0, Some e)
  else ret (uint32 (outInt r 0), None).

(** *** UART, continued *)

Definition dwfDigitalUartRateSet (hdwf : Z) (rate : float) : M H error :=
  r <- ccall FDwfDigitalUartRateSet [AInt hdwf; ADouble rate] ;;
  nil_unless_failed r.

Definition dwfDigitalUartTxSet (hdwf channel : Z) : M H error :=
  r <- ccall FDwfDigitalUartTxSet [AInt hdwf; AInt channel] ;;
  nil_unless_failed r.

Definition dwfDigitalUartRxSet (hdwf channel : Z) : M H error :=
  r <- ccall FDwfDigitalUartRxSet [AInt hdwf; AInt channel] ;;
  nil_unless_failed r.

Definition dwfDigitalUartBitsSet (hdwf bits : Z) : M H error :=
  r <- ccall FDwfDigitalUartBitsSet [AInt hdwf; AInt bits] ;;
  nil_unless_failed r.

Definition dwfDigitalUartParitySet (hdwf parity : Z) : M H error :=
  r <- ccall FDwfDigitalUartParitySet [AInt hdwf; AInt parity] ;;
  nil_unless_failed r.

Definition dwfDigitalUartStopSet (hdwf : Z) (stop : float) : M H error :=
  r <- ccall FDwfDigitalUartStopSet [AInt hdwf; ADouble stop] ;;
  nil_unless_failed r.

(** An empty slice is passed as a null pointer with length zero. *)
Definition dwfDigitalUartTx (hdwf : Z) (data : list Z) : M H error :=
  r <- ccall FDwfDigitalUartTx
         [AInt hdwf; AData data; AInt (C_int (Z.of_nat (length data)))] ;;
  nil_unless_failed r.

(** *** SPI, continued *)

Definition dwfDigitalSpiFrequencySet (hdwf : Z) (freq : float) : M H error :=
  r <- ccall FDwfDigitalSpiFrequencySet [AInt hdwf; ADouble freq] ;;
  nil_unless_failed r.

Definition dwfDigitalSpiClockSet (hdwf channel : Z) : M H error :=
  r <- ccall FDwfDigitalSpiClockSet [AInt hdwf; AInt channel] ;;
  nil_unless_failed r.

Definition dwfDigitalSpiDataSet (hdwf idx channel : Z) : M H error :=
  r <- ccall FDwfDigitalSpiDataSet [AInt hdwf; AInt idx; AInt channel] ;;
  nil_unless_failed r.

Definition dwfDigitalSpiIdleSet (hdwf idx idle : Z) : M H error :=
  r <- ccall FDwfDigitalSpiIdleSet [AInt hdwf; AInt idx; AInt idle] ;;
  nil_unless_failed r.

Definition dwfDigitalSpiModeSet (hdwf mode : Z) : M H error :=
  r <- ccall FDwfDigitalSpiModeSet [AInt hdwf; AInt mode] ;;
  nil_unless_failed r.

Definition dwfDigitalSpiOrderSet (hdwf order : Z) : M H error :=
  r <- ccall FDwfDigitalSpiOrderSet [AInt hdwf; AInt order] ;;
  nil_unless_failed r.

Definition dwfDigitalSpiWriteOne (hdwf csMode bits data : Z) : M H error :=
  r <- ccall FDwfDigitalSpiWriteOne [AInt hdwf; AInt csMode; AInt bits; AInt data] ;;
  nil_unless_failed r.

(** *** I2C, continued *)

Definition dwfDigitalI2cReset (hdwf : Z) : M H error :=
  r <- ccall FDwfDigitalI2cReset [AInt hdwf] ;; nil_unless_failed r.

Definition dwfDigitalI2cStretchSet (hdwf : Z) (enable : bool) : M H error :=
  r <- ccall FDwfDigitalI2cStretchSet [AInt hdwf; AInt (b2i enable)] ;;
  nil_unless_failed r.

Definition dwfDigitalI2cRateSet (hdwf : Z) (rate : float) : M H error :=
  r <- ccall FDwfDigitalI2cRateSet [AInt hdwf; ADouble rate] ;;
  nil_unless_failed r.

Definition dwfDigitalI2cSclSet (hdwf channel : Z) : M H error :=
  r <- ccall FDwfDigitalI2cSclSet [AInt hdwf; AInt channel] ;;
  nil_unless_failed r.

Definition dwfDigitalI2cSdaSet (hdwf channel : Z) : M H error :=
  r <- ccall FDwfDigitalI2cSdaSet [AInt hdwf; AInt channel] ;;
  nil_unless_failed r.

Definition dwfDigitalI2cClear (hdwf : Z) : M H (Z * error) :=
  r <- ccall FDwfDigitalI2cClear [AInt hdwf] ;;
  if rc r =? 0 then e <- lastError ;; ret (0, Some e)
  else ret (C_int (outInt r 0), None).

(** The read buffer is filled in place: its new contents come first in
    the result, then the NAK indicator and the error. *)
Definition dwfDigitalI2cRead (hdwf address : Z) (buf : list Z)
  : M H (list Z * Z * error) :=
  match buf with
  | [] => panic "index out of range [0] with length 0"
  | _ =>
      r <- ccall FDwfDigitalI2cRead
             [AInt hdwf; AInt (C_uchar address);
              AInt (C_int (Z.of_nat (length buf)))] ;;
      let buf' := store_into buf (map byte (outData r)) in
      let nak := C_int (outInt r 0) in
      if rc r =? 0 then e <- lastError ;; ret (buf', nak, Some e)
      else ret (buf', nak, None)
  end.

Definition dwfDigitalI2cWriteRead (hdwf address : Z) (txData rxBuf : list Z)
  : M H (list Z * Z * error) :=
  match txData, rxBuf with
  | [], _ | _, [] => panic "index out of range [0] with length 0"
  | _, _ =>
      r <- ccall FDwfDigitalI2cWriteRead
             [AInt hdwf; AInt (C_uchar address); AData txData;
              AInt (C_int (Z.of_nat (length txData)));
              AInt (C_int (Z.of_nat (length rxBuf)))] ;;
      let rx' := store_into rxBuf (map byte (outData r)) in
      let nak := C_int (outInt r 0) in
      if rc r =? 0 then e <- lastError ;; ret (rx', nak, Some e)
      else ret (rx', nak, None)
  end.

End Bindings.

(** ** [dwf/types.go] and the device session *)

Record DeviceInfo : Set := {
  Handle : Z;
  Name : string;
  SerialNumber : string;
  Version : string;
  AnalogInChannels : Z;
  AnalogOutChannels : Z;
  DigitalInChannels : Z;
  DigitalOutChannels : Z;
  MaxAnalogInBufferSize : Z;
  MaxAnalogInResolution : Z
}.

(** The instruments only read the session: its handle and the capability
    record cached by [Open] ([None] is Go's [nil]). *)
Record Device : Set := {
  handle : Z;
  info : option DeviceInfo
}.

Definition isDigitalDiscovery (d : Device) : bool :=
  match info d with
  | Some i => String.eqb (Name i) "Digital Discovery"
  | None => false
  end.

(** [if err := m; err != nil { return f(err) }] followed by [k]. *)
Definition guard {H A} (m : M H error) (f : error -> A) (k : M H A) : M H A :=
  e <- m ;;
  match e with
  | Some _ => ret (f e)
  | None => k
  end.

Notation "'check' m 'onerr' f ;; k" := (guard m f k)
  (at level 61, m at next level, f at next level, right associativity) : go_scope.

Definition same_error (e : error) : error := e.

Module Dev.
Section Methods.
Context {H : Type} `{Sdk H}.

Definition Close (d : Device) : M H (error * Device) :=
  if negb (handle d =? 0) then
    err <- dwfDeviceClose (handle d) ;;
    ret (err, {| handle := 0; info := info d |})
  else ret (None, d).

End Methods.

Section Session.
Context {H : Type} `{Sdk H} `{Header}.

(** The two package-level maps.  A Go map literal cannot repeat a constant
    key, so the first binding of a key is the only one. *)
Definition deviceNames : list (string * Z) :=
  [("Analog Discovery", cDevidDiscovery);
   ("Analog Discovery 2", cDevidDiscovery2);
   ("Analog Discovery Studio", cDevidDiscovery2);
   ("Digital Discovery", cDevidDDiscovery);
   ("Analog Discovery Pro 3X50", cDevidADP3X50);
   ("Analog Discovery Pro 5250", cDevidADP5250)]%string.

Definition deviceIDToName : list (Z * string) :=
  [(int cDevidDiscovery, "Analog Discovery");
   (int cDevidDiscovery2, "Analog Discovery 2");
   (int cDevidDDiscovery, "Digital Discovery");
   (int cDevidADP3X50, "Analog Discovery Pro 3X50");
   (int cDevidADP5250, "Analog Discovery Pro 5250")]%string.

Definition nameToID (device : string) : option Z :=
  option_map snd (find (fun e => String.eqb (fst e) device) deviceNames).

Definition idToName (devID : Z) : option string :=
  option_map snd (find (fun e => fst e =? devID) deviceIDToName).

(** [for i := 0; i < count; i++] of [Open]: [hdwf] and [openErr] are the
    values of the loop variables when [left] iterations remain. *)
Fixpoint openFirst (left : nat) (i config hdwf : Z) (openErr : error)
  : M H (Z * error) :=
  match left with
  | O => ret (hdwf, openErr)
  | S left' =>
      '(hdwf, openErr) <- dwfDeviceConfigOpen (cInt i) (cInt config) ;;
      if negb (hdwf =? 0) then ret (hdwf, openErr)
      else openFirst left' (i + 1) config hdwf openErr
  end.

(** The result pairs what [Open] returns with the session as it leaves it. *)
Definition Open (d : Device) (device : string) (config : Z)
  : M H (option DeviceInfo * error * Device) :=
  let filter := match nameToID device with
                | Some devID => cInt (int devID)
                | None => cEnumfilterAll
                end in
  '(count, err) <- dwfEnum filter ;;
  match err with
  | Some _ => ret (None, err, d)
  | None =>
      if count <=? 0 then
        if String.eqb device ""
        then ret (None, Some "no connected devices found"%string, d)
        else ret (None, Some ("no " ++ device ++ " connected")%string, d)
      else
        '(hdwf, openErr) <- openFirst (Z.to_nat count) 0 config 0 None ;;
        if hdwf =? 0 then
          match openErr with
          | Some _ => ret (None, openErr, d)
          | None => ret (None, Some "failed to open device"%string, d)
          end
        else
          '(devName, serialNum) <-
            (if 0 <? count then
               '(devID, _, err) <- dwfEnumDeviceType 0 ;;
               let devName := match err with
                              | None => match idToName devID with
                                        | Some name => name
                                        | None => EmptyString
                                        end
                              | Some _ => EmptyString
                              end in
               '(sn, err) <- dwfEnumSN 0 ;;
               ret (devName, match err with None => sn | Some _ => EmptyString end)
             else ret (EmptyString, EmptyString)) ;;
          '(version, _) <- dwfGetVersion ;;
          '(n1, e1) <- dwfAnalogInChannelCount hdwf ;;
          '(n2, e2) <- dwfAnalogOutCount hdwf ;;
          '(n3, e3) <- dwfAnalogInBufferSizeInfo hdwf ;;
          '(n4, e4) <- dwfAnalogInBitsInfo hdwf ;;
          '(n5, e5) <- dwfDigitalInBitsInfo hdwf ;;
          '(n6, e6) <- dwfDigitalOutCount hdwf ;;
          let orZero (n : Z) (e : error) := match e with None => n | Some _ => 0 end in
          let info := {|
            Handle := hdwf;
            Name := devName;
            SerialNumber := serialNum;
            Version := version;
            AnalogInChannels := orZero n1 e1;
            AnalogOutChannels := orZero n2 e2;
            DigitalInChannels := orZero n5 e5;
            DigitalOutChannels := orZero n6 e6;
            MaxAnalogInBufferSize := orZero n3 e3;
            MaxAnalogInResolution := orZero n4 e4
          |} in
          ret (Some info, None, {| handle := hdwf; info := Some info |})
  end.

(** The inner loop of [Temperature]: [Some] is the pair the method returns
    from inside the loop, [None] means the loop ran to its end. *)
Fixpoint tempNode (left : nat) (h ch n : Z) : M H (option (float * error)) :=
  match left with
  | O => ret None
  | S left' =>
      '(name, _, err) <- dwfAnalogIOChannelNodeName h (cInt ch) (cInt n) ;;
      match err with
      | Some _ => tempNode left' h ch (n + 1)
      | None =>
          if negb (String.eqb name "Temp") then tempNode left' h ch (n + 1)
          else
            err <- dwfAnalogIOStatus h ;;
            match err with
            | Some _ => ret (Some (0%float, err))
            | None =>
                res <- dwfAnalogIOChannelNodeStatus h (cInt ch) (cInt n) ;;
                ret (Some res)
            end
      end
  end.

Fixpoint tempChannel (left : nat) (h ch : Z) : M H (float * error) :=
  match left with
  | O => ret (0%float, None)
  | S left' =>
      '(_, label, err) <- dwfAnalogIOChannelName h (cInt ch) ;;
      match err with
      | Some _ => tempChannel left' h (ch + 1)
      | None =>
          if negb (String.eqb label "System") then tempChannel left' h (ch + 1)
          else
            '(nodeCount, err) <- dwfAnalogIOChannelInfo h (cInt ch) ;;
            match err with
            | Some _ => tempChannel left' h (ch + 1)
            | None =>
                returned <- tempNode (Z.to_nat nodeCount) h ch 0 ;;
                match returned with
                | Some res => ret res
                | None => tempChannel left' h (ch + 1)
                end
            end
      end
  end.

Definition Temperature (d : Device) : M H (float * error) :=
  '(chCount, err) <- dwfAnalogIOChannelCount (handle d) ;;
  match err with
  | Some _ => ret (0%float, err)
  | None => tempChannel (Z.to_nat chCount) (handle d) 0
  end.

End Session.

Record EnumDevice : Set := {
  Index : Z;
  DeviceName : string;
  UserName : string;
  SerialNumber : string;
  IsOpened : bool
}.

Section Enumeration.
Context {H : Type} `{Sdk H} `{Header}.

(** [for i := 0; i < count; i++] of [EnumDevices]: the entries from index
    [i] on, [left] of them. *)
Fixpoint enumFrom (left : nat) (i : Z) : M H (list EnumDevice) :=
  match left with
  | O => ret []
  | S left' =>
      let ci := cInt i in
      '(name, err1) <- dwfEnumDeviceName ci ;;
      '(uname, err2) <- dwfEnumUserName ci ;;
      '(sn, err3) <- dwfEnumSN ci ;;
      '(opened, err4) <- dwfEnumDeviceIsOpened ci ;;
      let ed := {|
        Index := i;
        DeviceName := match err1 with None => name | Some _ => EmptyString end;
        UserName := match err2 with None => uname | Some _ => EmptyString end;
        SerialNumber := match err3 with None => sn | Some _ => EmptyString end;
        IsOpened := match err4 with None => opened | Some _ => false end
      |} in
      rest <- enumFrom left' (i + 1) ;;
      ret (ed :: rest)
  end.

Definition EnumDevices (d : Device) : M H (list EnumDevice * error) :=
  '(count, err) <- dwfEnum cEnumfilterAll ;;
  match err with
  | Some _ => ret ([], err)
  | None =>
      if count =? 0 then ret ([], None)
      else if count <? 0 then panic "makeslice: len out of range"
      else
        devices <- enumFrom (Z.to_nat count) 0 ;;
        ret (devices, None)
  end.

End Enumeration.
End Dev.

(** ** Oscilloscope *)

Module Scope.

Record ScopeConfig : Set := {
  SamplingFrequency : float;
  BufferSize : Z;
  OffsetVoltage : float;
  AmplitudeRange : float
}.

Record scopeImpl : Set := {
  dev : Device;
  bufferSize : Z
}.

(** The buffer size [Open] settles on. *)
Definition maxBuf (s : scopeImpl) : Z :=
  match info (dev s) with
  | Some i => MaxAnalogInBufferSize i
  | None => 0
  end.

Definition clampSize (requested maxBuf : Z) : Z :=
  if (requested =? 0) || (maxBuf <? requested) then maxBuf else requested.

Section Methods.
Context {H : Type} `{Sdk H} `{Header}.

Definition Open (s : scopeImpl) (cfg : ScopeConfig) : M H (error * scopeImpl) :=
  let h := handle (dev s) in
  check dwfAnalogInChannelEnableSet h (-1) true onerr (fun e => (e, s)) ;;
  check dwfAnalogInChannelOffsetSet h (-1) (OffsetVoltage cfg)
    onerr (fun e => (e, s)) ;;
  check dwfAnalogInChannelRangeSet h (-1) (AmplitudeRange cfg)
    onerr (fun e => (e, s)) ;;
  let bufSize := clampSize (BufferSize cfg) (maxBuf s) in
  let s := {| dev := dev s; bufferSize := bufSize |} in
  check dwfAnalogInBufferSizeSet h bufSize onerr (fun e => (e, s)) ;;
  check dwfAnalogInFrequencySet h (SamplingFrequency cfg) onerr (fun e => (e, s)) ;;
  err <- dwfAnalogInChannelFilterSet h (-1) cFilterDecimate ;;
  ret (err, s).

(** The status loop of [Record], for at most [budget] polls. *)
Fixpoint pollDone (budget : nat) (h : Z) : M H error :=
  match budget with
  | O => fun w => (Polling, w)
  | S budget' =>
      '(status, err) <- dwfAnalogInStatus h true ;;
      match err with
      | Some _ => ret err
      | None =>
          if status =? byte cDwfStateDone then ret None
          else pollDone budget' h
      end
  end.

Definition Record (budget : nat) (s : scopeImpl) (channel : Z)
  : M H (list float * error) :=
  let h := handle (dev s) in
  check dwfAnalogInConfigure h false true onerr (fun e => ([], e)) ;;
  check pollDone budget h onerr (fun e => ([], e)) ;;
  dwfAnalogInStatusData h (cInt (int (channel - 1))) (bufferSize s).

End Methods.
End Scope.

(** ** Waveform generator *)

Module Wavegen.

Definition FuncCustom : Z := 30.

Record WavegenConfig : Set := {
  Channel : Z;
  Function : Z;
  Offset : float;
  Frequency : float;
  Amplitude : float;
  Symmetry : float;
  Wait : float;
  RunTime : float;
  Repeat : Z;
  CustomData : list float
}.

Record wavegenImpl : Set := { dev : Device }.

Section Methods.
Context {H : Type} `{Sdk H} `{Header}.

Definition Generate (wg : wavegenImpl) (cfg : WavegenConfig) : M H error :=
  let h := handle (dev wg) in
  let ch := cInt (int (Channel cfg - 1)) in
  let node := cAnalogOutNodeCarrier in
  check dwfAnalogOutNodeEnableSet h ch node true onerr same_error ;;
  check dwfAnalogOutNodeFunctionSet h ch node (cFunc (Function cfg))
    onerr same_error ;;
  check (if (Function cfg =? FuncCustom)
            && (0 <? Z.of_nat (length (CustomData cfg)))
         then dwfAnalogOutNodeDataSet h ch node (CustomData cfg)
         else ret None)
    onerr same_error ;;
  check dwfAnalogOutNodeFrequencySet h ch node (Frequency cfg) onerr same_error ;;
  check dwfAnalogOutNodeAmplitudeSet h ch node (Amplitude cfg) onerr same_error ;;
  check dwfAnalogOutNodeOffsetSet h ch node (Offset cfg) onerr same_error ;;
  check dwfAnalogOutNodeSymmetrySet h ch node (Symmetry cfg) onerr same_error ;;
  check dwfAnalogOutRunSet h ch (RunTime cfg) onerr same_error ;;
  check dwfAnalogOutWaitSet h ch (Wait cfg) onerr same_error ;;
  check dwfAnalogOutRepeatSet h ch (Repeat cfg) onerr same_error ;;
  dwfAnalogOutConfigure h ch true.

End Methods.
End Wavegen.

(** ** Power supply *)

Module Supply.

Record SuppliesConfig : Set := {
  MasterState : bool;
  PositiveState : bool;
  NegativeState : bool;
  State : bool;
  PositiveVoltage : float;
  NegativeVoltage : float;
  Voltage : float;
  PositiveCurrent : float;
  NegativeCurrent : float;
  Current : float
}.

Record supplyImpl : Set := { dev : Device }.

Section Methods.
Context {H : Type} `{Sdk H}.

(** [for n := 0; n < nodeCount; n++]: [left] iterations remain. *)
Fixpoint findNode (left : nat) (h ch n : Z) (nodeName : string)
  : M H (option Z) :=
  match left with
  | O => ret None
  | S left' =>
      '(name, _, err) <- dwfAnalogIOChannelNodeName h (cInt ch) (cInt n) ;;
      match err with
      | Some _ => findNode left' h ch (n + 1) nodeName
      | None =>
          if String.eqb name nodeName then ret (Some n)
          else findNode left' h ch (n + 1) nodeName
      end
  end.

(** [for ch := 0; ch < chCount; ch++]. *)
Fixpoint findChannel (left : nat) (h ch : Z) (label nodeName : string)
  : M H (Z * Z * bool) :=
  match left with
  | O => ret (-1, -1, false)
  | S left' =>
      '(_, lbl, err) <- dwfAnalogIOChannelName h (cInt ch) ;;
      match err with
      | Some _ => findChannel left' h (ch + 1) label nodeName
      | None =>
          if negb (String.eqb lbl label)
          then findChannel left' h (ch + 1) label nodeName
          else
            '(nodeCount, err) <- dwfAnalogIOChannelInfo h (cInt ch) ;;
            match err with
            | Some _ => findChannel left' h (ch + 1) label nodeName
            | None =>
                found <- findNode (Z.to_nat nodeCount) h ch 0 nodeName ;;
                match found with
                | Some n => ret (ch, n, true)
                | None => findChannel left' h (ch + 1) label nodeName
                end
            end
      end
  end.

Definition findChannelNode (s : supplyImpl) (label nodeName : string)
  : M H (Z * Z * bool) :=
  let h := handle (dev s) in
  '(chCount, err) <- dwfAnalogIOChannelCount h ;;
  match err with
  | Some _ => ret (-1, -1, false)
  | None => findChannel (Z.to_nat chCount) h 0 label nodeName
  end.

Fixpoint setNode (s : supplyImpl) (labels : list string) (nodeName : string)
  (value : float) : M H unit :=
  match labels with
  | [] => ret tt
  | label :: rest =>
      '(ch, node, ok) <- findChannelNode s label nodeName ;;
      if ok then
        _ <- dwfAnalogIOChannelNodeSet (handle (dev s)) (cInt ch) (cInt node) value ;;
        ret tt
      else setNode s rest nodeName value
  end.

Definition enableVal (b : bool) : float := if b then 1%float else 0%float.

Definition Switch (s : supplyImpl) (cfg : SuppliesConfig) : M H error :=
  let posLabels := ["V+"; "p25V"]%string in
  setNode s posLabels "Enable" (enableVal (PositiveState cfg)) ;;
  setNode s posLabels "Voltage" (PositiveVoltage cfg) ;;
  setNode s posLabels "Current" (PositiveCurrent cfg) ;;
  let negLabels := ["V-"; "n25V"]%string in
  setNode s negLabels "Enable" (enableVal (NegativeState cfg)) ;;
  setNode s negLabels "Voltage" (NegativeVoltage cfg) ;;
  setNode s negLabels "Current" (NegativeCurrent cfg) ;;
  let digLabels := ["VDD"; "p6V"]%string in
  setNode s digLabels "Enable" (enableVal (State cfg)) ;;
  setNode s digLabels "Voltage" (Voltage cfg) ;;
  setNode s digLabels "Current" (Current cfg) ;;
  dwfAnalogIOEnableSet (handle (dev s)) (MasterState cfg).

End Methods.
End Supply.

(** ** Digital multimeter *)

Module Dmm.

Record dmmNodes : Set := {
  enable : Z;
  mode : Z;
  rangN : Z;
  meas : Z;
  input : Z
}.

Record dmmImpl : Set := {
  dev : Device;
  channel : Z;
  nodes : dmmNodes
}.

Definition noNodes : dmmNodes :=
  {| enable := -1; mode := -1; rangN := -1; meas := -1; input := -1 |}.

(** The [switch name] of [Open]. *)
Definition assignNode (name : string) (n : Z) (ns : dmmNodes) : dmmNodes :=
  if String.eqb name "Enable" then
    {| enable := n; mode := mode ns; rangN := rangN ns; meas := meas ns;
       input := input ns |}
  else if String.eqb name "Mode" then
    {| enable := enable ns; mode := n; rangN := rangN ns; meas := meas ns;
       input := input ns |}
  else if String.eqb name "Range" then
    {| enable := enable ns; mode := mode ns; rangN := n; meas := meas ns;
       input := input ns |}
  else if String.eqb name "Meas" then
    {| enable := enable ns; mode := mode ns; rangN := rangN ns; meas := n;
       input := input ns |}
  else if String.eqb name "Input" then
    {| enable := enable ns; mode := mode ns; rangN := rangN ns; meas := meas ns;
       input := n |}
  else ns.

Section Methods.
Context {H : Type} `{Sdk H}.

(** The channel loop of [Open]: the value of [m.channel] after it. *)
Fixpoint findDmm (left : nat) (h ch : Z) : M H Z :=
  match left with
  | O => ret (-1)
  | S left' =>
      '(_, label, err) <- dwfAnalogIOChannelName h (cInt ch) ;;
      match err with
      | Some _ => findDmm left' h (ch + 1)
      | None =>
          if negb (String.eqb label "DMM") then findDmm left' h (ch + 1)
          else ret ch
      end
  end.

(** The node loop of [Open]. *)
Fixpoint nameNodes (left : nat) (h channel n : Z) (ns : dmmNodes)
  : M H dmmNodes :=
  match left with
  | O => ret ns
  | S left' =>
      '(name, _, err) <- dwfAnalogIOChannelNodeName h (cInt channel) (cInt n) ;;
      match err with
      | Some _ => nameNodes left' h channel (n + 1) ns
      | None => nameNodes left' h channel (n + 1) (assignNode name n ns)
      end
  end.

Definition Open (m : dmmImpl) : M H (error * dmmImpl) :=
  let h := handle (dev m) in
  let m := {| dev := dev m; channel := -1; nodes := noNodes |} in
  '(chCount, err) <- dwfAnalogIOChannelCount h ;;
  match err with
  | Some _ => ret (err, m)
  | None =>
      channel <- findDmm (Z.to_nat chCount) h 0 ;;
      let m := {| dev := dev m; channel := channel; nodes := nodes m |} in
      if channel <? 0
      then ret (Some "DMM not available on this device"%string, m)
      else
        '(nodeCount, err) <- dwfAnalogIOChannelInfo h (cInt channel) ;;
        match err with
        | Some _ => ret (err, m)
        | None =>
            ns <- nameNodes (Z.to_nat nodeCount) h channel 0 (nodes m) ;;
            let m := {| dev := dev m; channel := channel; nodes := ns |} in
            if 0 <=? enable ns then
              err <- dwfAnalogIOChannelNodeSet h (cInt channel) (cInt (enable ns))
                       1%float ;;
              ret (err, m)
            else ret (None, m)
        end
  end.

Definition Measure (m : dmmImpl) (mode_ : Z) (range_ : float)
  (highImpedance : bool) : M H (float * error) :=
  let h := handle (dev m) in
  check (if 0 <=? input (nodes m) then
           let inputVal := if highImpedance then 1%float else 0%float in
           dwfAnalogIOChannelNodeSet h (cInt (channel m)) (cInt (input (nodes m)))
             inputVal
         else ret None)
    onerr (fun e => (0%float, e)) ;;
  check (if 0 <=? mode (nodes m) then
           dwfAnalogIOChannelNodeSet h (cInt (channel m)) (cInt (mode (nodes m)))
             (float64 mode_)
         else ret None)
    onerr (fun e => (0%float, e)) ;;
  check (if 0 <=? rangN (nodes m) then
           dwfAnalogIOChannelNodeSet h (cInt (channel m)) (cInt (rangN (nodes m)))
             range_
         else ret None)
    onerr (fun e => (0%float, e)) ;;
  check dwfAnalogIOStatus h onerr (fun e => ((-1)%float, e)) ;;
  if 0 <=? meas (nodes m)
  then dwfAnalogIOChannelNodeStatus h (cInt (channel m)) (cInt (meas (nodes m)))
  else ret ((-1)%float, Some "DMM measurement node not found"%string).

End Methods.
End Dmm.

(** ** Logic analyzer *)

Module Logic.

Record LogicConfig : Set := {
  SamplingFrequency : float;
  BufferSize : Z
}.

Record LogicTriggerConfig : Set := {
  Enable : bool;
  Channel : Z;
  Position : Z;
  Timeout : float;
  RisingEdge : bool;
  LengthMin : float;
  LengthMax : float;
  Count : Z
}.

Record logicImpl : Set := {
  dev : Device;
  bufferSize : Z
}.

(** The prefill position after the two clamping tests of [SetTrigger]. *)
Definition clampPosition (bufSize pos : Z) : Z :=
  let pos := if pos <? 0 then 0 else pos in
  if bufSize <? pos then bufSize else pos.

(** The loop body of [Record] on one [uint16] sample:
    [(buffer[i] & (1 << channel)) >> channel]. *)
Definition reduceSample (sample channel : Z) : Z :=
  shr16 (Z.land sample (shl16 1 channel)) channel.

Section Methods.
Context {H : Type} `{Sdk H}.

Definition Open (l : logicImpl) (cfg : LogicConfig) : M H (error * logicImpl) :=
  let h := handle (dev l) in
  '(maxBuf, _) <- dwfDigitalInBufferSizeInfo h ;;
  let size := BufferSize cfg in
  let size := if (size =? 0) || (maxBuf <? size) then maxBuf else size in
  let l := {| dev := dev l; bufferSize := size |} in
  '(internalFreq, err) <- dwfDigitalInInternalClockInfo h ;;
  match err with
  | Some _ => ret (err, l)
  | None =>
      let divider := int_of_float64 (internalFreq / SamplingFrequency cfg) in
      check dwfDigitalInDividerSet h divider onerr (fun e => (e, l)) ;;
      check dwfDigitalInSampleFormatSet h 16 onerr (fun e => (e, l)) ;;
      err <- dwfDigitalInBufferSizeSet h (bufferSize l) ;;
      ret (err, l)
  end.

Definition SetTrigger (l : logicImpl) (cfg : LogicTriggerConfig) : M H error :=
  let h := handle (dev l) in
  if negb (Enable cfg) then dwfDigitalInTriggerSourceSet h cTrigsrcNone
  else
    check dwfDigitalInTriggerSourceSet h cTrigsrcDetectorDigIn onerr same_error ;;
    let pos := clampPosition (bufferSize l) (Position cfg) in
    check dwfDigitalInTriggerPositionSet h (int (bufferSize l - pos))
      onerr same_error ;;
    check dwfDigitalInTriggerPrefillSet h pos onerr same_error ;;
    chBit <- (if Channel cfg <? 0 then panic "negative shift amount"
              else ret (cUint (shl32 1 (Channel cfg)))) ;;
    check (if RisingEdge cfg
           then
             check dwfDigitalInTriggerSet h 0 chBit 0 0 onerr same_error ;;
             dwfDigitalInTriggerResetSet h 0 0 chBit 0
           else
             check dwfDigitalInTriggerSet h chBit 0 0 0 onerr same_error ;;
             dwfDigitalInTriggerResetSet h 0 0 0 chBit)
      onerr same_error ;;
    check dwfDigitalInTriggerAutoTimeoutSet h (Timeout cfg) onerr same_error ;;
    check dwfDigitalInTriggerLengthSet h (LengthMin cfg) (LengthMax cfg) 0
      onerr same_error ;;
    dwfDigitalInTriggerCountSet h (cInt (Count cfg)) 0.

(** The status loop of [Record], for at most [budget] polls: [nil] once the
    library reports the done state, the error of a failed poll, [Polling]
    when the budget is spent first. *)
Fixpoint pollDone (budget : nat) (h : Z) : M H error :=
  match budget with
  | O => fun w => (Polling, w)
  | S budget' =>
      '(status, err) <- dwfDigitalInStatus h true ;;
      match err with
      | Some _ => ret err
      | None =>
          if status =? byte cDwfStateDone then ret None
          else pollDone budget' h
      end
  end.

Definition Record (budget : nat) (l : logicImpl) (channel : Z)
  : M H (list Z * error) :=
  let h := handle (dev l) in
  check dwfDigitalInConfigure h false true onerr (fun e => ([], e)) ;;
  check pollDone budget h onerr (fun e => ([], e)) ;;
  buffer <- make (bufferSize l) ;;
  '(buffer, err) <- dwfDigitalInStatusData h buffer ;;
  match err with
  | Some _ => ret ([], err)
  | None =>
      match buffer with
      | [] => ret (buffer, None)
      | _ =>
          if channel <? 0 then panic "negative shift amount"
          else ret (map (fun sample => reduceSample sample channel) buffer, None)
      end
  end.

End Methods.
End Logic.

(** ** Pattern generator *)

Module Pattern.

Definition DigitalOutTypePulse : Z := 0.
Definition DigitalOutTypeCustom : Z := 1.
Definition DigitalOutTypeRandom : Z := 2.

Record PatternConfig : Set := {
  Channel : Z;
  Function : Z;
  Frequency : float;
  DutyCycle : float;
  Data : list Z;
  Wait : float;
  Repeat : Z;
  RunTime : Z;
  IdleState : Z;
  TriggerEnabled : bool;
  TriggerSource : Z;
  TriggerEdgeRising : bool
}.

Record patternImpl : Set := { dev : Device }.

Section Methods.
Context {H : Type} `{Sdk H}.

(** The three assignments of the pulse branch of [Generate]. *)
Definition pulseCounters (internalFreq frequency dutyCycle : float) (divider : Z)
  : M H (Z * Z * Z) :=
  steps <- int_div (int_of_float64 (internalFreq / frequency)) divider ;;
  let high := int_of_float64 (float64 steps * dutyCycle / 100) in
  let low := int (steps - high) in
  ret (steps, low, high).

Definition Generate (p : patternImpl) (cfg : PatternConfig) : M H error :=
  let h := handle (dev p) in
  let ch := if isDigitalDiscovery (dev p) then cInt (int (Channel cfg - 24))
            else cInt (Channel cfg) in
  '(internalFreq, err) <- dwfDigitalOutInternalClockInfo h ;;
  match err with
  | Some _ => ret err
  | None =>
      check dwfDigitalOutEnableSet h ch true onerr same_error ;;
      check dwfDigitalOutTypeSet h ch (cDigitalOutType (Function cfg))
        onerr same_error ;;
      let divider := int_of_float64 (internalFreq / Frequency cfg) in
      check dwfDigitalOutDividerSet h ch divider onerr same_error ;;
      check dwfDigitalOutIdleSet h ch (cDigitalOutIdle (IdleState cfg))
        onerr same_error ;;
      let runTime :=
        if (RunTime cfg <? 0) && (0 <? Z.of_nat (length (Data cfg)))
        then int_of_float64
               (float64 (Z.of_nat (length (Data cfg))) / Frequency cfg)
        else RunTime cfg in
      check dwfDigitalOutRunSet h (float64 runTime) onerr same_error ;;
      check dwfDigitalOutWaitSet h (Wait cfg) onerr same_error ;;
      check dwfDigitalOutRepeatSet h (Repeat cfg) onerr same_error ;;
      check dwfDigitalOutRepeatTriggerSet h (TriggerEnabled cfg)
        onerr same_error ;;
      check (if TriggerEnabled cfg
             then
               check dwfDigitalOutTriggerSourceSet h (cTrigSrc (TriggerSource cfg))
                 onerr same_error ;;
               if TriggerEdgeRising cfg
               then dwfDigitalOutTriggerSlopeSet h cDwfTriggerSlopeRise
               else dwfDigitalOutTriggerSlopeSet h cDwfTriggerSlopeFall
             else ret None)
        onerr same_error ;;
      check (if Function cfg =? DigitalOutTypePulse
             then
               '(_, low, high) <-
                 pulseCounters internalFreq (Frequency cfg) (DutyCycle cfg) divider ;;
               dwfDigitalOutCounterSet h ch low high
             else
               if (Function cfg =? DigitalOutTypeCustom)
                  && (0 <? Z.of_nat (length (Data cfg)))
               then dwfDigitalOutDataSet h ch (Data cfg)
               else ret None)
        onerr same_error ;;
      dwfDigitalOutConfigure h true
  end.

End Methods.
End Pattern.

(** ** Static I/O *)

Module StaticIO.

Record staticIOImpl : Set := { dev : Device }.

Definition channelCount (s : staticIOImpl) : Z :=
  match info (dev s) with
  | None => 16
  | Some i =>
      if DigitalInChannels i <? DigitalOutChannels i
      then DigitalInChannels i
      else DigitalOutChannels i
  end.

Definition adjustChannel (s : staticIOImpl) (channel : Z) : Z :=
  if isDigitalDiscovery (dev s) then int (channel - 24) else channel.

(** [(number << position) | (number >> (size - position))] on [uint32]. *)
Definition rotateLeft (number position size : Z) : Z :=
  Z.lor (shl32 number position) (shr32 number (uint32 (size - position))).

(** The mask [SetMode] writes back, from the mask it read. *)
Definition modeMask (mask ch count : Z) (output : bool) : Z :=
  if output then Z.lor mask (rotateLeft 1 (uint32 ch) count)
  else
    let bits := uint32 (shl32 1 count - 2) in
    Z.land mask (rotateLeft bits (uint32 ch) count).

Section Methods.
Context {H : Type} `{Sdk H}.


(** [data&(1<<ch) != 0]: the constant takes the type [uint32] of [data];
    a negative shift count panics. *)
Definition GetState (s : staticIOImpl) (channel : Z) : M H (bool * error) :=
  let h := handle (dev s) in
  let ch := adjustChannel s channel in
  check dwfDigitalIOStatus h onerr (fun e => (false, e)) ;;
  '(data, err) <- dwfDigitalIOInputStatus h ;;
  match err with
  | Some _ => ret (false, err)
  | None =>
      if ch <? 0 then panic "negative shift amount"
      else ret (negb (Z.land data (shl32 1 ch) =? 0), None)
  end.

(** The update of the mask is the one of [SetMode], on the output word. *)
Definition SetState (s : staticIOImpl) (channel : Z) (value : bool) : M H error :=
  let h := handle (dev s) in
  let ch := adjustChannel s channel in
  let count := uint32 (channelCount s) in
  '(mask, err) <- dwfDigitalIOOutputGet h ;;
  match err with
  | Some _ => ret err
  | None => dwfDigitalIOOutputSet h (modeMask mask ch count value)
  end.

(** The inner loop of [SetCurrent]: [Some] is the error the method returns
    from inside the loop, [None] means the loop ran to its end. *)
Fixpoint driveNode (left : nat) (h ch n : Z) (current : float)
  : M H (option error) :=
  match left with
  | O => ret None
  | S left' =>
      '(name, _, err) <- dwfAnalogIOChannelNodeName h (cInt ch) (cInt n) ;;
      match err with
      | Some _ => driveNode left' h ch (n + 1) current
      | None =>
          if negb (String.eqb name "Drive") then driveNode left' h ch (n + 1) current
          else
            err <- dwfAnalogIOChannelNodeSet h (cInt ch) (cInt n) current ;;
            ret (Some err)
      end
  end.

Fixpoint driveChannel (left : nat) (h ch : Z) (current : float) : M H error :=
  match left with
  | O => ret (Some "drive current node not found"%string)
  | S left' =>
      '(_, label, err) <- dwfAnalogIOChannelName h (cInt ch) ;;
      match err with
      | Some _ => driveChannel left' h (ch + 1) current
      | None =>
          if negb (String.eqb label "VDD") then driveChannel left' h (ch + 1) current
          else
            '(nodeCount, err) <- dwfAnalogIOChannelInfo h (cInt ch) ;;
            match err with
            | Some _ => driveChannel left' h (ch + 1) current
            | None =>
                returned <- driveNode (Z.to_nat nodeCount) h ch 0 current ;;
                match returned with
                | Some err => ret err
                | None => driveChannel left' h (ch + 1) current
                end
            end
      end
  end.

Definition SetCurrent (s : staticIOImpl) (current : float) : M H error :=
  let h := handle (dev s) in
  '(chCount, err) <- dwfAnalogIOChannelCount h ;;
  match err with
  | Some _ => ret err
  | None => driveChannel (Z.to_nat chCount) h 0 current
  end.

End Methods.
End StaticIO.

(** ** UART *)

Module Uart.

Record UARTConfig : Set := {
  RX : Z;
  TX : Z;
  BaudRate : Z;
  Parity : Z;
  DataBits : Z;
  StopBits : Z
}.

Record uartImpl : Set := { dev : Device }.

Definition maxBuf (u : uartImpl) : Z :=
  match info (dev u) with
  | Some i => if 0 <? MaxAnalogInBufferSize i then MaxAnalogInBufferSize i else 8192
  | None => 8192
  end.

Section Methods.
Context {H : Type} `{Sdk H}.

Definition Read (u : uartImpl) : M H (list Z * error) :=
  let h := handle (dev u) in
  '(data, parity, err) <- dwfDigitalUartRx h (maxBuf u) ;;
  match err with
  | Some _ => ret ([], err)
  | None =>
      if parity <? 0 then ret (data, Some "UART buffer overflow"%string)
      else if 0 <? parity
      then ret (data, Some ("UART parity error at index " ++ fmt_d parity)%string)
      else ret (data, None)
  end.

Definition Open (u : uartImpl) (cfg : UARTConfig) : M H error :=
  let h := handle (dev u) in
  check dwfDigitalUartRateSet h (float64 (BaudRate cfg)) onerr same_error ;;
  check dwfDigitalUartTxSet h (cInt (TX cfg)) onerr same_error ;;
  check dwfDigitalUartRxSet h (cInt (RX cfg)) onerr same_error ;;
  check dwfDigitalUartBitsSet h (cInt (DataBits cfg)) onerr same_error ;;
  check dwfDigitalUartParitySet h (cInt (Parity cfg)) onerr same_error ;;
  check dwfDigitalUartStopSet h (float64 (StopBits cfg)) onerr same_error ;;
  _ <- dwfDigitalUartTx h [] ;;
  _ <- dwfDigitalUartRx h 0 ;;
  ret None.

End Methods.
End Uart.

(** ** SPI *)

Module Spi.

Record SPIConfig : Set := {
  CS : Z;
  SCK : Z;
  MISO : Z;
  MOSI : Z;
  ClockFrequency : float;
  Mode : Z;
  MSBFirst : bool
}.

Record spiImpl : Set := { dev : Device }.

Section Methods.
Context {H : Type} `{Sdk H}.

Definition Read (sp : spiImpl) (count cs : Z) : M H (list Z * error) :=
  let h := handle (dev sp) in
  check dwfDigitalSpiSelect h (cInt cs) 0 onerr (fun e => ([], e)) ;;
  buf <- make count ;;
  '(buf, err) <- dwfDigitalSpiRead h 1 8 buf ;;
  match err with
  | Some _ =>
      _ <- dwfDigitalSpiSelect h (cInt cs) 1 ;;
      ret ([], err)
  | None =>
      check dwfDigitalSpiSelect h (cInt cs) 1 onerr (fun e => (buf, e)) ;;
      ret (buf, None)
  end.

Definition Write (sp : spiImpl) (data : list Z) (cs : Z) : M H error :=
  let h := handle (dev sp) in
  check dwfDigitalSpiSelect h (cInt cs) 0 onerr same_error ;;
  err <- dwfDigitalSpiWrite h 1 8 data ;;
  match err with
  | Some _ =>
      _ <- dwfDigitalSpiSelect h (cInt cs) 1 ;;
      ret err
  | None => dwfDigitalSpiSelect h (cInt cs) 1
  end.

Definition Exchange (sp : spiImpl) (txData : list Z) (rxCount cs : Z)
  : M H (list Z * error) :=
  let h := handle (dev sp) in
  check dwfDigitalSpiSelect h (cInt cs) 0 onerr (fun e => ([], e)) ;;
  rxBuf <- make rxCount ;;
  '(rxBuf, err) <- dwfDigitalSpiWriteRead h 1 8 txData rxBuf ;;
  match err with
  | Some _ =>
      _ <- dwfDigitalSpiSelect h (cInt cs) 1 ;;
      ret ([], err)
  | None =>
      check dwfDigitalSpiSelect h (cInt cs) 1 onerr (fun e => (rxBuf, e)) ;;
      ret (rxBuf, None)
  end.

End Methods.

Section Opening.
Context {H : Type} `{Sdk H} `{Header}.

Definition Open (sp : spiImpl) (cfg : SPIConfig) : M H error :=
  let h := handle (dev sp) in
  check dwfDigitalSpiFrequencySet h (ClockFrequency cfg) onerr same_error ;;
  check dwfDigitalSpiClockSet h (cInt (SCK cfg)) onerr same_error ;;
  check (if 0 <=? MOSI cfg then
           check dwfDigitalSpiDataSet h 0 (cInt (MOSI cfg)) onerr same_error ;;
           dwfDigitalSpiIdleSet h 0 cDwfDigitalOutIdleZet
         else ret None)
    onerr same_error ;;
  check (if 0 <=? MISO cfg then
           check dwfDigitalSpiDataSet h 1 (cInt (MISO cfg)) onerr same_error ;;
           dwfDigitalSpiIdleSet h 1 cDwfDigitalOutIdleZet
         else ret None)
    onerr same_error ;;
  check dwfDigitalSpiModeSet h (cInt (Mode cfg)) onerr same_error ;;
  let order := if MSBFirst cfg then 1 else 0 in
  check dwfDigitalSpiOrderSet h (cInt order) onerr same_error ;;
  check dwfDigitalSpiSelect h (cInt (CS cfg)) 1 onerr same_error ;;
  dwfDigitalSpiWriteOne h 1 0 0.

End Opening.
End Spi.

(** ** I2C *)

Module I2c.

Record I2CConfig : Set := {
  SDA : Z;
  SCL : Z;
  ClockRate : float;
  Stretching : bool
}.

Record i2cImpl : Set := { dev : Device }.

Section Methods.
Context {H : Type} `{Sdk H}.

(** [for addr := ...; addr <= 0x77; addr++] with [left] addresses to go. *)
Fixpoint scanFrom (left : nat) (h addr : Z) (found : list Z)
  : M H (list Z * error) :=
  match left with
  | O => ret (found, None)
  | S left' =>
      '(nak, err) <- dwfDigitalI2cWrite h (cInt (int (Z.shiftl addr 1))) [] ;;
      match err with
      | Some _ => ret ([], err)
      | None =>
          scanFrom left' h (addr + 1)
            (if nak =? 0 then found ++ [addr] else found)
      end
  end.

Definition Scan (ic : i2cImpl) : M H (list Z * error) :=
  scanFrom (Z.to_nat (0x77 - 0x08 + 1)) (handle (dev ic)) 0x08 [].

Definition Open (ic : i2cImpl) (cfg : I2CConfig) : M H error :=
  let h := handle (dev ic) in
  check dwfDigitalI2cReset h onerr same_error ;;
  check dwfDigitalI2cStretchSet h (Stretching cfg) onerr same_error ;;
  check dwfDigitalI2cRateSet h (ClockRate cfg) onerr same_error ;;
  check dwfDigitalI2cSclSet h (cInt (SCL cfg)) onerr same_error ;;
  check dwfDigitalI2cSdaSet h (cInt (SDA cfg)) onerr same_error ;;
  '(nak, err) <- dwfDigitalI2cClear h ;;
  match err with
  | Some _ => ret err
  | None =>
      if nak =? 0 then ret (Some "I2C bus lockup"%string)
      else
        _ <- dwfDigitalI2cWrite h 0 [] ;;
        ret None
  end.

Definition Read (ic : i2cImpl) (count address : Z) : M H (list Z * error) :=
  let h := handle (dev ic) in
  buf <- make count ;;
  '(buf, nak, err) <- dwfDigitalI2cRead h (cInt (int (Z.shiftl address 1))) buf ;;
  match err with
  | Some _ => ret ([], err)
  | None =>
      if negb (nak =? 0)
      then ret (buf, Some ("I2C NAK at index " ++ fmt_d nak)%string)
      else ret (buf, None)
  end.

Definition Write (ic : i2cImpl) (data : list Z) (address : Z) : M H error :=
  let h := handle (dev ic) in
  '(nak, err) <- dwfDigitalI2cWrite h (cInt (int (Z.shiftl address 1))) data ;;
  match err with
  | Some _ => ret err
  | None =>
      if negb (nak =? 0)
      then ret (Some ("I2C NAK at index " ++ fmt_d nak)%string)
      else ret None
  end.

Definition Exchange (ic : i2cImpl) (txData : list Z) (rxCount address : Z)
  : M H (list Z * error) :=
  let h := handle (dev ic) in
  rxBuf <- make rxCount ;;
  '(rxBuf, nak, err) <-
    dwfDigitalI2cWriteRead h (cInt (int (Z.shiftl address 1))) txData rxBuf ;;
  match err with
  | Some _ => ret ([], err)
  | None =>
      if negb (nak =? 0)
      then ret (rxBuf, Some ("I2C NAK at index " ++ fmt_d nak)%string)
      else ret (rxBuf, None)
  end.

End Methods.
End I2c.

(** ** Vocabulary of the statements *)

(** *** A scripted library for concrete runs *)

(** The simulated library answers call number [n] with [answer n c].  The
    header constants take the values the SDK documents ([types.go] mirrors
    those of the trigger sources and slopes); a conversion of a double that
    has no [int] value yields the least [int], as on amd64. *)
Definition scriptedSdk (answer : nat -> CCall -> CReply) : Sdk nat := {|
  exec := fun n c => (answer n c, S n);
  cTrigsrcNone := 0;
  cTrigsrcDetectorDigIn := 3;
  cDwfTriggerSlopeRise := 0;
  cDwfTriggerSlopeFall := 1;
  cDwfStateDone := 2;
  cTrigSrc := C_uchar;
  cDigitalOutType := C_int;
  cDigitalOutIdle := C_int;
  int_of_unrepresentable := fun _ => - 2 ^ 63
|}.

Definition world0 : World nat := mkWorld 0%nat [].

Definition okReply : CReply := Reply 1 [] 0%float [] [].
Definition failReply : CReply := Reply 0 [] 0%float [] [].
Definition intReply (z : Z) : CReply := Reply 1 [z] 0%float [] [].
Definition doubleReply (x : float) : CReply := Reply 1 [] x [] [].

Definition allOk : Sdk nat := scriptedSdk (fun _ _ => okReply).

Definition session (h : Z) : Device := {| handle := h; info := None |}.

(** *** SPI *)

(** The level of the last chip-select call in a trace. *)
Definition selectLevel (c : CCall) : option Z :=
  match c with
  | Call FDwfDigitalSpiSelect [AInt _; AInt _; AInt level] => Some level
  | _ => None
  end.

Definition lastSelect (t : list (CCall * CReply)) : option Z :=
  fold_left (fun acc e => match selectLevel (fst e) with
                          | Some l => Some l
                          | None => acc
                          end) t None.

(** The world once a setter call [c] whose error the caller drops has been
    issued in [w]: the call itself and, when it failed, the query for its
    error message. *)
Definition dropped {H : Type} `{Sdk H} (w : World H) (c : CCall) : World H :=
  if rc (reply w c) =? 0 then after (after w c) getLastErrorMsg
  else after w c.

Definition spiFailingTransfer : Sdk nat :=
  scriptedSdk (fun _ c =>
    match cfun c with
    | FDwfDigitalSpiWrite | FDwfDigitalSpiRead | FDwfDigitalSpiWriteRead => failReply
    | _ => okReply
    end).

(** *** I2C *)

(** Successive calls [cs] issued from world [w]: the world they leave, the
    replies they get, and whether each of them succeeds. *)
Fixpoint afterAll {H : Type} `{Sdk H} (w : World H) (cs : list CCall) : World H :=
  match cs with
  | [] => w
  | c :: cs' => afterAll (after w c) cs'
  end.

Fixpoint repliesTo {H : Type} `{Sdk H} (w : World H) (cs : list CCall)
  : list CReply :=
  match cs with
  | [] => []
  | c :: cs' => reply w c :: repliesTo (after w c) cs'
  end.

Fixpoint allSucceed {H : Type} `{Sdk H} (w : World H) (cs : list CCall) : Prop :=
  match cs with
  | [] => True
  | c :: cs' => rc (reply w c) <> 0 /\ allSucceed (after w c) cs'
  end.

(** [n] consecutive addresses from [addr] upwards. *)
Fixpoint upFrom (addr : Z) (n : nat) : list Z :=
  match n with
  | O => []
  | S n' => addr :: upFrom (addr + 1) n'
  end.

(** The 7-bit addresses [0x08 .. 0x77]. *)
Definition scanAddresses : list Z := upFrom 0x08 112.

(** A zero-length write to 7-bit address [addr]: the address byte carries
    the address shifted left by one bit. *)
Definition probe (h addr : Z) : CCall :=
  Call FDwfDigitalI2cWrite [AInt h; AInt (Z.shiftl addr 1); AData []; AInt 0].

Definition nakOf (r : CReply) : Z := C_int (outInt r 0).

(** The addresses whose probe was answered with NAK = 0. *)
Fixpoint ackedOf (addrs : list Z) (replies : list CReply) : list Z :=
  match addrs, replies with
  | a :: addrs', r :: replies' =>
      if nakOf r =? 0 then a :: ackedOf addrs' replies'
      else ackedOf addrs' replies'
  | _, _ => []
  end.

(** A bus on which exactly the devices at [acking] answer: the probe of
    any other address is NAKed. *)
Definition busWith (acking : list Z) : Sdk nat :=
  scriptedSdk (fun _ c =>
    match c with
    | Call FDwfDigitalI2cWrite (AInt _ :: AInt addressByte :: _) =>
        if existsb (fun a => Z.shiftl a 1 =? addressByte) acking
        then intReply 0 else intReply 1
    | _ => okReply
    end).

(** *** UART *)

(** The bytes [dwfDigitalUartRx] returns for a receive buffer of [bufSize]
    elements when the library answers [r]: the first [count] bytes of the
    buffer after the library has stored its data there. *)
Definition received (bufSize : Z) (r : CReply) : list Z :=
  firstn (Z.to_nat (C_int (outInt r 0)))
    (map byte (store_into (repeat 0 (Z.to_nat bufSize)) (outData r))).

(** A UART whose receive call stores [data] and reports [parity]. *)
Definition uartWith (data : list Z) (parity : Z) : Sdk nat :=
  scriptedSdk (fun _ c =>
    match cfun c with
    | FDwfDigitalUartRx =>
        Reply 1 [Z.of_nat (length data); parity] 0%float [] data
    | _ => okReply
    end).

(** *** Power supply *)

(** [m] always ends with a value, and every library call it makes is to a
    function satisfying [P]. *)
Definition quiet {H : Type} `{Sdk H} {A : Type} (P : CFun -> Prop) (m : M H A)
  : Prop :=
  forall w : World H,
    exists (a : A) (w' : World H) (calls : list (CCall * CReply)),
      m w = (Done a, w') /\
      trace w' = trace w ++ calls /\
      Forall (fun e => P (cfun (fst e))) calls.

Definition notMasterEnable (f : CFun) : Prop := f <> FDwfAnalogIOEnableSet.

(** A supply whose analog-IO channel 0 is labelled "V+" and has the nodes
    "Enable", "Voltage" and "Current"; every node write fails, the master
    enable succeeds. *)
Definition supplyRejectingWrites : Sdk nat :=
  scriptedSdk (fun _ c =>
    match c with
    | Call FDwfAnalogIOChannelCount _ => intReply 1
    | Call FDwfAnalogIOChannelName _ => Reply 1 [] 0%float ["Positive"; "V+"]%string []
    | Call FDwfAnalogIOChannelInfo _ => intReply 3
    | Call FDwfAnalogIOChannelNodeName [AInt _; AInt _; AInt n] =>
        Reply 1 [] 0%float
          [nth (Z.to_nat n) ["Enable"; "Voltage"; "Current"]%string EmptyString;
           EmptyString] []
    | Call FDwfAnalogIOChannelNodeSet _ => failReply
    | _ => okReply
    end).

Definition suppliesOn : Supply.SuppliesConfig := {|
  Supply.MasterState := true;
  Supply.PositiveState := true;
  Supply.NegativeState := false;
  Supply.State := false;
  Supply.PositiveVoltage := 3.5%float;
  Supply.NegativeVoltage := 0%float;
  Supply.Voltage := 0%float;
  Supply.PositiveCurrent := 0.5%float;
  Supply.NegativeCurrent := 0%float;
  Supply.Current := 0%float
|}.

(** *** Logic analyzer *)

(** Whatever [m] does from any world, the trace grows by calls that all
    satisfy [P]. *)
Definition emits {H : Type} `{Sdk H} {A : Type} (P : CCall -> Prop) (m : M H A)
  : Prop :=
  forall w : World H,
    exists calls : list (CCall * CReply),
      trace (snd (m w)) = trace w ++ calls /\
      Forall (fun e => P (fst e)) calls.


Definition risingTrigger (position : Z) : Logic.LogicTriggerConfig := {|
  Logic.Enable := true;
  Logic.Channel := 3;
  Logic.Position := position;
  Logic.Timeout := 0%float;
  Logic.RisingEdge := true;
  Logic.LengthMin := 0%float;
  Logic.LengthMax := 20%float;
  Logic.Count := 1
|}.

Definition analyzer (size : Z) : Logic.logicImpl :=
  {| Logic.dev := session 1; Logic.bufferSize := size |}.

(** The buffer maximum [Open] works with: what the library reports, zero
    when the query fails. *)
Definition reportedMax {H : Type} `{Sdk H} (w : World H) (h : Z) : Z :=
  let r := reply w (Call FDwfDigitalInBufferSizeInfo [AInt h]) in
  if rc r =? 0 then 0 else C_int (outInt r 0).

(** The sample buffer of [Record] after the library has answered the data
    call with [r]: [size] words of 16 bits. *)
Definition rawSamples (size : Z) (r : CReply) : list Z :=
  store_into (repeat 0 (Z.to_nat size)) (map uint16 (outData r)).

(** A logic analyzer with a 100 MHz clock and at most 4096 samples; it
    reports the done state (2) from library call number 3 on, another
    state before, and delivers the words [samples]. *)
Definition analyzerWith (samples : list Z) : Sdk nat :=
  scriptedSdk (fun n c =>
    match cfun c with
    | FDwfDigitalInBufferSizeInfo => intReply 4096
    | FDwfDigitalInInternalClockInfo => doubleReply 100000000%float
    | FDwfDigitalInStatus => intReply (if (n <? 3)%nat then 1 else 2)
    | FDwfDigitalInStatusData => Reply 1 [] 0%float [] samples
    | _ => okReply
    end).

(** *** Pattern generator *)

(** The calls of [Generate] that program the pulse counters carry a pair
    computed by [pulseCounters] from some clock frequency and the divider
    derived from it. *)
Definition programsPulse {H : Type} `{Sdk H} (h ch : Z) (frequency dutyCycle : float)
  (c : CCall) : Prop :=
  cfun c = FDwfDigitalOutCounterSet ->
  exists (internalFreq : float) (steps low high : Z),
    (forall w : World H,
       Pattern.pulseCounters internalFreq frequency dutyCycle
         (int_of_float64 (internalFreq / frequency)) w =
       (Done (steps, low, high), w)) /\
    c = Call FDwfDigitalOutCounterSet
          [AInt h; AInt ch; AInt (C_uint low); AInt (C_uint high)].

(** A pattern generator with the given internal clock. *)
Definition generatorWith (clock : float) : Sdk nat :=
  scriptedSdk (fun _ c =>
    match cfun c with
    | FDwfDigitalOutInternalClockInfo => doubleReply clock
    | _ => okReply
    end).

Definition pulse (frequency dutyCycle : float) : Pattern.PatternConfig := {|
  Pattern.Channel := 0;
  Pattern.Function := Pattern.DigitalOutTypePulse;
  Pattern.Frequency := frequency;
  Pattern.DutyCycle := dutyCycle;
  Pattern.Data := [];
  Pattern.Wait := 0%float;
  Pattern.Repeat := 0;
  Pattern.RunTime := 0;
  Pattern.IdleState := 0;
  Pattern.TriggerEnabled := false;
  Pattern.TriggerSource := 0;
  Pattern.TriggerEdgeRising := true
|}.

(** *** Static I/O *)

(** The circular left rotation of the [width] low bits of [x] by [k], as
    the specification of the static I/O controller words it. *)
Definition circularRotate (width x k : Z) : Z :=
  Z.lor (Z.shiftl x k mod 2 ^ width) (Z.shiftr x (width - k)).

(** The mask [SetMode] combines with the mask it read when it disables
    line [c] of [N]: the all-but-one-bit pattern [2^N - 2] rotated by [c]. *)
Definition disablePattern (N c : Z) : Z :=
  StaticIO.rotateLeft (uint32 (shl32 1 (uint32 N) - 2)) (uint32 c) (uint32 N).

(** Its closed form: every bit below [min 32 (N + c)] except bit [c]. *)
Definition allButOne (N c : Z) : Z :=
  Z.ldiff (Z.ones (Z.min 32 (N + c))) (2 ^ c).

Definition patternsChecked : bool :=
  forallb (fun N =>
    forallb (fun c =>
      (disablePattern N c =? allButOne N c)
      && (Z.land (disablePattern N c) (Z.ones N) =? circularRotate N (2 ^ N - 2) c)
      && (StaticIO.rotateLeft 1 (uint32 c) (uint32 N) =? 2 ^ c)
      && (circularRotate N 1 c =? 2 ^ c))
      (upFrom 0 (Z.to_nat N)))
    (upFrom 1 32).


(** *** Further instruments *)

(** The values [dwf.h] gives the further constants; [FUNC] is an unsigned
    char. *)
Definition dwfHeader : Header := {|
  cEnumfilterAll := 0;
  cDevidDiscovery := 2;
  cDevidDiscovery2 := 3;
  cDevidDDiscovery := 4;
  cDevidADP3X50 := 6;
  cDevidADP5250 := 8;
  cFilterDecimate := 0;
  cAnalogOutNodeCarrier := 0;
  cDwfDigitalOutIdleZet := 3;
  cFunc := C_uchar
|}.

(** [m] ends with a value from every world: no panic, no unfinished poll. *)
Definition returns {H : Type} {A : Type} (m : M H A) : Prop :=
  forall w : World H, exists (a : A) (w' : World H), m w = (Done a, w').

(** The calls of [Generate] that program the pulse counters span one
    divided clock period: [high + low] is 1, and [high] is the duty cycle
    over 100 cut off to an integer, whatever the clock and the frequency. *)
Definition programsOnePeriod {H : Type} `{Sdk H} (h ch : Z) (dutyCycle : float)
  (c : CCall) : Prop :=
  cfun c = FDwfDigitalOutCounterSet ->
  exists low high : Z,
    c = Call FDwfDigitalOutCounterSet
          [AInt h; AInt ch; AInt (C_uint low); AInt (C_uint high)] /\
    high = int_of_float64 (float64 1 * dutyCycle / 100) /\
    int (high + low) = 1.

(** A logic analyzer whose buffer-size query fails; the clock query
    answers 100 MHz and the acquisition is done at the first poll. *)
Definition analyzerWithoutSize : Sdk nat :=
  scriptedSdk (fun _ c =>
    match cfun c with
    | FDwfDigitalInBufferSizeInfo => failReply
    | FDwfDigitalInInternalClockInfo => doubleReply 100000000%float
    | FDwfDigitalInStatus => intReply 2
    | _ => okReply
    end).

(** A static I/O controller that answers the query [f] with [word]. *)
Definition ioReading (f : CFun) (word : Z) : Sdk nat :=
  scriptedSdk (fun _ c =>
    if match cfun c, f with
       | FDwfDigitalIOInputStatus, FDwfDigitalIOInputStatus => true
       | FDwfDigitalIOOutputGet, FDwfDigitalIOOutputGet => true
       | FDwfDigitalIOOutputEnableGet, FDwfDigitalIOOutputEnableGet => true
       | _, _ => false
       end
    then intReply word else okReply).

(** An opened Digital Discovery: its DIO lines are numbered from 24. *)
Definition digitalDiscovery (h : Z) : Device := {|
  handle := h;
  info := Some {|
    Handle := h;
    Name := "Digital Discovery";
    SerialNumber := "SN:210321A00000";
    Version := "3.20.1";
    AnalogInChannels := 0;
    AnalogOutChannels := 0;
    DigitalInChannels := 24;
    DigitalOutChannels := 16;
    MaxAnalogInBufferSize := 0;
    MaxAnalogInResolution := 0
  |}
|}.

(** The analog-IO functions that only read: the enumeration of channels
    and nodes, the status fetch and the status of a node (and the query for
    the last error message). *)
Definition analogIOQuery (f : CFun) : Prop :=
  match f with
  | FDwfGetLastErrorMsg
  | FDwfAnalogIOChannelCount
  | FDwfAnalogIOChannelName
  | FDwfAnalogIOChannelInfo
  | FDwfAnalogIOChannelNodeName
  | FDwfAnalogIOStatus
  | FDwfAnalogIOChannelNodeStatus => True
  | _ => False
  end.

(** [m] ends with a value satisfying [Q] from every world. *)
Definition yields {H : Type} {A : Type} (Q : A -> Prop) (m : M H A) : Prop :=
  forall w : World H, exists (a : A) (w' : World H), m w = (Done a, w') /\ Q a.

(** What [Open] hands back and leaves in the session [d]: an error and the
    session untouched, or the capability record, cached in the session
    under the handle it names, which is not zero. *)
Definition openedOrUntouched (d : Device)
  (out : option DeviceInfo * error * Device) : Prop :=
  let '(r, e, d') := out in
  (exists msg : string, e = Some msg /\ r = None /\ d' = d) \/
  (exists i : DeviceInfo,
     e = None /\ r = Some i /\ info d' = Some i /\ handle d' = Handle i /\
     Handle i <> 0).

(** A library that enumerates [count] devices and opens the one at index
    [free] (and no other) under handle 7. *)
Definition enumerating (count free : Z) : Sdk nat :=
  scriptedSdk (fun _ c =>
    match c with
    | Call FDwfEnum _ => intReply count
    | Call FDwfDeviceConfigOpen (AInt index :: _) =>
        if index =? free then intReply 7 else failReply
    | Call FDwfEnumSN (AInt index :: _) =>
        Reply 1 [] 0%float
          [if index =? 0 then "SN:A"%string else "SN:B"%string] []
    | _ => okReply
    end).

(** The calls of [Open] that ask for the type or the serial number of a
    device ask for enumeration index 0. *)
Definition identifiesIndexZero (c : CCall) : Prop :=
  cfun c = FDwfEnumDeviceType \/ cfun c = FDwfEnumSN -> cargs c = [AInt 0].

(** A channel or node index as [Open] of the multimeter stores it: -1 for
    "not found", or an index that the conversion to a C [int] keeps. *)
Definition storedIndex (z : Z) : Prop := z = -1 \/ 0 <= z < 2 ^ 31.

Definition storedNodes (ns : Dmm.dmmNodes) : Prop :=
  storedIndex (Dmm.enable ns) /\ storedIndex (Dmm.mode ns) /\
  storedIndex (Dmm.rangN ns) /\ storedIndex (Dmm.meas ns) /\
  storedIndex (Dmm.input ns).

(** What [Open] of the multimeter returns and leaves in the instrument:
    no channel, no nodes and an error, or a channel index and node indices
    that are each -1 or valid. *)
Definition dmmOpened (m : Dmm.dmmImpl) (out : error * Dmm.dmmImpl) : Prop :=
  let '(e, m') := out in
  Dmm.dev m' = Dmm.dev m /\
  ((Dmm.channel m' = -1 /\ Dmm.nodes m' = Dmm.noNodes /\ e <> None) \/
   (0 <= Dmm.channel m' < 2 ^ 31 /\ storedNodes (Dmm.nodes m'))).

(** A field of the node record after the node loop: as before, or an index
    the loop went through. *)
Definition kept_or_seen (n : Z) (left : nat) (before after_ : Z) : Prop :=
  after_ = before \/ n <= after_ < n + Z.of_nat left.

Definition unopenedMeter : Dmm.dmmImpl :=
  {| Dmm.dev := session 1; Dmm.channel := -1; Dmm.nodes := Dmm.noNodes |}.


(** An opened Analog Discovery 2 with an 8192-sample oscilloscope buffer. *)
Definition discovery2 (h : Z) : Device := {|
  handle := h;
  info := Some {|
    Handle := h;
    Name := "Analog Discovery 2";
    SerialNumber := "SN:210321A00001";
    Version := "3.20.1";
    AnalogInChannels := 2;
    AnalogOutChannels := 2;
    DigitalInChannels := 16;
    DigitalOutChannels := 16;
    MaxAnalogInBufferSize := 8192;
    MaxAnalogInResolution := 14
  |}
|}.

(** An oscilloscope whose acquisition is done at the first poll and whose
    data call stores the 64-bit words [words]. *)
Definition scopeWith (words : list Z) : Sdk nat :=
  scriptedSdk (fun _ c =>
    match cfun c with
    | FDwfAnalogInStatus => intReply 2
    | FDwfAnalogInStatusData => Reply 1 [] 0%float [] words
    | _ => okReply
    end).

Definition scopeConfig (size : Z) : Scope.ScopeConfig := {|
  Scope.SamplingFrequency := 1000000%float;
  Scope.BufferSize := size;
  Scope.OffsetVoltage := 0%float;
  Scope.AmplitudeRange := 5%float
|}.

(** The calls of [Open] of the SPI engine that route a data line or drive
    chip-select: a data line is routed only to a pin that is not negative,
    index 0 to MOSI and index 1 to MISO, and chip-select is driven to
    level 1. *)
Definition routesLines (h : Z) (cfg : Spi.SPIConfig) (c : CCall) : Prop :=
  (cfun c = FDwfDigitalSpiDataSet ->
   (c = Call FDwfDigitalSpiDataSet [AInt h; AInt 0; AInt (cInt (Spi.MOSI cfg))] /\
    0 <= Spi.MOSI cfg) \/
   (c = Call FDwfDigitalSpiDataSet [AInt h; AInt 1; AInt (cInt (Spi.MISO cfg))] /\
    0 <= Spi.MISO cfg)) /\
  (cfun c = FDwfDigitalSpiSelect ->
   c = Call FDwfDigitalSpiSelect [AInt h; AInt (cInt (Spi.CS cfg)); AInt 1]).

(** The line mask of the logic trigger: bit [channel] of a 32-bit word,
    which is no bit at all from line 32 on. *)
Definition lineMask (channel : Z) : Z := if channel <? 32 then 2 ^ channel else 0.

(** The calls of [SetTrigger] that program the trigger detector and its
    reset carry the line mask in the one position [SetTrigger] uses for
    the edge, and zero elsewhere. *)
Definition programsLine (h : Z) (cfg : Logic.LogicTriggerConfig) (c : CCall) : Prop :=
  let bit := lineMask (Logic.Channel cfg) in
  (cfun c = FDwfDigitalInTriggerSet ->
   c = Call FDwfDigitalInTriggerSet
         (if Logic.RisingEdge cfg
          then [AInt h; AInt 0; AInt bit; AInt 0; AInt 0]
          else [AInt h; AInt bit; AInt 0; AInt 0; AInt 0])) /\
  (cfun c = FDwfDigitalInTriggerResetSet ->
   c = Call FDwfDigitalInTriggerResetSet
         (if Logic.RisingEdge cfg
          then [AInt h; AInt 0; AInt 0; AInt bit; AInt 0]
          else [AInt h; AInt 0; AInt 0; AInt 0; AInt bit])).

(** What [Scan] returns: no address at all beside an error, and only
    addresses of the scanned range. *)
Definition scanResult (out : list Z * error) : Prop :=
  (snd out <> None -> fst out = []) /\
  Forall (fun a => 0x08 <= a <= 0x77) (fst out).

(** * Properties *)

Section Runs.
Context {H : Type} `{Sdk H}.

Lemma bind_ret {A B} (a : A) (k : A -> M H B) (w : World H) :
  bind (ret a) k w = k a w.
Proof. reflexivity. Qed.

Lemma bind_done {A B} (m : M H A) (k : A -> M H B) (w w' : World H) (a : A) :
  m w = (Done a, w') -> bind m k w = k a w'.
Proof. intros E. unfold bind. rewrite E. reflexivity. Qed.

Lemma guard_failed {A} (m : M H error) (f : error -> A) (k : M H A)
  (w w' : World H) (msg : string) :
  m w = (Done (Some msg), w') -> guard m f k w = (Done (f (Some msg)), w').
Proof. intros E. unfold guard, bind. rewrite E. reflexivity. Qed.

Lemma guard_passed {A} (m : M H error) (f : error -> A) (k : M H A)
  (w w' : World H) :
  m w = (Done None, w') -> guard m f k w = k w'.
Proof. intros E. unfold guard, bind. rewrite E. reflexivity. Qed.

Lemma run_lastError (w : World H) :
  lastError w = (Done (errorText (reply w getLastErrorMsg)), after w getLastErrorMsg).
Proof. reflexivity. Qed.

(** Every setter of the bindings is one call followed by the test of its
    return code. *)
Lemma run_setter (f : CFun) (args : list CArg) (w : World H) :
  (r <- ccall f args ;; nil_unless_failed r) w =
  if rc (reply w (Call f args)) =? 0
  then (Done (Some (errorText (reply (after w (Call f args)) getLastErrorMsg))),
        after (after w (Call f args)) getLastErrorMsg)
  else (Done None, after w (Call f args)).
Proof.
  unfold bind, ccall, nil_unless_failed.
  destruct (rc _ =? 0); reflexivity.
Qed.

Lemma setter_ok (f : CFun) (args : list CArg) (w : World H) :
  rc (reply w (Call f args)) <> 0 ->
  (r <- ccall f args ;; nil_unless_failed r) w = (Done None, after w (Call f args)).
Proof. intros E. apply Z.eqb_neq in E. rewrite run_setter, E. reflexivity. Qed.

Lemma setter_failed (f : CFun) (args : list CArg) (w : World H) :
  rc (reply w (Call f args)) = 0 ->
  (r <- ccall f args ;; nil_unless_failed r) w =
  (Done (Some (errorText (reply (after w (Call f args)) getLastErrorMsg))),
   after (after w (Call f args)) getLastErrorMsg).
Proof. intros E. rewrite run_setter, E. reflexivity. Qed.

(** The shape of the getters: on failure a fixed value and the error, on
    success a value read from the reply. *)
Lemma run_getter {A} (f : CFun) (args : list CArg)
  (onFail : CReply -> A) (onOk : CReply -> A) (w : World H) :
  (r <- ccall f args ;;
   if rc r =? 0 then e <- lastError ;; ret (onFail r, Some e)
   else ret (onOk r, None)) w =
  if rc (reply w (Call f args)) =? 0
  then (Done (onFail (reply w (Call f args)),
              Some (errorText (reply (after w (Call f args)) getLastErrorMsg))),
        after (after w (Call f args)) getLastErrorMsg)
  else (Done (onOk (reply w (Call f args)), None), after w (Call f args)).
Proof.
  unfold bind, ccall. destruct (rc _ =? 0); reflexivity.
Qed.

Lemma run_dropped_setter {A} (f : CFun) (args : list CArg) (a : A) (w : World H) :
  (_ <- (r <- ccall f args ;; nil_unless_failed r) ;; ret a) w =
  (Done a, dropped w (Call f args)).
Proof.
  unfold bind at 1. rewrite run_setter. unfold dropped.
  destruct (rc _ =? 0); reflexivity.
Qed.

Lemma trace_after (w : World H) (c : CCall) :
  trace (after w c) = trace w ++ [(c, reply w c)].
Proof. reflexivity. Qed.

Lemma make_positive (n : Z) :
  0 < n ->
  exists z rest, @make H n = ret (z :: rest) /\ Z.of_nat (length (z :: rest)) = n.
Proof.
  intros Hn. unfold make. destruct (Z.ltb_spec n 0); [lia|].
  destruct (Z.to_nat n) as [|k] eqn:Hk; [lia|].
  exists 0, (repeat 0 k). split; [reflexivity|].
  cbn [length]. rewrite repeat_length. lia.
Qed.

End Runs.

(** ** Device session *)

(** C8: [Close] on a closed session (handle zero) makes no driver call and
    returns no error; on an open session it calls [FDwfDeviceClose] with the
    handle, reports an error exactly when that call fails, and leaves the
    handle zero; closing again after any [Close] is therefore a no-op. *)
Theorem Close_idempotent {H : Type} `{Sdk H} (d : Device) (w : World H) :
  (handle d = 0 -> Dev.Close d w = (Done (None, d), w)) /\
  (handle d <> 0 ->
   let c := Call FDwfDeviceClose [AInt (handle d)] in
   let d' := {| handle := 0; info := info d |} in
   (rc (reply w c) <> 0 -> Dev.Close d w = (Done (None, d'), after w c)) /\
   (rc (reply w c) = 0 ->
    Dev.Close d w =
    (Done (Some (errorText (reply (after w c) getLastErrorMsg)), d'),
     after (after w c) getLastErrorMsg))) /\
  (forall err d' w',
     Dev.Close d w = (Done (err, d'), w') ->
     handle d' = 0 /\ Dev.Close d' w' = (Done (None, d'), w')).
Proof.
  split; [|split].
  - intros Hd. unfold Dev.Close. rewrite Hd. reflexivity.
  - intros Hd c d'. apply Z.eqb_neq in Hd. unfold Dev.Close. rewrite Hd.
    cbn [negb]. split; intros Hr.
    + erewrite bind_done by (apply setter_ok; exact Hr). reflexivity.
    + erewrite bind_done by (apply setter_failed; exact Hr). reflexivity.
  - intros err d' w'. unfold Dev.Close at 1.
    destruct (handle d =? 0) eqn:Hd; cbn [negb].
    + intros E. inversion E; subst. apply Z.eqb_eq in Hd.
      split; [exact Hd | ]. unfold Dev.Close. rewrite Hd. reflexivity.
    + unfold bind at 1, dwfDeviceClose. rewrite run_setter.
      destruct (rc _ =? 0); intros E; inversion E; subst; cbn;
        split; reflexivity.
Qed.

Lemma Close_idempotent_witness :
  @Dev.Close nat allOk (session 7) world0 =
  (Done (None, session 0),
   @after nat allOk world0 (Call FDwfDeviceClose [AInt 7])).
Proof.
  apply (proj1 (proj1 (proj2 (@Close_idempotent nat allOk (session 7) world0))
                  ltac:(discriminate))).
  discriminate.
Defined.

(** ** SPI *)

Section SpiFacts.
Context {H : Type} `{Sdk H}.

Lemma lastSelect_app (t1 t2 : list (CCall * CReply)) (l : Z) :
  lastSelect t2 = Some l -> lastSelect (t1 ++ t2) = Some l.
Proof.
  unfold lastSelect. rewrite fold_left_app.
  generalize (fold_left
    (fun acc e => match selectLevel (fst e) with Some l0 => Some l0 | None => acc end)
    t1 None).
  induction t2 as [|e t2 IH] using rev_ind; intros o.
  - discriminate.
  - rewrite !fold_left_app. cbn. destruct (selectLevel (fst e)); [trivial|].
    apply IH.
Qed.

Lemma lastSelect_dropped (w : World H) (h cs : Z) :
  lastSelect (trace (dropped w (Call FDwfDigitalSpiSelect [AInt h; AInt cs; AInt 1])))
  = Some 1.
Proof.
  unfold dropped. destruct (rc _ =? 0); cbn [trace after];
    rewrite <- ?app_assoc; apply lastSelect_app; reflexivity.
Qed.

End SpiFacts.

(** C5: when chip-select was asserted (level 0, the call succeeded) and the
    transfer call of [Write], [Read] or [Exchange] fails, the next library
    call after the query for the error message is chip-select at level 1;
    only then is the error of the transfer returned.  The last chip-select
    call of the trace has level 1. *)
Theorem spi_transfer_failure_deselects {H : Type} `{Sdk H}
  (sp : Spi.spiImpl) (cs : Z) (w : World H) :
  let h := handle (Spi.dev sp) in
  let sel0 := Call FDwfDigitalSpiSelect [AInt h; AInt (cInt cs); AInt 0] in
  let sel1 := Call FDwfDigitalSpiSelect [AInt h; AInt (cInt cs); AInt 1] in
  let w1 := after w sel0 in
  rc (reply w sel0) <> 0 ->
  (forall data : list Z,
     data <> [] ->
     let xfer := Call FDwfDigitalSpiWrite
                   [AInt h; AInt 1; AInt 8; AData data;
                    AInt (C_int (Z.of_nat (length data)))] in
     let w2 := after w1 xfer in
     rc (reply w1 xfer) = 0 ->
     Spi.Write sp data cs w =
       (Done (Some (errorText (reply w2 getLastErrorMsg))),
        dropped (after w2 getLastErrorMsg) sel1)) /\
  (forall count : Z,
     0 < count ->
     let xfer := Call FDwfDigitalSpiRead
                   [AInt h; AInt 1; AInt 8; AInt (C_int count)] in
     let w2 := after w1 xfer in
     rc (reply w1 xfer) = 0 ->
     Spi.Read sp count cs w =
       (Done ([], Some (errorText (reply w2 getLastErrorMsg))),
        dropped (after w2 getLastErrorMsg) sel1)) /\
  (forall (txData : list Z) (rxCount : Z),
     txData <> [] -> 0 < rxCount ->
     let xfer := Call FDwfDigitalSpiWriteRead
                   [AInt h; AInt 1; AInt 8; AData txData;
                    AInt (C_int (Z.of_nat (length txData)));
                    AInt (C_int rxCount)] in
     let w2 := after w1 xfer in
     rc (reply w1 xfer) = 0 ->
     Spi.Exchange sp txData rxCount cs w =
       (Done ([], Some (errorText (reply w2 getLastErrorMsg))),
        dropped (after w2 getLastErrorMsg) sel1)) /\
  (forall w2 : World H, lastSelect (trace (dropped w2 sel1)) = Some 1).
Proof.
  intros h sel0 sel1 w1 Hsel.
  assert (Hsel0 : dwfDigitalSpiSelect h (cInt cs) 0 w = (Done None, w1))
    by (apply setter_ok; exact Hsel).
  split; [|split; [|split]].
  - intros data Hdata xfer w2 Hx.
    unfold Spi.Write. fold h. rewrite (guard_passed _ _ _ _ _ Hsel0).
    destruct data as [|b data]; [congruence|].
    erewrite bind_done by (apply setter_failed; exact Hx).
    unfold dwfDigitalSpiSelect. rewrite run_dropped_setter. reflexivity.
  - intros count Hc xfer w2 Hx.
    unfold Spi.Read. fold h. rewrite (guard_passed _ _ _ _ _ Hsel0).
    destruct (make_positive (H:=H) count Hc) as (z & rest & -> & Hlen).
    rewrite bind_ret.
    erewrite bind_done; cycle 1.
    { unfold dwfDigitalSpiRead. rewrite run_getter, Hlen. fold xfer.
      rewrite Hx. reflexivity. }
    unfold dwfDigitalSpiSelect. rewrite run_dropped_setter. reflexivity.
  - intros txData rxCount Htx Hrx xfer w2 Hx.
    unfold Spi.Exchange. fold h. rewrite (guard_passed _ _ _ _ _ Hsel0).
    destruct (make_positive (H:=H) rxCount Hrx) as (z & rest & -> & Hlen).
    destruct txData as [|b txData]; [congruence|].
    rewrite bind_ret.
    erewrite bind_done; cycle 1.
    { unfold dwfDigitalSpiWriteRead. rewrite run_getter, Hlen. fold xfer.
      rewrite Hx. reflexivity. }
    unfold dwfDigitalSpiSelect. rewrite run_dropped_setter. reflexivity.
  - intros w2. apply lastSelect_dropped.
Qed.

Lemma spi_transfer_failure_deselects_witness :
  fst (@Spi.Write nat spiFailingTransfer {| Spi.dev := session 1 |} [0xA5] 10 world0)
    = Done (Some "unknown DWF SDK error"%string) /\
  lastSelect
    (trace (snd (@Spi.Write nat spiFailingTransfer {| Spi.dev := session 1 |}
                   [0xA5] 10 world0))) = Some 1.
Proof.
  pose proof (@spi_transfer_failure_deselects nat spiFailingTransfer
                {| Spi.dev := session 1 |} 10 world0 ltac:(discriminate))
    as (HW & _ & _ & HL).
  rewrite (HW [0xA5] ltac:(discriminate) eq_refl).
  split; [reflexivity | apply HL].
Defined.

(** ** Machine-number facts *)

Lemma wrapS_small (bits z : Z) :
  0 < bits -> - 2 ^ (bits - 1) <= z < 2 ^ (bits - 1) -> wrapS bits z = z.
Proof.
  intros Hb Hz. unfold wrapS.
  assert (E : 2 ^ bits = 2 * 2 ^ (bits - 1)).
  { replace bits with (Z.succ (bits - 1)) at 1 by lia.
    rewrite Z.pow_succ_r by lia. reflexivity. }
  rewrite Z.mod_small by lia. lia.
Qed.

Lemma wrapU_small (bits z : Z) : 0 <= z < 2 ^ bits -> wrapU bits z = z.
Proof. intros Hz. unfold wrapU. apply Z.mod_small. exact Hz. Qed.

Lemma int_small (z : Z) : - 2 ^ 63 <= z < 2 ^ 63 -> int z = z.
Proof. intros Hz. apply wrapS_small; [lia | exact Hz]. Qed.

Lemma C_int_small (z : Z) : - 2 ^ 31 <= z < 2 ^ 31 -> C_int z = z.
Proof. intros Hz. apply wrapS_small; [lia | exact Hz]. Qed.

Lemma C_uint_small (z : Z) : 0 <= z < 2 ^ 32 -> C_uint z = z.
Proof. apply wrapU_small. Qed.

Lemma wrapS_range (bits z : Z) :
  0 < bits -> - 2 ^ (bits - 1) <= wrapS bits z < 2 ^ (bits - 1).
Proof.
  intros Hb. unfold wrapS.
  assert (E : 2 ^ bits = 2 * 2 ^ (bits - 1)).
  { replace bits with (Z.succ (bits - 1)) at 1 by lia.
    rewrite Z.pow_succ_r by lia. reflexivity. }
  assert (0 < 2 ^ (bits - 1)) by (apply Z.pow_pos_nonneg; lia).
  pose proof (Z.mod_pos_bound (z + 2 ^ (bits - 1)) (2 ^ bits)). lia.
Qed.

Lemma C_int_range (z : Z) : - 2 ^ 31 <= C_int z < 2 ^ 31.
Proof. apply (wrapS_range 32). lia. Qed.

(** ** I2C *)

Section I2cFacts.
Context {H : Type} `{Sdk H}.

Lemma trace_afterAll (cs : list CCall) (w : World H) :
  trace (afterAll w cs) = trace w ++ combine cs (repliesTo w cs).
Proof.
  revert w. induction cs as [|c cs IH]; intros w; cbn.
  - rewrite app_nil_r. reflexivity.
  - rewrite IH, trace_after, <- app_assoc. reflexivity.
Qed.

Lemma repliesTo_length (cs : list CCall) (w : World H) :
  length (repliesTo w cs) = length cs.
Proof. revert w. induction cs; intros w; cbn; [|rewrite IHcs]; reflexivity. Qed.

Lemma probe_address (addr : Z) :
  0 <= addr < 128 -> C_uchar (cInt (int (Z.shiftl addr 1))) = Z.shiftl addr 1.
Proof.
  intros Ha. rewrite Z.shiftl_mul_pow2 by lia. change (2 ^ 1) with 2.
  rewrite int_small by lia. unfold cInt. rewrite C_int_small by lia.
  apply wrapU_small. lia.
Qed.

Lemma run_probe (h addr : Z) (w : World H) :
  0 <= addr < 128 ->
  rc (reply w (probe h addr)) <> 0 ->
  dwfDigitalI2cWrite h (cInt (int (Z.shiftl addr 1))) [] w =
  (Done (nakOf (reply w (probe h addr)), None), after w (probe h addr)).
Proof.
  intros Ha Hr. unfold dwfDigitalI2cWrite. rewrite run_getter.
  rewrite probe_address by exact Ha. cbn [length Z.of_nat].
  change (C_int 0) with 0. fold (probe h addr).
  apply Z.eqb_neq in Hr. rewrite Hr. reflexivity.
Qed.

Lemma scanFrom_spec (n : nat) (h addr : Z) (found : list Z) (w : World H) :
  0 <= addr -> addr + Z.of_nat n <= 128 ->
  let probes := map (probe h) (upFrom addr n) in
  allSucceed w probes ->
  I2c.scanFrom n h addr found w =
  (Done (found ++ ackedOf (upFrom addr n) (repliesTo w probes), None),
   afterAll w probes).
Proof.
  revert addr found w. induction n as [|n IH]; intros addr found w Ha Hn.
  - cbn. rewrite app_nil_r. reflexivity.
  - cbn zeta. cbn [upFrom map allSucceed]. intros [Hr Hall].
    cbn [I2c.scanFrom].
    erewrite bind_done by (apply run_probe; [lia | exact Hr]).
    cbv beta iota. rewrite IH by (try exact Hall; lia).
    cbn [repliesTo ackedOf afterAll]. fold (nakOf (reply w (probe h addr))).
    destruct (nakOf _ =? 0).
    + rewrite <- app_assoc. reflexivity.
    + reflexivity.
Qed.

Lemma ackedOf_incl (addrs : list Z) (replies : list CReply) (x : Z) :
  In x (ackedOf addrs replies) -> In x addrs.
Proof.
  revert replies. induction addrs as [|a addrs IH]; intros [|r replies]; cbn;
    try tauto.
  destruct (nakOf r =? 0); cbn; intros Hin; [destruct Hin|]; eauto.
Qed.

Lemma ackedOf_sorted (addrs : list Z) (replies : list CReply) :
  StronglySorted Z.lt addrs -> StronglySorted Z.lt (ackedOf addrs replies).
Proof.
  intros Hs. revert replies.
  induction Hs as [|a addrs Hs IH Hall]; intros [|r replies]; cbn;
    try constructor.
  destruct (nakOf r =? 0); [|apply IH].
  constructor; [apply IH|].
  rewrite Forall_forall in *. intros x Hx. apply Hall.
  eapply ackedOf_incl. exact Hx.
Qed.

Lemma upFrom_sorted (n : nat) (addr : Z) : StronglySorted Z.lt (upFrom addr n).
Proof.
  revert addr. induction n as [|n IH]; intros addr; cbn; constructor.
  - apply IH.
  - assert (G : forall m b, addr < b -> Forall (Z.lt addr) (upFrom b m)).
    { clear. induction m as [|m IHm]; intros b Hb; cbn; constructor;
        [exact Hb | apply IHm; lia]. }
    apply G. lia.
Qed.

End I2cFacts.

(** C6: when no probe fails at the driver level, [Scan] issues exactly one
    zero-length write per 7-bit address from [0x08] to [0x77], in ascending
    order and with the address shifted left by one bit, and returns, in
    ascending order, exactly the addresses whose probe came back with
    NAK = 0.  On a bus where only [0x20], [0x50] and [0x68] acknowledge it
    returns [[0x20; 0x50; 0x68]]. *)
Theorem Scan_probes_and_collects {H : Type} `{Sdk H}
  (ic : I2c.i2cImpl) (w : World H) :
  let probes := map (probe (handle (I2c.dev ic))) scanAddresses in
  let acked := ackedOf scanAddresses (repliesTo w probes) in
  (allSucceed w probes ->
   I2c.Scan ic w = (Done (acked, None), afterAll w probes) /\
   trace (afterAll w probes) = trace w ++ combine probes (repliesTo w probes) /\
   StronglySorted Z.lt acked) /\
  scanAddresses = map Z.of_nat (seq 0x08 112) /\
  last scanAddresses 0 = 0x77 /\
  fst (@I2c.Scan nat (busWith [0x20; 0x50; 0x68]) {| I2c.dev := session 1 |} world0)
  = Done ([0x20; 0x50; 0x68], None).
Proof.
  intros probes acked. split; [|split; [|split]].
  - intros Hall. split; [|split].
    + unfold I2c.Scan. change (Z.to_nat (0x77 - 0x08 + 1)) with 112%nat.
      rewrite (scanFrom_spec 112 (handle (I2c.dev ic)) 0x08 [] w); try lia.
      * reflexivity.
      * exact Hall.
    + apply trace_afterAll.
    + apply ackedOf_sorted, upFrom_sorted.
  - reflexivity.
  - reflexivity.
  - vm_compute. reflexivity.
Qed.

Lemma Scan_probes_and_collects_witness :
  @I2c.Scan nat (busWith [0x20; 0x50; 0x68]) {| I2c.dev := session 1 |} world0 =
  (Done (ackedOf scanAddresses
           (@repliesTo nat (busWith [0x20; 0x50; 0x68]) world0
              (map (probe 1) scanAddresses)), None),
   @afterAll nat (busWith [0x20; 0x50; 0x68]) world0 (map (probe 1) scanAddresses)).
Proof.
  apply (proj1 (@Scan_probes_and_collects nat (busWith [0x20; 0x50; 0x68])
                  {| I2c.dev := session 1 |} world0)).
  vm_compute. repeat split; discriminate.
Defined.

(** ** UART *)

Section UartFacts.
Context {H : Type} `{Sdk H}.

Lemma make_nonneg (n : Z) : 0 <= n -> @make H n = ret (repeat 0 (Z.to_nat n)).
Proof. intros Hn. unfold make. destruct (Z.ltb_spec n 0); [lia | reflexivity]. Qed.

Lemma maxBuf_positive (u : Uart.uartImpl) : 0 < Uart.maxBuf u.
Proof.
  unfold Uart.maxBuf. destruct (info (Uart.dev u)) as [i|]; [|lia].
  destruct (Z.ltb_spec 0 (MaxAnalogInBufferSize i)); lia.
Qed.

Lemma run_dwfDigitalUartRx (h bufSize : Z) (w : World H) :
  let rx := Call FDwfDigitalUartRx [AInt h; AInt (C_int bufSize)] in
  0 < bufSize ->
  rc (reply w rx) <> 0 ->
  0 <= C_int (outInt (reply w rx) 0) <= bufSize ->
  dwfDigitalUartRx h bufSize w =
  (Done (received bufSize (reply w rx), C_int (outInt (reply w rx) 1), None),
   after w rx).
Proof.
  intros rx Hb Hr Hc. unfold dwfDigitalUartRx.
  rewrite make_nonneg by lia. rewrite bind_ret.
  destruct (Z.to_nat bufSize) as [|k] eqn:Hk; [lia|].
  cbn [repeat]. unfold bind at 1, ccall. fold rx.
  apply Z.eqb_neq in Hr. rewrite Hr.
  rewrite make_nonneg by lia. rewrite bind_ret.
  change (0 :: repeat 0 k) with (repeat 0 (S k)).
  rewrite repeat_length.
  destruct (Z.ltb_spec (Z.of_nat (S k)) (C_int (outInt (reply w rx) 0))); [lia|].
  unfold received. rewrite Hk. reflexivity.
Qed.

End UartFacts.

(** C3: when the receive call succeeds (storing no more bytes than the
    buffer holds), [Read] returns the received bytes in all three cases:
    with the error "UART buffer overflow" for a negative parity indicator,
    with "UART parity error at index k" for a positive indicator [k], and
    with no error for zero. *)
Theorem Read_parity_indicator {H : Type} `{Sdk H}
  (u : Uart.uartImpl) (w : World H) :
  let rx := Call FDwfDigitalUartRx
              [AInt (handle (Uart.dev u)); AInt (C_int (Uart.maxBuf u))] in
  let r := reply w rx in
  let data := received (Uart.maxBuf u) r in
  let parity := C_int (outInt r 1) in
  rc r <> 0 ->
  0 <= C_int (outInt r 0) <= Uart.maxBuf u ->
  (parity < 0 ->
   Uart.Read u w = (Done (data, Some "UART buffer overflow"%string), after w rx)) /\
  (0 < parity ->
   Uart.Read u w =
   (Done (data, Some ("UART parity error at index " ++ fmt_d parity)%string),
    after w rx)) /\
  (parity = 0 -> Uart.Read u w = (Done (data, None), after w rx)) /\
  Z.of_nat (length data) = C_int (outInt r 0).
Proof.
  intros rx r data parity Hr Hc.
  assert (E : Uart.Read u w =
              (if parity <? 0
               then ret (data, Some "UART buffer overflow"%string)
               else if 0 <? parity
               then ret (data,
                         Some ("UART parity error at index " ++ fmt_d parity)%string)
               else ret (data, None)) (after w rx)).
  { unfold Uart.Read.
    erewrite bind_done
      by (apply run_dwfDigitalUartRx; [apply maxBuf_positive | exact Hr | exact Hc]).
    reflexivity. }
  rewrite E. repeat split.
  - intros Hp. destruct (Z.ltb_spec parity 0); [reflexivity | lia].
  - intros Hp. destruct (Z.ltb_spec parity 0); [lia|].
    destruct (Z.ltb_spec 0 parity); [reflexivity | lia].
  - intros Hp. destruct (Z.ltb_spec parity 0); [lia|].
    destruct (Z.ltb_spec 0 parity); [lia | reflexivity].
  - unfold data, received. rewrite length_firstn, length_map.
    unfold store_into. rewrite length_firstn, length_app, length_skipn.
    rewrite repeat_length. fold r. lia.
Qed.

Lemma Read_parity_indicator_witness :
  @Uart.Read nat (uartWith [0x41; 0x42; 0x43] (-1)) {| Uart.dev := session 1 |} world0
  = (Done ([0x41; 0x42; 0x43], Some "UART buffer overflow"%string),
     @after nat (uartWith [0x41; 0x42; 0x43] (-1)) world0
       (Call FDwfDigitalUartRx [AInt 1; AInt 8192])) /\
  fst (@Uart.Read nat (uartWith [0x41; 0x42; 0x43] 2) {| Uart.dev := session 1 |}
         world0)
  = Done ([0x41; 0x42; 0x43], Some "UART parity error at index 2"%string).
Proof.
  split.
  - apply (proj1 (@Read_parity_indicator nat (uartWith [0x41; 0x42; 0x43] (-1))
                    {| Uart.dev := session 1 |} world0
                    ltac:(discriminate)
                    ltac:(vm_compute; split; discriminate))).
    reflexivity.
  - rewrite (proj1 (proj2 (@Read_parity_indicator nat
                    (uartWith [0x41; 0x42; 0x43] 2)
                    {| Uart.dev := session 1 |} world0
                    ltac:(discriminate)
                    ltac:(vm_compute; split; discriminate))) eq_refl).
    reflexivity.
Defined.

(** ** Power supply *)

Section SupplyFacts.
Context {H : Type} `{Sdk H}.
Variable P : CFun -> Prop.

Lemma quiet_ret {A} (a : A) : quiet P (ret a).
Proof.
  intros w. exists a, w, []. rewrite app_nil_r. repeat split. constructor.
Qed.

Lemma quiet_bind {A B} (m : M H A) (k : A -> M H B) :
  quiet P m -> (forall a, quiet P (k a)) -> quiet P (bind m k).
Proof.
  intros Hm Hk w.
  destruct (Hm w) as (a & w1 & c1 & E1 & T1 & F1).
  destruct (Hk a w1) as (b & w2 & c2 & E2 & T2 & F2).
  exists b, w2, (c1 ++ c2). split; [|split].
  - unfold bind. rewrite E1. exact E2.
  - rewrite T2, T1, app_assoc. reflexivity.
  - apply Forall_app. split; assumption.
Qed.

Lemma quiet_ccall (f : CFun) (args : list CArg) : P f -> quiet P (ccall f args).
Proof.
  intros Hf w. exists (reply w (Call f args)), (after w (Call f args)),
    [(Call f args, reply w (Call f args))].
  repeat split. constructor; [exact Hf | constructor].
Qed.

Hypothesis P_lastError : P FDwfGetLastErrorMsg.

Lemma quiet_lastError : quiet P lastError.
Proof.
  unfold lastError. apply quiet_bind; [apply quiet_ccall; exact P_lastError|].
  intros r. apply quiet_ret.
Qed.

Lemma quiet_nil_unless_failed (r : CReply) : quiet P (nil_unless_failed r).
Proof.
  unfold nil_unless_failed. destruct (rc r =? 0); [|apply quiet_ret].
  apply quiet_bind; [apply quiet_lastError | intros; apply quiet_ret].
Qed.

End SupplyFacts.

Ltac quiet_step :=
  match goal with
  | |- quiet _ (ret _) => apply quiet_ret
  | |- quiet _ (ccall _ _) => apply quiet_ccall; discriminate
  | |- quiet _ lastError => apply quiet_lastError; discriminate
  | |- quiet _ (nil_unless_failed _) => apply quiet_nil_unless_failed; discriminate
  | |- quiet _ (bind _ _) => apply quiet_bind; [|intros]
  | |- quiet _ (if ?b then _ else _) => destruct b
  | |- quiet _ (match ?x with _ => _ end) => destruct x
  end.

Section SwitchFacts.
Context {H : Type} `{Sdk H}.

Lemma quiet_findNode (left : nat) (h ch n : Z) (nodeName : string) :
  quiet notMasterEnable (Supply.findNode left h ch n nodeName).
Proof.
  revert n. induction left as [|left IH]; intros n; cbn [Supply.findNode].
  - apply quiet_ret.
  - unfold dwfAnalogIOChannelNodeName. repeat quiet_step; apply IH.
Qed.

Lemma quiet_findChannel (left : nat) (h ch : Z) (label nodeName : string) :
  quiet notMasterEnable (Supply.findChannel left h ch label nodeName).
Proof.
  revert ch. induction left as [|left IH]; intros ch; cbn [Supply.findChannel].
  - apply quiet_ret.
  - unfold dwfAnalogIOChannelName, dwfAnalogIOChannelInfo.
    repeat first [apply IH | apply quiet_findNode | quiet_step].
Qed.

Lemma quiet_findChannelNode (s : Supply.supplyImpl) (label nodeName : string) :
  quiet notMasterEnable (Supply.findChannelNode s label nodeName).
Proof.
  unfold Supply.findChannelNode, dwfAnalogIOChannelCount.
  repeat first [apply quiet_findChannel | quiet_step].
Qed.

Lemma quiet_setNode (s : Supply.supplyImpl) (labels : list string)
  (nodeName : string) (value : float) :
  quiet notMasterEnable (Supply.setNode s labels nodeName value).
Proof.
  induction labels as [|label labels IH]; cbn [Supply.setNode].
  - apply quiet_ret.
  - unfold dwfAnalogIOChannelNodeSet.
    repeat first [apply IH | apply quiet_findChannelNode | quiet_step].
Qed.

(** The rail writes of [Switch] end in some world [w1]; what they did there
    has no other influence on the outcome. *)
Lemma Switch_rails_then_master (s : Supply.supplyImpl)
  (cfg : Supply.SuppliesConfig) (w : World H) :
  exists (w1 : World H) (calls : list (CCall * CReply)),
    trace w1 = trace w ++ calls /\
    Forall (fun e => notMasterEnable (cfun (fst e))) calls /\
    Supply.Switch s cfg w =
    dwfAnalogIOEnableSet (handle (Supply.dev s)) (Supply.MasterState cfg) w1.
Proof.
  unfold Supply.Switch.
  repeat match goal with
  | |- context [bind (Supply.setNode s ?l ?n ?v) ?k ?w0] =>
      let a := fresh "a" in let w' := fresh "w" in let c := fresh "c" in
      let E := fresh "E" in let T := fresh "T" in let F := fresh "F" in
      destruct (quiet_setNode s l n v w0) as (a & w' & c & E & T & F);
      rewrite (bind_done _ k w0 w' a E)
  end.
  eexists _, _. split; [|split; [|reflexivity]].
  - repeat match goal with T : trace _ = _ |- _ => rewrite T; clear T end.
    rewrite <- !app_assoc. reflexivity.
  - repeat (apply Forall_app; split); assumption.
Qed.

End SwitchFacts.

(** C9: whatever the per-rail node writes did, [Switch] ends with the
    master-enable call and returns [nil] exactly when that call succeeds
    and an error exactly when it fails; no rail write can panic, stop the
    sequence or reach the result. *)
Theorem Switch_error_iff_master_fails {H : Type} `{Sdk H}
  (s : Supply.supplyImpl) (cfg : Supply.SuppliesConfig) (w : World H) :
  let master := Call FDwfAnalogIOEnableSet
                  [AInt (handle (Supply.dev s));
                   AInt (b2i (Supply.MasterState cfg))] in
  exists (w1 : World H) (calls : list (CCall * CReply)),
    trace w1 = trace w ++ calls /\
    Forall (fun e => cfun (fst e) <> FDwfAnalogIOEnableSet) calls /\
    (rc (reply w1 master) <> 0 ->
     Supply.Switch s cfg w = (Done None, after w1 master)) /\
    (rc (reply w1 master) = 0 ->
     Supply.Switch s cfg w =
     (Done (Some (errorText (reply (after w1 master) getLastErrorMsg))),
      after (after w1 master) getLastErrorMsg)).
Proof.
  intros master.
  destruct (Switch_rails_then_master s cfg w) as (w1 & calls & T & F & E).
  exists w1, calls. split; [exact T | split; [exact F | split]]; intros Hr;
    rewrite E; unfold dwfAnalogIOEnableSet.
  - apply setter_ok. exact Hr.
  - apply setter_failed. exact Hr.
Qed.

Lemma Switch_error_iff_master_fails_witness :
  fst (@Supply.Switch nat supplyRejectingWrites {| Supply.dev := session 1 |}
         suppliesOn world0) = Done None /\
  existsb (fun e => match cfun (fst e) with
                    | FDwfAnalogIOChannelNodeSet => rc (snd e) =? 0
                    | _ => false
                    end)
    (trace (snd (@Supply.Switch nat supplyRejectingWrites
                   {| Supply.dev := session 1 |} suppliesOn world0))) = true.
Proof.
  split.
  - destruct (@Switch_error_iff_master_fails nat supplyRejectingWrites
                {| Supply.dev := session 1 |} suppliesOn world0)
      as (w1 & calls & _ & _ & Hok & _).
    rewrite Hok; [reflexivity | discriminate].
  - vm_compute. reflexivity.
Defined.

(** ** Traces of compound computations *)

Section EmitFacts.
Context {H : Type} `{Sdk H}.
Variable P : CCall -> Prop.

Lemma emits_ret {A} (a : A) : emits P (ret a).
Proof. intros w. exists []. rewrite app_nil_r. split; [reflexivity | constructor]. Qed.

Lemma emits_panic {A} (reason : string) : emits P (@panic H A reason).
Proof. intros w. exists []. rewrite app_nil_r. split; [reflexivity | constructor]. Qed.

Lemma emits_polling {A} : emits P (fun w : World H => (@Polling A, w)).
Proof. intros w. exists []. rewrite app_nil_r. split; [reflexivity | constructor]. Qed.

Lemma emits_bind {A B} (m : M H A) (k : A -> M H B) :
  emits P m -> (forall a, emits P (k a)) -> emits P (bind m k).
Proof.
  intros Hm Hk w. destruct (Hm w) as (c1 & T1 & F1). unfold bind.
  destruct (m w) as [[a|reason|] w1]; cbn [snd] in *.
  - destruct (Hk a w1) as (c2 & T2 & F2). exists (c1 ++ c2).
    rewrite T2, T1, app_assoc. split; [reflexivity|].
    apply Forall_app. split; assumption.
  - exists c1. split; assumption.
  - exists c1. split; assumption.
Qed.

Lemma emits_ccall (f : CFun) (args : list CArg) :
  P (Call f args) -> emits P (ccall f args).
Proof.
  intros Hf w. exists [(Call f args, reply w (Call f args))].
  split; [reflexivity|]. constructor; [exact Hf | constructor].
Qed.

Hypothesis P_lastError : P getLastErrorMsg.

Lemma emits_lastError : emits P lastError.
Proof.
  unfold lastError. apply emits_bind; [apply emits_ccall; exact P_lastError|].
  intros r. apply emits_ret.
Qed.

Lemma emits_nil_unless_failed (r : CReply) : emits P (nil_unless_failed r).
Proof.
  unfold nil_unless_failed. destruct (rc r =? 0); [|apply emits_ret].
  apply emits_bind; [apply emits_lastError | intros; apply emits_ret].
Qed.

Lemma emits_setter (f : CFun) (args : list CArg) :
  P (Call f args) -> emits P (r <- ccall f args ;; nil_unless_failed r).
Proof.
  intros Hf. apply emits_bind; [apply emits_ccall; exact Hf|].
  intros r. apply emits_nil_unless_failed.
Qed.

Lemma emits_guard {A} (m : M H error) (f : error -> A) (k : M H A) :
  emits P m -> emits P k -> emits P (guard m f k).
Proof.
  intros Hm Hk. unfold guard. apply emits_bind; [exact Hm|].
  intros [msg|]; [apply emits_ret | exact Hk].
Qed.


End EmitFacts.

Ltac emits_step :=
  match goal with
  | |- emits _ (ret _) => apply emits_ret
  | |- emits _ (panic _) => apply emits_panic
  | |- emits _ (fun w => (Polling, w)) => apply emits_polling
  | |- emits _ lastError => apply emits_lastError
  | |- emits _ (nil_unless_failed _) => apply emits_nil_unless_failed
  | |- emits _ (ccall _ _) => apply emits_ccall
  | |- emits _ (guard _ _ _) => apply emits_guard
  | |- emits _ (bind _ _) => apply emits_bind; [|intros]
  | |- emits _ (if ?b then _ else _) => destruct b
  | |- emits _ (match ?x with _ => _ end) => destruct x
  end.

(** ** Logic analyzer: trigger *)


Section TriggerFacts.
Context {H : Type} `{Sdk H}.


End TriggerFacts.



(** ** Logic analyzer: opening and recording *)

Lemma negative_floor (m : positive) (e : Z) :
  (if 0 <=? e then Z.neg m * 2 ^ e else Z.neg m / 2 ^ (- e)) < 0.
Proof.
  pose proof (Pos2Z.neg_is_neg m) as Hm.
  destruct (Z.leb_spec 0 e).
  - assert (0 < 2 ^ e) by (apply Z.pow_pos_nonneg; lia). nia.
  - assert (0 < 2 ^ (- e)) by (apply Z.pow_pos_nonneg; lia).
    apply Z.div_lt_upper_bound; lia.
Qed.

Lemma float_floor_trunc (x : float) (n : Z) :
  float_floor x = Some n -> 0 <= n -> float_trunc x = Some n.
Proof.
  unfold float_floor, float_trunc. destruct (Prim2SF x) as [s|s| |s m e];
    try discriminate; [trivial|].
  destruct s; [|trivial].
  pose proof (negative_floor m e) as Hneg. intros E Hn. exfalso.
  assert (En : (if 0 <=? e then Z.neg m * 2 ^ e else Z.neg m / 2 ^ (- e)) = n)
    by congruence.
  lia.
Qed.

Lemma store_into_length (buf data : list Z) :
  length (store_into buf data) = length buf.
Proof.
  unfold store_into. rewrite length_firstn, length_app, length_skipn. lia.
Qed.

Lemma Forall_store_into (P : Z -> Prop) (buf data : list Z) :
  Forall P buf -> Forall P data -> Forall P (store_into buf data).
Proof.
  intros Hb Hd. unfold store_into.
  assert (Hall : Forall P (data ++ skipn (length data) buf)).
  { apply Forall_app. split; [exact Hd|].
    rewrite <- (firstn_skipn (length data) buf) in Hb.
    apply Forall_app in Hb. tauto. }
  rewrite <- (firstn_skipn (length buf) (data ++ skipn (length data) buf)) in Hall.
  apply Forall_app in Hall. tauto.
Qed.


Lemma reduceSample_bit (sample channel : Z) :
  0 <= channel ->
  Logic.reduceSample sample channel =
  if (channel <? 16) && Z.testbit sample channel then 1 else 0.
Proof.
  intros Hc. unfold Logic.reduceSample, shl16, shr16.
  destruct (Z.leb_spec 16 channel) as [Hge|Hlt].
  - destruct (Z.ltb_spec channel 16); [lia | reflexivity].
  - destruct (Z.ltb_spec channel 16); [|lia]. cbn [andb].
    rewrite Z.shiftl_1_l. unfold uint16. rewrite wrapU_small; cycle 1.
    { split; [apply Z.pow_nonneg; lia | apply Z.pow_lt_mono_r; lia]. }
    apply Z.bits_inj'. intros i Hi.
    rewrite Z.shiftr_spec, Z.land_spec, Z.pow2_bits_eqb by lia.
    destruct (Z.eqb_spec channel (i + channel)) as [E|E].
    + assert (i = 0) by lia. subst i. cbn [Z.add]. rewrite andb_true_r.
      destruct (Z.testbit sample channel); reflexivity.
    + rewrite andb_false_r.
      destruct (Z.testbit sample channel).
      * destruct (Z.eq_dec i 0); [lia|].
        symmetry. apply (Z.bits_above_log2 1 i); cbn; lia.
      * symmetry. apply Z.bits_0.
Qed.

Section RecordFacts.
Context {H : Type} `{Sdk H}.

Lemma int_of_float64_floor (x : float) (n : Z) :
  float_floor x = Some n -> 0 <= n < 2 ^ 63 -> int_of_float64 x = n.
Proof.
  intros E Hn. unfold int_of_float64.
  rewrite (float_floor_trunc x n E) by lia.
  destruct (Z.leb_spec (- 2 ^ 63) n); [|lia].
  destruct (Z.ltb_spec n (2 ^ 63)); [reflexivity | lia].
Qed.

Lemma run_dwfDigitalInBufferSizeInfo (h : Z) (w : World H) :
  exists e : error,
    dwfDigitalInBufferSizeInfo h w =
    (Done (reportedMax w h, e),
     dropped w (Call FDwfDigitalInBufferSizeInfo [AInt h])).
Proof.
  unfold dwfDigitalInBufferSizeInfo, reportedMax, dropped.
  rewrite run_getter. cbv zeta. destruct (rc _ =? 0); eexists; reflexivity.
Qed.

(** [Open] records the requested size, or the reported maximum when the
    request is zero or above it; the recorded size is a 32-bit value. *)
Lemma Open_bufferSize (l l' : Logic.logicImpl) (cfg : Logic.LogicConfig)
  (w w' : World H) (e : error) :
  Logic.Open l cfg w = (Done (e, l'), w') ->
  let size := Logic.BufferSize cfg in
  let maxBuf := reportedMax w (handle (Logic.dev l)) in
  Logic.bufferSize l' = (if (size =? 0) || (maxBuf <? size) then maxBuf else size) /\
  Logic.bufferSize l' < 2 ^ 31 /\
  (0 <= size -> 0 <= maxBuf -> 0 <= Logic.bufferSize l').
Proof.
  intros E size maxBuf.
  assert (Hmax : - 2 ^ 31 <= maxBuf < 2 ^ 31).
  { unfold maxBuf, reportedMax. cbv zeta. destruct (rc _ =? 0); [lia|].
    apply C_int_range. }
  assert (Hl : Logic.bufferSize l' =
               (if (size =? 0) || (maxBuf <? size) then maxBuf else size)).
  { unfold Logic.Open in E.
    destruct (run_dwfDigitalInBufferSizeInfo (handle (Logic.dev l)) w) as (e0 & E0).
    rewrite (bind_done _ _ _ _ _ E0) in E. cbv beta iota zeta in E.
    fold size maxBuf in E.
    unfold bind at 1 in E.
    destruct (dwfDigitalInInternalClockInfo _ _) as [[[c [msg|]]| |] w1];
      try discriminate E.
    - inversion E. reflexivity.
    - unfold guard, bind at 1 in E.
      destruct (dwfDigitalInDividerSet _ _ _) as [[[msg|]| |] w2];
        try discriminate E; [inversion E; reflexivity|].
      unfold bind at 1 in E.
      destruct (dwfDigitalInSampleFormatSet _ _ _) as [[[msg|]| |] w3];
        try discriminate E; [inversion E; reflexivity|].
      unfold bind at 1 in E.
      destruct (dwfDigitalInBufferSizeSet _ _ _) as [[err| |] w4];
        try discriminate E. inversion E. reflexivity. }
  split; [exact Hl|]. rewrite Hl.
  destruct (Z.eqb_spec size 0); cbn [orb];
    [|destruct (Z.ltb_spec maxBuf size)]; lia.
Qed.

(** A successful [Record]: the size is positive, the line index is not
    negative, the data call was the last library call and succeeded, and
    the result is the sample buffer reduced word by word. *)
Lemma Record_success (budget : nat) (l : Logic.logicImpl) (channel : Z)
  (w w' : World H) (buf : list Z) :
  Logic.Record budget l channel w = (Done (buf, None), w') ->
  let size := Logic.bufferSize l in
  let dataCall := Call FDwfDigitalInStatusData
                    [AInt (handle (Logic.dev l)); AInt (C_int (int (2 * size)))] in
  exists w3 : World H,
    0 < size /\ 0 <= channel /\
    rc (reply w3 dataCall) <> 0 /\
    w' = after w3 dataCall /\
    buf = map (fun sample => Logic.reduceSample sample channel)
            (rawSamples size (reply w3 dataCall)).
Proof.
  intros E size dataCall. unfold Logic.Record, guard in E.
  unfold bind at 1 in E.
  destruct (dwfDigitalInConfigure _ _ _ _) as [[[msg|]| |] w1];
    try discriminate E.
  unfold bind at 1 in E.
  destruct (Logic.pollDone _ _ _) as [[[msg|]| |] w2]; try discriminate E.
  fold size in E. unfold make in E.
  destruct (Z.ltb_spec size 0) as [Hneg|Hpos]; [discriminate E|].
  rewrite bind_ret in E.
  destruct (Z.to_nat size) as [|k] eqn:Hk; [discriminate E|].
  assert (Hsize : 0 < size) by lia.
  unfold dwfDigitalInStatusData in E.
  change (repeat 0 (S k)) with (0 :: repeat 0 k) in E. cbv iota in E.
  change (0 :: repeat 0 k) with (repeat 0 (S k)) in E.
  rewrite repeat_length in E.
  replace (Z.of_nat (S k)) with size in E by lia.
  fold dataCall in E. unfold bind at 1 in E. rewrite run_getter in E.
  fold dataCall in E. rewrite <- Hk in E. fold (rawSamples size (reply w2 dataCall)) in E.
  destruct (rc (reply w2 dataCall) =? 0) eqn:Hrc; [discriminate E|].
  cbv beta iota in E.
  destruct (rawSamples size (reply w2 dataCall)) as [|s0 raw] eqn:Hraw.
  { apply (f_equal (@length Z)) in Hraw. unfold rawSamples in Hraw.
    rewrite store_into_length, repeat_length in Hraw. cbn in Hraw. lia. }
  destruct (Z.ltb_spec channel 0); [discriminate E|].
  inversion E. subst. exists w2. apply Z.eqb_neq in Hrc.
  repeat split; trivial. rewrite Hraw. reflexivity.
Qed.

Lemma pollDone_more_budget (n k : nat) (h : Z) (w w' : World H) (e : error) :
  Logic.pollDone n h w = (Done e, w') ->
  Logic.pollDone (n + k) h w = (Done e, w').
Proof.
  revert w. induction n as [|n IH]; intros w; cbn [Logic.pollDone Nat.add].
  - discriminate.
  - unfold bind.
    destruct (dwfDigitalInStatus h true w) as [[[st [msg|]]| |] w1]; trivial.
    destruct (st =? byte cDwfStateDone); trivial. apply IH.
Qed.

(** A result of [Record] does not depend on the poll budget that was
    enough to reach it. *)
Lemma Record_more_budget (n k : nat) (l : Logic.logicImpl) (channel : Z)
  (w w' : World H) (result : list Z * error) :
  Logic.Record n l channel w = (Done result, w') ->
  Logic.Record (n + k) l channel w = (Done result, w').
Proof.
  unfold Logic.Record, guard. intros E.
  revert E. unfold bind at 1.
  destruct (dwfDigitalInConfigure (handle (Logic.dev l)) false true w)
    as [[[msg|]| |] w1] eqn:Ec; intros E;
    try (unfold bind at 1; rewrite Ec; exact E).
  unfold bind at 1 in E.
  destruct (Logic.pollDone n (handle (Logic.dev l)) w1) as [[e| |] w2] eqn:Ep;
    try discriminate E.
  unfold bind at 1. rewrite Ec. unfold bind at 1.
  rewrite (pollDone_more_budget n k _ w1 w2 e Ep). exact E.
Qed.

End RecordFacts.


(** C10: a successful [Record] on a line in [[0, 16)] returns exactly as
    many samples as the buffer size that the preceding [Open] recorded (the
    requested size, or the reported maximum when the request is zero or
    larger), each of them 0 or 1. *)
Theorem Record_length_and_bits {H : Type} `{Sdk H}
  (l0 l : Logic.logicImpl) (cfg : Logic.LogicConfig) (w0 w1 : World H)
  (e : error) (budget : nat) (channel : Z) (w w' : World H) (buf : list Z) :
  0 <= channel < 16 ->
  Logic.Open l0 cfg w0 = (Done (e, l), w1) ->
  Logic.Record budget l channel w = (Done (buf, None), w') ->
  let maxBuf := reportedMax w0 (handle (Logic.dev l0)) in
  Logic.bufferSize l =
    (if (Logic.BufferSize cfg =? 0) || (maxBuf <? Logic.BufferSize cfg)
     then maxBuf else Logic.BufferSize cfg) /\
  Z.of_nat (length buf) = Logic.bufferSize l /\
  Forall (fun sample => sample = 0 \/ sample = 1) buf.
Proof.
  intros Hc Hopen Hrec maxBuf.
  destruct (Open_bufferSize l0 l cfg w0 w1 e Hopen) as (Hsize & _ & _).
  destruct (Record_success budget l channel w w' buf Hrec)
    as (w3 & Hpos & _ & _ & _ & ->).
  split; [exact Hsize | split].
  - rewrite length_map. unfold rawSamples.
    rewrite store_into_length, repeat_length. lia.
  - apply Forall_forall. intros x Hx. apply in_map_iff in Hx.
    destruct Hx as (y & <- & _). rewrite reduceSample_bit by lia.
    destruct (_ && _); [right | left]; reflexivity.
Qed.

Lemma Record_length_and_bits_witness :
  fst (@Logic.Record nat (analyzerWith [10; 5; 15; 0]) 10 (analyzer 4) 1 world0)
    = Done ([1; 0; 1; 0], None) /\
  Z.of_nat (length [1; 0; 1; 0]) = 4 /\
  Forall (fun sample => sample = 0 \/ sample = 1) [1; 0; 1; 0].
Proof.
  split; [vm_compute; reflexivity|].
  refine (proj2 (@Record_length_and_bits nat (analyzerWith [10; 5; 15; 0])
            (analyzer 0) (analyzer 4)
            {| Logic.SamplingFrequency := 1000000%float; Logic.BufferSize := 4 |}
            world0
            (snd (@Logic.Open nat (analyzerWith [10; 5; 15; 0]) (analyzer 0)
                    {| Logic.SamplingFrequency := 1000000%float;
                       Logic.BufferSize := 4 |} world0))
            None 10 1 world0
            (snd (@Logic.Record nat (analyzerWith [10; 5; 15; 0]) 10 (analyzer 4) 1
                    world0))
            [1; 0; 1; 0] _ _ _)).
  - vm_compute. split; [discriminate | reflexivity].
  - vm_compute. reflexivity.
  - vm_compute. reflexivity.
Defined.


(** ** Pattern generator *)

Lemma int_add_sub (steps high : Z) :
  in_int steps -> int (high + int (steps - high)) = steps.
Proof.
  intros Hs. unfold int, wrapS.
  replace (high + ((steps - high + 2 ^ (64 - 1)) mod 2 ^ 64 - 2 ^ (64 - 1))
           + 2 ^ (64 - 1))
    with (high + (steps - high + 2 ^ (64 - 1)) mod 2 ^ 64) by lia.
  rewrite Zplus_mod_idemp_r.
  replace (high + (steps - high + 2 ^ (64 - 1))) with (steps + 2 ^ (64 - 1)) by lia.
  unfold in_int in Hs. rewrite Z.mod_small by lia. lia.
Qed.

Lemma int_in_int (z : Z) : in_int (int z).
Proof. apply (wrapS_range 64). lia. Qed.

Section PatternFacts.
Context {H : Type} `{Sdk H}.

Lemma int_of_float64_in_int (x : float) : in_int (int_of_float64 x).
Proof.
  unfold int_of_float64. destruct (float_trunc x) as [z|]; [|apply int_in_int].
  destruct (Z.leb_spec (- 2 ^ 63) z); [|apply int_in_int].
  destruct (Z.ltb_spec z (2 ^ 63)); [|apply int_in_int].
  split; assumption.
Qed.

Lemma int_of_float64_trunc (x : float) (t : Z) :
  float_trunc x = Some t -> in_int t -> int_of_float64 x = t.
Proof.
  intros E [Hlo Hhi]. unfold int_of_float64. rewrite E.
  destruct (Z.leb_spec (- 2 ^ 63) t); [|lia].
  destruct (Z.ltb_spec t (2 ^ 63)); [reflexivity | lia].
Qed.

Lemma run_pulseCounters (internalFreq frequency dutyCycle : float) (divider : Z)
  (w : World H) :
  let steps := int (Z.quot (int_of_float64 (internalFreq / frequency)) divider) in
  let high := int_of_float64 (float64 steps * dutyCycle / 100) in
  Pattern.pulseCounters internalFreq frequency dutyCycle divider w =
  if divider =? 0 then (Panic "integer divide by zero", w)
  else (Done (steps, int (steps - high), high), w).
Proof.
  unfold Pattern.pulseCounters, int_div. destruct (divider =? 0); reflexivity.
Qed.

Lemma emits_Generate (p : Pattern.patternImpl) (cfg : Pattern.PatternConfig) :
  let ch := if isDigitalDiscovery (Pattern.dev p)
            then cInt (int (Pattern.Channel cfg - 24))
            else cInt (Pattern.Channel cfg) in
  emits (programsPulse (handle (Pattern.dev p)) ch
           (Pattern.Frequency cfg) (Pattern.DutyCycle cfg))
    (Pattern.Generate p cfg).
Proof.
  intros ch. unfold Pattern.Generate. fold ch.
  unfold dwfDigitalOutInternalClockInfo.
  apply emits_bind; [apply emits_bind; [apply emits_ccall; discriminate|]|].
  { intros r. repeat emits_step; discriminate. }
  intros [internalFreq [msg|]]; [apply emits_ret|].
  unfold dwfDigitalOutEnableSet, dwfDigitalOutTypeSet, dwfDigitalOutDividerSet,
    dwfDigitalOutIdleSet, dwfDigitalOutRunSet, dwfDigitalOutWaitSet,
    dwfDigitalOutRepeatSet, dwfDigitalOutRepeatTriggerSet,
    dwfDigitalOutTriggerSourceSet, dwfDigitalOutTriggerSlopeSet,
    dwfDigitalOutDataSet, dwfDigitalOutConfigure.
  repeat (apply emits_guard; [repeat emits_step; discriminate|]).
  apply emits_guard; [|repeat emits_step; discriminate].
  destruct (Pattern.Function cfg =? Pattern.DigitalOutTypePulse);
    [|repeat emits_step; discriminate].
  intros w.
  pose proof (run_pulseCounters internalFreq (Pattern.Frequency cfg)
                (Pattern.DutyCycle cfg)
                (int_of_float64 (internalFreq / Pattern.Frequency cfg))) as Hrun.
  cbv zeta in Hrun. unfold bind at 1. rewrite Hrun.
  destruct (int_of_float64 (internalFreq / Pattern.Frequency cfg) =? 0) eqn:Hdiv.
  - exists []. rewrite app_nil_r. split; [reflexivity | constructor].
  - cbv beta iota. unfold dwfDigitalOutCounterSet.
    match goal with
    | |- context [ccall FDwfDigitalOutCounterSet ?args] =>
        refine (emits_setter
                  (programsPulse (handle (Pattern.dev p)) ch
                     (Pattern.Frequency cfg) (Pattern.DutyCycle cfg))
                  _ FDwfDigitalOutCounterSet args _ w)
    end.
    + intros E. discriminate E.
    + intros _. eexists internalFreq, _, _, _. split; [|reflexivity].
      intros w0. rewrite Hrun. reflexivity.
Qed.

End PatternFacts.

(** C1, as the code has it: the counter pair programmed by [Generate] for
    a pulse comes from [pulseCounters]; there [high + low == steps] holds in
    [int] arithmetic and [high] is [float64(steps) * dutyCycle / 100]
    converted to [int], that is, cut off toward zero (its floor when it is
    not negative) and not rounded to the nearest integer. *)
Theorem pulse_counters_truncate {H : Type} `{Sdk H} :
  (forall (p : Pattern.patternImpl) (cfg : Pattern.PatternConfig),
     let ch := if isDigitalDiscovery (Pattern.dev p)
               then cInt (int (Pattern.Channel cfg - 24))
               else cInt (Pattern.Channel cfg) in
     emits (programsPulse (handle (Pattern.dev p)) ch
              (Pattern.Frequency cfg) (Pattern.DutyCycle cfg))
       (Pattern.Generate p cfg)) /\
  (forall (internalFreq frequency dutyCycle : float) (divider steps low high : Z)
          (w w' : World H),
     Pattern.pulseCounters internalFreq frequency dutyCycle divider w =
       (Done (steps, low, high), w') ->
     steps = int (Z.quot (int_of_float64 (internalFreq / frequency)) divider) /\
     int (high + low) = steps /\
     low = int (steps - high) /\
     (forall t : Z,
        float_trunc (float64 steps * dutyCycle / 100) = Some t -> in_int t ->
        high = t) /\
     (forall t : Z,
        float_floor (float64 steps * dutyCycle / 100) = Some t ->
        0 <= t < 2 ^ 63 ->
        high = t)).
Proof.
  split; [intros p cfg; apply emits_Generate|].
  intros internalFreq frequency dutyCycle divider steps low high w w' E.
  rewrite run_pulseCounters in E. destruct (divider =? 0); [discriminate E|].
  inversion E; subst; clear E.
  split; [reflexivity | split; [|split; [reflexivity | split]]].
  - apply int_add_sub, int_in_int.
  - intros t Ht Hin. apply int_of_float64_trunc; assumption.
  - intros t Ht Hin. apply int_of_float64_floor; assumption.
Qed.

Lemma pulse_counters_truncate_witness :
  int (0 + 1) = 1 /\
  (forall t : Z,
     float_trunc (float64 1 * 75 / 100) = Some t -> in_int t -> 0 = t).
Proof.
  destruct (proj2 (@pulse_counters_truncate nat allOk)
              100000000%float 1000%float 75%float 100000 1 1 0 world0 world0
              ltac:(vm_compute; reflexivity))
    as (_ & Hsum & _ & Ht & _).
  split; [exact Hsum | exact Ht].
Defined.

(** C1 as stated fails: at a 100 MHz clock, 1 kHz and a duty cycle of 75
    the step count is 1 and [Generate] programs [high = 0], [low = 1],
    whereas [round (1 * 75 / 100)] is 1. *)
Lemma pulse_high_is_not_rounded :
  fst (@Pattern.pulseCounters nat (generatorWith 100000000) 100000000 1000 75
         100000 world0) = Done (1, 1, 0) /\
  In (Call FDwfDigitalOutCounterSet [AInt 1; AInt 0; AInt 1; AInt 0], okReply)
     (trace (snd (@Pattern.Generate nat (generatorWith 100000000)
                    {| Pattern.dev := session 1 |} (pulse 1000 75) world0))) /\
  float_round (float64 1 * 75 / 100) = Some 1 /\
  float_round (float64 1 * 75 / 100) <> Some 0.
Proof.
  split; [vm_compute; reflexivity|].
  split; [vm_compute; tauto|].
  split; [vm_compute; reflexivity | vm_compute; discriminate].
Qed.

(** With the divider [Generate] passes, the step count is 1 whenever it is
    computed at all. *)
Remark Generate_steps_one (q : Z) : q <> 0 -> int (Z.quot q q) = 1.
Proof. intros Hq. rewrite Z.quot_same by exact Hq. reflexivity. Qed.

(** ** Static I/O *)

Lemma In_upFrom (n : nat) (a x : Z) :
  a <= x < a + Z.of_nat n -> In x (upFrom a n).
Proof.
  revert a. induction n as [|n IH]; intros a Hx; [lia|].
  cbn [upFrom]. destruct (Z.eq_dec a x) as [->|Hne]; [left; reflexivity|].
  right. apply IH. lia.
Qed.

Lemma patterns_checked : patternsChecked = true.
Proof. vm_compute. reflexivity. Qed.

Lemma pattern_facts (N c : Z) :
  1 <= N <= 32 -> 0 <= c < N ->
  disablePattern N c = allButOne N c /\
  Z.land (disablePattern N c) (Z.ones N) = circularRotate N (2 ^ N - 2) c /\
  StaticIO.rotateLeft 1 (uint32 c) (uint32 N) = 2 ^ c /\
  circularRotate N 1 c = 2 ^ c.
Proof.
  intros HN Hc. pose proof patterns_checked as Hall.
  unfold patternsChecked in Hall. rewrite forallb_forall in Hall.
  specialize (Hall N (In_upFrom 32 1 N ltac:(lia))).
  rewrite forallb_forall in Hall.
  specialize (Hall c (In_upFrom (Z.to_nat N) 0 c ltac:(lia))).
  rewrite !andb_true_iff, !Z.eqb_eq in Hall. tauto.
Qed.

Lemma uint32_bits_high (x i : Z) : 32 <= i -> Z.testbit (uint32 x) i = false.
Proof. intros Hi. unfold uint32, wrapU. apply Z.mod_pow2_bits_high. lia. Qed.

Lemma uint32_idem (x : Z) : C_uint (uint32 x) = uint32 x.
Proof.
  unfold C_uint, uint32, wrapU. apply Z.mod_small.
  apply Z.mod_pos_bound. lia.
Qed.

Lemma C_uint_land (x y : Z) : C_uint (Z.land (uint32 x) y) = Z.land (uint32 x) y.
Proof.
  unfold C_uint, wrapU. rewrite <- Z.land_ones by lia.
  rewrite <- Z.land_assoc, (Z.land_comm y), Z.land_assoc.
  rewrite (Z.land_ones (uint32 x)) by lia.
  fold (wrapU 32 (uint32 x)). fold (C_uint (uint32 x)).
  rewrite uint32_idem. reflexivity.
Qed.

Lemma C_uint_setbit (x c : Z) :
  0 <= c < 32 -> C_uint (Z.lor (uint32 x) (2 ^ c)) = Z.lor (uint32 x) (2 ^ c).
Proof.
  intros Hc. unfold C_uint, wrapU. rewrite <- Z.land_ones by lia.
  rewrite Z.land_lor_distr_l, !Z.land_ones by lia.
  fold (wrapU 32 (uint32 x)). fold (C_uint (uint32 x)). rewrite uint32_idem.
  rewrite (Z.mod_small (2 ^ c)); [reflexivity|].
  split; [apply Z.pow_nonneg; lia | apply Z.pow_lt_mono_r; lia].
Qed.

Lemma allButOne_bits (N c i : Z) :
  1 <= N -> 0 <= c -> 0 <= i ->
  Z.testbit (allButOne N c) i = (i <? Z.min 32 (N + c)) && negb (c =? i).
Proof.
  intros HN Hc Hi. unfold allButOne.
  rewrite Z.ldiff_spec, Z.testbit_ones_nonneg, Z.pow2_bits_eqb by lia.
  reflexivity.
Qed.

Lemma small_bits_high (x N i : Z) :
  0 <= x < 2 ^ N -> N <= i -> Z.testbit x i = false.
Proof.
  intros Hx Hi. destruct (Z.lt_ge_cases N 0) as [Hn|Hn].
  - rewrite Z.pow_neg_r in Hx by lia. lia.
  - rewrite <- (Z.mod_small x (2 ^ N)) by exact Hx.
    apply Z.mod_pow2_bits_high. lia.
Qed.

Section StaticFacts.
Context {H : Type} `{Sdk H}.


End StaticFacts.




(** ** Guards over setters *)

Section GuardFacts.
Context {H : Type} `{Sdk H}.

(** A guarded setter either ends the method with the error of its call, or
    lets it continue in the world after the call. *)
Lemma guard_setter_cases {A} (f : CFun) (args : list CArg)
  (g : error -> A) (k : M H A) (w : World H) :
  (rc (reply w (Call f args)) = 0 /\
   guard (r <- ccall f args ;; nil_unless_failed r) g k w =
   (Done (g (Some (errorText (reply (after w (Call f args)) getLastErrorMsg)))),
    after (after w (Call f args)) getLastErrorMsg)) \/
  (rc (reply w (Call f args)) <> 0 /\
   guard (r <- ccall f args ;; nil_unless_failed r) g k w =
   k (after w (Call f args))).
Proof.
  destruct (Z.eq_dec (rc (reply w (Call f args))) 0) as [E|E].
  - left. split; [exact E|]. apply guard_failed, setter_failed, E.
  - right. split; [exact E|]. apply guard_passed, setter_ok, E.
Qed.

(** A setter whose error is dropped. *)
Lemma run_ignored_setter {A} (f : CFun) (args : list CArg) (k : M H A)
  (w : World H) :
  (_ <- (r <- ccall f args ;; nil_unless_failed r) ;; k) w =
  k (dropped w (Call f args)).
Proof.
  unfold bind at 1. rewrite run_setter. unfold dropped.
  destruct (rc _ =? 0); reflexivity.
Qed.

End GuardFacts.

(** ** UART: opening *)

(** X1: [Open] of the UART never reports success.  Either one of its six
    configuration calls fails and its error is returned, or all succeed
    and, after the transmit flush, the receive flush asks for a zero-length
    buffer whose first element does not exist: the method panics. *)
Theorem Uart_Open_never_returns_nil {H : Type} `{Sdk H}
  (u : Uart.uartImpl) (cfg : Uart.UARTConfig) (w : World H) :
  let flush := Call FDwfDigitalUartTx
                 [AInt (handle (Uart.dev u)); AData []; AInt 0] in
  (exists (msg : string) (w' : World H),
     Uart.Open u cfg w = (Done (Some msg), w')) \/
  (exists w6 : World H,
     Uart.Open u cfg w =
     (Panic "index out of range [0] with length 0", dropped w6 flush)).
Proof.
  intros flush. unfold Uart.Open.
  unfold dwfDigitalUartRateSet, dwfDigitalUartTxSet, dwfDigitalUartRxSet,
    dwfDigitalUartBitsSet, dwfDigitalUartParitySet, dwfDigitalUartStopSet.
  repeat match goal with
  | |- context [guard (bind (ccall ?f ?args) _) ?g ?k ?w0] =>
      destruct (guard_setter_cases f args g k w0) as [(_ & E)|(_ & E)];
      rewrite E; clear E; [left; eexists; eexists; reflexivity|]
  end.
  right. unfold dwfDigitalUartTx. rewrite run_ignored_setter.
  eexists. reflexivity.
Qed.

(** ** SPI: what a transfer leaves behind *)

Section SpiRuns.
Context {H : Type} `{Sdk H}.

Lemma setter_world (f : CFun) (args : list CArg) (w : World H) :
  exists e : error,
    (r <- ccall f args ;; nil_unless_failed r) w = (Done e, dropped w (Call f args)).
Proof.
  rewrite run_setter. unfold dropped.
  destruct (rc _ =? 0); eexists; reflexivity.
Qed.

Lemma guarded_setter_world {A} (f : CFun) (args : list CArg)
  (g : error -> A) (a : A) (w : World H) :
  exists a' : A,
    guard (r <- ccall f args ;; nil_unless_failed r) g (ret a) w =
    (Done a', dropped w (Call f args)).
Proof.
  unfold guard, bind at 1. rewrite run_setter. unfold dropped.
  destruct (rc _ =? 0); eexists; reflexivity.
Qed.

Lemma make_nonpositive (n : Z) (w : World H) :
  n <= 0 ->
  make n w = (Panic "makeslice: len out of range", w) \/ make n w = (Done [], w).
Proof.
  intros Hn. unfold make. destruct (Z.ltb_spec n 0); [left; reflexivity|].
  right. replace n with 0 by lia. reflexivity.
Qed.

End SpiRuns.

(** X2: an SPI transfer of nothing panics with the device still selected.
    Once chip-select has been asserted, [Write] with an empty slice, [Read]
    with a count that is not positive and [Exchange] with an empty slice or
    such a count panic before any transfer call: the chip-select call at
    level 0 is the last call made. *)
Theorem spi_empty_transfer_leaves_selected {H : Type} `{Sdk H}
  (sp : Spi.spiImpl) (cs : Z) (w : World H) :
  let h := handle (Spi.dev sp) in
  let sel0 := Call FDwfDigitalSpiSelect [AInt h; AInt (cInt cs); AInt 0] in
  let w1 := after w sel0 in
  rc (reply w sel0) <> 0 ->
  Spi.Write sp [] cs w = (Panic "index out of range [0] with length 0", w1) /\
  (forall count : Z,
     count <= 0 ->
     exists reason, Spi.Read sp count cs w = (Panic reason, w1)) /\
  (forall (txData : list Z) (rxCount : Z),
     txData = [] \/ rxCount <= 0 ->
     exists reason, Spi.Exchange sp txData rxCount cs w = (Panic reason, w1)) /\
  lastSelect (trace w1) = Some 0.
Proof.
  intros h sel0 w1 Hsel.
  assert (Hsel0 : dwfDigitalSpiSelect h (cInt cs) 0 w = (Done None, w1))
    by (apply setter_ok; exact Hsel).
  split; [|split; [|split]].
  - unfold Spi.Write. fold h. rewrite (guard_passed _ _ _ _ _ Hsel0). reflexivity.
  - intros count Hc. unfold Spi.Read. fold h.
    rewrite (guard_passed _ _ _ _ _ Hsel0). unfold bind at 1.
    destruct (make_nonpositive count w1 Hc) as [-> | ->];
      eexists; reflexivity.
  - intros txData rxCount Hempty. unfold Spi.Exchange. fold h.
    rewrite (guard_passed _ _ _ _ _ Hsel0). unfold bind at 1.
    destruct (Z.ltb_spec rxCount 0) as [Hneg|Hpos].
    + unfold make. destruct (Z.ltb_spec rxCount 0); [|lia].
      eexists; reflexivity.
    + unfold make. destruct (Z.ltb_spec rxCount 0); [lia|].
      cbv beta iota. unfold ret at 1. cbv beta iota.
      destruct txData as [|b txData].
      * eexists; reflexivity.
      * destruct Hempty as [Hempty|Hempty]; [discriminate|].
        replace rxCount with 0 by lia. eexists; reflexivity.
  - unfold w1. rewrite trace_after. apply lastSelect_app. reflexivity.
Qed.

Lemma spi_empty_transfer_leaves_selected_witness :
  fst (@Spi.Write nat allOk {| Spi.dev := session 1 |} [] 10 world0)
    = Panic "index out of range [0] with length 0" /\
  lastSelect
    (trace (snd (@Spi.Write nat allOk {| Spi.dev := session 1 |} [] 10 world0)))
    = Some 0.
Proof.
  pose proof (@spi_empty_transfer_leaves_selected nat allOk
                {| Spi.dev := session 1 |} 10 world0 ltac:(discriminate))
    as (HW & _ & _ & HL).
  rewrite HW. split; [reflexivity | exact HL].
Defined.

(** X3: whenever [Write], [Read] or [Exchange] returns after chip-select
    was asserted, with or without an error, the last chip-select call of
    the trace has level 1: a transfer that returns never leaves the device
    selected. *)
Theorem spi_return_deselects {H : Type} `{Sdk H}
  (sp : Spi.spiImpl) (cs : Z) (w : World H) :
  let h := handle (Spi.dev sp) in
  let sel0 := Call FDwfDigitalSpiSelect [AInt h; AInt (cInt cs); AInt 0] in
  rc (reply w sel0) <> 0 ->
  (forall (data : list Z) (e : error) (w' : World H),
     Spi.Write sp data cs w = (Done e, w') -> lastSelect (trace w') = Some 1) /\
  (forall (count : Z) (r : list Z * error) (w' : World H),
     Spi.Read sp count cs w = (Done r, w') -> lastSelect (trace w') = Some 1) /\
  (forall (txData : list Z) (rxCount : Z) (r : list Z * error) (w' : World H),
     Spi.Exchange sp txData rxCount cs w = (Done r, w') ->
     lastSelect (trace w') = Some 1).
Proof.
  intros h sel0 Hsel.
  assert (Hsel0 : dwfDigitalSpiSelect h (cInt cs) 0 w = (Done None, after w sel0))
    by (apply setter_ok; exact Hsel).
  split; [|split].
  - intros data e w'. unfold Spi.Write. fold h.
    rewrite (guard_passed _ _ _ _ _ Hsel0).
    destruct data as [|b data]; [discriminate|].
    unfold bind at 1. unfold dwfDigitalSpiWrite. rewrite run_setter.
    destruct (rc _ =? 0).
    + unfold dwfDigitalSpiSelect. rewrite run_dropped_setter.
      intros E. injection E as _ <-. apply lastSelect_dropped.
    + unfold dwfDigitalSpiSelect.
      match goal with
      | |- context [bind (ccall ?f ?args) _ ?w0] =>
          destruct (setter_world f args w0) as (e' & ->)
      end.
      intros E. injection E as _ <-. apply lastSelect_dropped.
  - intros count r w'. unfold Spi.Read. fold h.
    rewrite (guard_passed _ _ _ _ _ Hsel0).
    unfold bind at 1, make.
    destruct (count <? 0); [discriminate|].
    unfold ret at 1. cbv beta iota.
    destruct (repeat 0 (Z.to_nat count)) as [|z rest] eqn:Hbuf; [discriminate|].
    unfold bind at 1. unfold dwfDigitalSpiRead. rewrite run_getter.
    destruct (rc _ =? 0).
    + unfold dwfDigitalSpiSelect. rewrite run_dropped_setter.
      intros E. injection E as _ <-. apply lastSelect_dropped.
    + cbv beta iota. unfold dwfDigitalSpiSelect.
      match goal with
      | |- context [guard (bind (ccall ?f ?args) _) ?g (ret ?a) ?w0] =>
          destruct (guarded_setter_world f args g a w0) as (a' & E')
      end.
      intros E. pose proof (eq_trans (eq_sym E') E) as X.
      injection X as _ <-. apply lastSelect_dropped.
  - intros txData rxCount r w'. unfold Spi.Exchange. fold h.
    rewrite (guard_passed _ _ _ _ _ Hsel0).
    unfold bind at 1, make.
    destruct (rxCount <? 0); [discriminate|].
    unfold ret at 1. cbv beta iota.
    destruct txData as [|b txData]; [discriminate|].
    destruct (repeat 0 (Z.to_nat rxCount)) as [|z rest] eqn:Hbuf; [discriminate|].
    unfold bind at 1. unfold dwfDigitalSpiWriteRead. rewrite run_getter.
    destruct (rc _ =? 0).
    + unfold dwfDigitalSpiSelect. rewrite run_dropped_setter.
      intros E. injection E as _ <-. apply lastSelect_dropped.
    + cbv beta iota. unfold dwfDigitalSpiSelect.
      match goal with
      | |- context [guard (bind (ccall ?f ?args) _) ?g (ret ?a) ?w0] =>
          destruct (guarded_setter_world f args g a w0) as (a' & E')
      end.
      intros E. pose proof (eq_trans (eq_sym E') E) as X.
      injection X as _ <-. apply lastSelect_dropped.
Qed.

Lemma spi_return_deselects_witness :
  lastSelect
    (trace (snd (@Spi.Read nat allOk {| Spi.dev := session 1 |} 2 10 world0)))
    = Some 1.
Proof.
  pose proof (@spi_return_deselects nat allOk
                {| Spi.dev := session 1 |} 10 world0 ltac:(discriminate))
    as (_ & HR & _).
  exact (HR 2 _ _ eq_refl).
Defined.

(** ** Pattern generator: the pulse period *)

Section PulseFacts.
Context {H : Type} `{Sdk H}.

Lemma emits_weaken {A} (P Q : CCall -> Prop) (m : M H A) :
  (World H -> forall c, P c -> Q c) -> emits P m -> emits Q m.
Proof.
  intros HPQ Hm w. destruct (Hm w) as (calls & T & F).
  exists calls. split; [exact T|].
  eapply Forall_impl; [|exact F]. intros e. apply HPQ, w.
Qed.

Lemma returns_ret {A} (a : A) : returns (@ret H A a).
Proof. intros w. eexists; eexists; reflexivity. Qed.

Lemma returns_setter (f : CFun) (args : list CArg) :
  returns (r <- ccall f args ;; nil_unless_failed r).
Proof.
  intros w. destruct (setter_world f args w) as (e & E).
  eexists; eexists; exact E.
Qed.

Lemma returns_guard {A} (m : M H error) (g : error -> A) (k : M H A) :
  returns m -> returns k -> returns (guard m g k).
Proof.
  intros Hm Hk w. destruct (Hm w) as ([msg|] & w1 & E).
  - rewrite (guard_failed _ _ _ _ _ _ E). eexists; eexists; reflexivity.
  - rewrite (guard_passed _ _ _ _ _ E). apply Hk.
Qed.

(** What a guard over a computation that returns leads to. *)
Lemma guard_either {A} (Q : outcome A * World H -> Prop)
  (m : M H error) (g : error -> A) (k : M H A) (w : World H) :
  returns m ->
  (forall msg w', Q (Done (g (Some msg)), w')) ->
  (forall w', Q (k w')) ->
  Q (guard m g k w).
Proof.
  intros Hm Hfail Hk. destruct (Hm w) as ([msg|] & w1 & E).
  - rewrite (guard_failed _ _ _ _ _ _ E). apply Hfail.
  - rewrite (guard_passed _ _ _ _ _ E). apply Hk.
Qed.

End PulseFacts.

(** X4: every pulse that [Generate] programs lasts one divided clock
    period.  The step count is the quotient of the divider by itself, so
    the counters of each [FDwfDigitalOutCounterSet] call satisfy
    [high + low == 1] and [high] is [int(float64(1) * dutyCycle / 100)]:
    neither depends on the clock or on the requested frequency. *)
Theorem Generate_pulse_one_period {H : Type} `{Sdk H}
  (p : Pattern.patternImpl) (cfg : Pattern.PatternConfig) :
  let ch := if isDigitalDiscovery (Pattern.dev p)
            then cInt (int (Pattern.Channel cfg - 24))
            else cInt (Pattern.Channel cfg) in
  emits (programsOnePeriod (handle (Pattern.dev p)) ch (Pattern.DutyCycle cfg))
    (Pattern.Generate p cfg).
Proof.
  intros ch. eapply emits_weaken; [|apply emits_Generate].
  intros w c Hc Hf. destruct (Hc Hf) as (internalFreq & steps & low & high & Hrun & ->).
  specialize (Hrun w). rewrite run_pulseCounters in Hrun.
  destruct (Z.eqb_spec (int_of_float64 (internalFreq / Pattern.Frequency cfg)) 0)
    as [|Hq]; [discriminate Hrun|].
  rewrite (Generate_steps_one _ Hq) in Hrun.
  injection Hrun as _ <- <-.
  exists (int (1 - int_of_float64 (float64 1 * Pattern.DutyCycle cfg / 100))),
         (int_of_float64 (float64 1 * Pattern.DutyCycle cfg / 100)).
  split; [reflexivity | split; [reflexivity|]].
  apply int_add_sub. unfold in_int. lia.
Qed.

(** X5: a pulse whose frequency makes the divider zero is never generated.
    When the clock divided by the requested frequency converts to the
    integer 0, [Generate] with the pulse function does not return [nil]:
    it returns the error of a call that failed, or panics on the integer
    division by the divider. *)
Theorem Generate_zero_divider {H : Type} `{Sdk H}
  (p : Pattern.patternImpl) (cfg : Pattern.PatternConfig) (w : World H) :
  let clock := reply w (Call FDwfDigitalOutInternalClockInfo
                          [AInt (handle (Pattern.dev p))]) in
  Pattern.Function cfg = Pattern.DigitalOutTypePulse ->
  int_of_float64 (outDouble clock / Pattern.Frequency cfg) = 0 ->
  (exists (msg : string) (w' : World H),
     Pattern.Generate p cfg w = (Done (Some msg), w')) \/
  (exists w' : World H,
     Pattern.Generate p cfg w = (Panic "integer divide by zero", w')).
Proof.
  intros clock Hfun Hdiv.
  set (Q := fun o : outcome error * World H =>
              (exists (msg : string) (w' : World H), o = (Done (Some msg), w')) \/
              (exists w' : World H, o = (Panic "integer divide by zero", w'))).
  enough (HQ : Q (Pattern.Generate p cfg w)) by exact HQ.
  unfold Pattern.Generate.
  unfold bind at 1. unfold dwfDigitalOutInternalClockInfo. rewrite run_getter.
  fold clock. destruct (rc clock =? 0); cbv beta iota.
  { left. eexists; eexists; reflexivity. }
  rewrite Hdiv, Hfun. cbn [Z.eqb Pattern.DigitalOutTypePulse].
  unfold dwfDigitalOutEnableSet, dwfDigitalOutTypeSet, dwfDigitalOutDividerSet,
    dwfDigitalOutIdleSet, dwfDigitalOutRunSet, dwfDigitalOutWaitSet,
    dwfDigitalOutRepeatSet, dwfDigitalOutRepeatTriggerSet,
    dwfDigitalOutTriggerSourceSet, dwfDigitalOutTriggerSlopeSet.
  repeat (apply (guard_either Q);
          [ apply returns_setter
          | intros ? ?; left; eexists; eexists; reflexivity
          | intros ? ]).
  apply (guard_either Q).
  { destruct (Pattern.TriggerEnabled cfg); [|apply returns_ret].
    apply returns_guard; [apply returns_setter|].
    destruct (Pattern.TriggerEdgeRising cfg); apply returns_setter. }
  { intros ? ?; left; eexists; eexists; reflexivity. }
  intros w1. right. unfold guard, bind at 1. unfold bind at 1.
  rewrite run_pulseCounters. cbn [Z.eqb]. eexists; reflexivity.
Qed.

Lemma Generate_zero_divider_witness :
  fst (@Pattern.Generate nat (generatorWith 1000) {| Pattern.dev := session 1 |}
         (pulse 2000 50) world0)
  = Panic "integer divide by zero".
Proof.
  destruct (@Generate_zero_divider nat (generatorWith 1000)
              {| Pattern.dev := session 1 |} (pulse 2000 50) world0
              eq_refl ltac:(vm_compute; reflexivity))
    as [(msg & w' & E) | (w' & E)].
  - exfalso. revert E. vm_compute. discriminate.
  - rewrite E. reflexivity.
Defined.

(** ** Logic analyzer: recording without a buffer *)

(** X6: when the library reports no positive buffer maximum at [Open]
    (the error of a failed size query is dropped there), the size recorded
    is not positive whatever was requested, and no later [Record] returns
    samples: once the acquisition is configured and done, it panics on the
    empty or negative-length buffer. *)
Theorem Record_after_unsized_Open {H : Type} `{Sdk H}
  (l0 l : Logic.logicImpl) (cfg : Logic.LogicConfig) (w0 w1 : World H)
  (e : error) :
  reportedMax w0 (handle (Logic.dev l0)) <= 0 ->
  Logic.Open l0 cfg w0 = (Done (e, l), w1) ->
  Logic.bufferSize l <= 0 /\
  (forall (budget : nat) (channel : Z) (w w' : World H) (buf : list Z),
     Logic.Record budget l channel w <> (Done (buf, None), w')) /\
  (forall (budget : nat) (channel : Z) (w wp : World H),
     let h := handle (Logic.dev l) in
     let start := Call FDwfDigitalInConfigure [AInt h; AInt 0; AInt 1] in
     rc (reply w start) <> 0 ->
     Logic.pollDone budget h (after w start) = (Done None, wp) ->
     exists reason, Logic.Record budget l channel w = (Panic reason, wp)).
Proof.
  intros Hmax Hopen.
  destruct (Open_bufferSize l0 l cfg w0 w1 e Hopen) as (Hsize & _ & _).
  assert (Hle : Logic.bufferSize l <= 0).
  { rewrite Hsize. destruct (Z.eqb_spec (Logic.BufferSize cfg) 0); cbn [orb];
      [exact Hmax|].
    destruct (Z.ltb_spec (reportedMax w0 (handle (Logic.dev l0)))
                (Logic.BufferSize cfg)); lia. }
  split; [exact Hle | split].
  - intros budget channel w w' buf E.
    destruct (Record_success budget l channel w w' buf E) as (w3 & Hpos & _). lia.
  - intros budget channel w wp h start Hrc Hpoll.
    unfold Logic.Record. fold h.
    unfold dwfDigitalInConfigure. cbn [b2i].
    rewrite (guard_passed _ _ _ _ _ (setter_ok _ _ _ Hrc)).
    rewrite (guard_passed _ _ _ _ _ Hpoll).
    unfold bind at 1.
    destruct (make_nonpositive (Logic.bufferSize l) wp Hle) as [-> | ->];
      eexists; reflexivity.
Qed.

Lemma Record_after_unsized_Open_witness :
  fst (@Logic.Open nat analyzerWithoutSize (analyzer 0)
         {| Logic.SamplingFrequency := 1000000%float; Logic.BufferSize := 4 |}
         world0) = Done (None, analyzer 0) /\
  exists reason,
    fst (@Logic.Record nat analyzerWithoutSize 10 (analyzer 0) 1 world0)
    = Panic reason.
Proof.
  split; [vm_compute; reflexivity|].
  destruct (@Record_after_unsized_Open nat analyzerWithoutSize
              (analyzer 0) (analyzer 0)
              {| Logic.SamplingFrequency := 1000000%float; Logic.BufferSize := 4 |}
              world0
              (snd (@Logic.Open nat analyzerWithoutSize (analyzer 0)
                      {| Logic.SamplingFrequency := 1000000%float;
                         Logic.BufferSize := 4 |} world0))
              None ltac:(vm_compute; discriminate) ltac:(vm_compute; reflexivity))
    as (_ & _ & Hpanic).
  specialize (Hpanic 10%nat 1 world0
                (snd (@Logic.pollDone nat analyzerWithoutSize 10 1
                        (@after nat analyzerWithoutSize world0
                           (Call FDwfDigitalInConfigure [AInt 1; AInt 0; AInt 1]))))).
  cbv zeta in Hpanic.
  destruct Hpanic as (reason & E);
    [vm_compute; discriminate | vm_compute; reflexivity |].
  exists reason. rewrite E. reflexivity.
Defined.

(** ** I2C: addresses and read buffers *)

Lemma byte_of_wrapS (bits z : Z) : 8 <= bits -> wrapU 8 (wrapS bits z) = wrapU 8 z.
Proof.
  intros Hb. unfold wrapU, wrapS.
  pose proof (Z.div_mod (z + 2 ^ (bits - 1)) (2 ^ bits)
                ltac:(apply Z.pow_nonzero; lia)) as Hdm.
  replace (2 ^ bits) with (2 ^ (bits - 8) * 2 ^ 8) in Hdm at 1
    by (rewrite <- Z.pow_add_r by lia; f_equal; lia).
  replace ((z + 2 ^ (bits - 1)) mod 2 ^ bits - 2 ^ (bits - 1))
    with (z + (- ((z + 2 ^ (bits - 1)) / 2 ^ bits) * 2 ^ (bits - 8)) * 2 ^ 8)
    by lia.
  apply Z_mod_plus_full.
Qed.

(** The address byte handed to the library keeps seven bits of the Go
    address. *)
Lemma address_byte (address : Z) :
  C_uchar (cInt (int (Z.shiftl address 1))) = 2 * (address mod 128).
Proof.
  unfold C_uchar, cInt, C_int, int.
  rewrite !byte_of_wrapS by lia. unfold wrapU.
  rewrite Z.shiftl_mul_pow2 by lia. change (2 ^ 1) with 2. change (2 ^ 8) with (2 * 128).
  rewrite (Z.mul_comm address 2). rewrite Zmult_mod_distr_l. reflexivity.
Qed.

Lemma address_byte_alias (address : Z) :
  C_uchar (cInt (int (Z.shiftl (address mod 128) 1))) =
  C_uchar (cInt (int (Z.shiftl address 1))).
Proof. rewrite !address_byte, Z.mod_mod by lia. reflexivity. Qed.

(** X7: only the low seven bits of an I2C address reach the bus.  The
    address is shifted left and cut to a C [unsigned char], so [Write],
    [Read] and [Exchange] with address [a] run exactly as with
    [a mod 128]: an address outside [0, 127] is not rejected, it addresses
    another device. *)
Theorem I2c_address_seven_bits {H : Type} `{Sdk H}
  (ic : I2c.i2cImpl) (address : Z) (w : World H) :
  (forall data : list Z,
     I2c.Write ic data address w = I2c.Write ic data (address mod 128) w) /\
  (forall count : Z,
     I2c.Read ic count address w = I2c.Read ic count (address mod 128) w) /\
  (forall (txData : list Z) (rxCount : Z),
     I2c.Exchange ic txData rxCount address w =
     I2c.Exchange ic txData rxCount (address mod 128) w).
Proof.
  split; [|split].
  - intros data. unfold I2c.Write, dwfDigitalI2cWrite.
    rewrite address_byte_alias. reflexivity.
  - intros count. unfold I2c.Read, dwfDigitalI2cRead.
    rewrite address_byte_alias. reflexivity.
  - intros txData rxCount. unfold I2c.Exchange, dwfDigitalI2cWriteRead.
    rewrite address_byte_alias. reflexivity.
Qed.

Section I2cBuffers.
Context {H : Type} `{Sdk H}.

Lemma byte_range (z : Z) : 0 <= byte z < 256.
Proof. unfold byte, wrapU. apply Z.mod_pos_bound. reflexivity. Qed.

Lemma filled_bytes (n : nat) (data : list Z) :
  Forall (fun b => 0 <= b < 256) (store_into (repeat 0 n) (map byte data)).
Proof.
  apply Forall_store_into.
  - apply Forall_forall. intros x Hx. apply repeat_spec in Hx. subst. lia.
  - apply Forall_forall. intros x Hx. apply in_map_iff in Hx.
    destruct Hx as (y & <- & _). apply byte_range.
Qed.

End I2cBuffers.

(** X8: an I2C read hands back exactly the bytes asked for.  Whenever
    [Read] or [Exchange] returns without an error, or returns a buffer at
    all (the NAK case), the buffer has [count] elements, each a byte; a
    count that is not positive makes them panic before any library call. *)
Theorem I2c_read_buffer {H : Type} `{Sdk H}
  (ic : I2c.i2cImpl) (address : Z) (w : World H) :
  (forall (count : Z) (buf : list Z) (e : error) (w' : World H),
     I2c.Read ic count address w = (Done (buf, e), w') ->
     e = None \/ buf <> [] ->
     Z.of_nat (length buf) = count /\ Forall (fun b => 0 <= b < 256) buf) /\
  (forall (txData : list Z) (rxCount : Z) (buf : list Z) (e : error)
          (w' : World H),
     I2c.Exchange ic txData rxCount address w = (Done (buf, e), w') ->
     e = None \/ buf <> [] ->
     Z.of_nat (length buf) = rxCount /\ Forall (fun b => 0 <= b < 256) buf) /\
  (forall (count : Z) (txData : list Z),
     count <= 0 ->
     (exists reason, I2c.Read ic count address w = (Panic reason, w)) /\
     (exists reason, I2c.Exchange ic txData count address w = (Panic reason, w))).
Proof.
  split; [|split].
  - intros count buf e w'. unfold I2c.Read, bind at 1, make.
    destruct (Z.ltb_spec count 0) as [|Hc]; [discriminate|].
    unfold ret at 1. cbv beta iota.
    destruct (Z.to_nat count) as [|k] eqn:Hk; [discriminate|].
    unfold dwfDigitalI2cRead.
    change (repeat 0 (S k)) with (0 :: repeat 0 k). cbv iota.
    change (0 :: repeat 0 k) with (repeat 0 (S k)).
    unfold bind at 1. unfold bind at 1, ccall. cbv beta iota.
    destruct (rc _ =? 0).
    + unfold bind at 1. rewrite run_lastError. cbv beta iota.
      unfold ret. intros E Hor. injection E as <- <- _.
      destruct Hor as [Hor|Hor]; [discriminate | congruence].
    + unfold ret at 1. cbv beta iota.
      assert (Hgoal : forall data : list Z,
                Z.of_nat (length (store_into (repeat 0 (S k)) (map byte data))) = count /\
                Forall (fun b => 0 <= b < 256)
                  (store_into (repeat 0 (S k)) (map byte data))).
      { intros data. split; [|apply filled_bytes].
        rewrite store_into_length, repeat_length. lia. }
      destruct (negb _); unfold ret; intros E _; injection E as <- _ _;
        apply Hgoal.
  - intros txData rxCount buf e w'. unfold I2c.Exchange, bind at 1, make.
    destruct (Z.ltb_spec rxCount 0) as [|Hc]; [discriminate|].
    unfold ret at 1. cbv beta iota.
    destruct (Z.to_nat rxCount) as [|k] eqn:Hk;
      [destruct txData; discriminate|].
    unfold dwfDigitalI2cWriteRead.
    destruct txData as [|b txData]; [discriminate|].
    change (repeat 0 (S k)) with (0 :: repeat 0 k). cbv iota.
    change (0 :: repeat 0 k) with (repeat 0 (S k)).
    unfold bind at 1. unfold bind at 1, ccall. cbv beta iota.
    destruct (rc _ =? 0).
    + unfold bind at 1. rewrite run_lastError. cbv beta iota.
      unfold ret. intros E Hor. injection E as <- <- _.
      destruct Hor as [Hor|Hor]; [discriminate | congruence].
    + unfold ret at 1. cbv beta iota.
      assert (Hgoal : forall data : list Z,
                Z.of_nat (length (store_into (repeat 0 (S k)) (map byte data))) = rxCount /\
                Forall (fun b => 0 <= b < 256)
                  (store_into (repeat 0 (S k)) (map byte data))).
      { intros data. split; [|apply filled_bytes].
        rewrite store_into_length, repeat_length. lia. }
      destruct (negb _); unfold ret; intros E _; injection E as <- _ _;
        apply Hgoal.
  - intros count txData Hc. split.
    + unfold I2c.Read, bind at 1.
      destruct (make_nonpositive count w Hc) as [-> | ->]; eexists; reflexivity.
    + unfold I2c.Exchange, bind at 1.
      destruct (make_nonpositive count w Hc) as [-> | ->];
        [eexists; reflexivity|].
      destruct txData; eexists; reflexivity.
Qed.

Lemma I2c_read_buffer_witness :
  Z.of_nat (length [0; 0; 0]) = 3 /\ Forall (fun b => 0 <= b < 256) [0; 0; 0].
Proof.
  exact (proj1 (@I2c_read_buffer nat allOk {| I2c.dev := session 1 |} 0x50 world0)
           3 [0; 0; 0] None
           (snd (@I2c.Read nat allOk {| I2c.dev := session 1 |} 3 0x50 world0))
           eq_refl (or_introl eq_refl)).
Defined.

(** ** Static I/O: reading a line, output values, channels out of range *)

Lemma land_pow2 (x c : Z) :
  0 <= c -> (Z.land x (2 ^ c) =? 0) = negb (Z.testbit x c).
Proof.
  intros Hc. destruct (Z.testbit x c) eqn:Hb; cbn [negb].
  - apply Z.eqb_neq. intros E. apply (f_equal (fun z => Z.testbit z c)) in E.
    rewrite Z.land_spec, Hb, Z.pow2_bits_true, Z.bits_0 in E by lia.
    discriminate E.
  - apply Z.eqb_eq. apply Z.bits_inj'. intros i Hi.
    rewrite Z.land_spec, Z.bits_0, Z.pow2_bits_eqb by lia.
    destruct (Z.eqb_spec c i) as [->|]; [rewrite Hb|]; cbn;
      [reflexivity | apply andb_false_r].
Qed.

Lemma shl32_one (c : Z) : 0 <= c < 32 -> shl32 1 c = 2 ^ c.
Proof.
  intros Hc. unfold shl32. destruct (Z.leb_spec 32 c); [lia|].
  rewrite Z.shiftl_1_l. unfold uint32, wrapU. apply Z.mod_small.
  split; [apply Z.pow_nonneg; lia | apply Z.pow_lt_mono_r; lia].
Qed.

(** X9: [GetState] returns bit [c] of the input word, [c] being the
    adjusted channel.  When the status and the input-word calls succeed, the
    result is that bit for [0 <= c] (so [false] from 32 on, without an
    error), and a negative [c] makes the shift panic after both calls:
    on a Digital Discovery that is every channel below 24. *)
Theorem GetState_bit {H : Type} `{Sdk H}
  (s : StaticIO.staticIOImpl) (channel : Z) (w : World H) :
  let h := handle (StaticIO.dev s) in
  let c := StaticIO.adjustChannel s channel in
  let status := Call FDwfDigitalIOStatus [AInt h] in
  let read := Call FDwfDigitalIOInputStatus [AInt h] in
  let w1 := after w status in
  let data := uint32 (outInt (reply w1 read) 0) in
  rc (reply w status) <> 0 -> rc (reply w1 read) <> 0 ->
  (0 <= c ->
   StaticIO.GetState s channel w = (Done (Z.testbit data c, None), after w1 read)) /\
  (32 <= c ->
   StaticIO.GetState s channel w = (Done (false, None), after w1 read)) /\
  (c < 0 ->
   StaticIO.GetState s channel w = (Panic "negative shift amount", after w1 read)).
Proof.
  intros h c status read w1 data Hs Hr.
  assert (Hrun : StaticIO.GetState s channel w =
                 (if c <? 0 then panic "negative shift amount"
                  else ret (negb (Z.land data (shl32 1 c) =? 0), None))
                   (after w1 read)).
  { unfold StaticIO.GetState. fold h c. unfold dwfDigitalIOStatus.
    rewrite (guard_passed _ _ _ _ _ (setter_ok _ _ _ Hs)).
    erewrite bind_done; cycle 1.
    { unfold dwfDigitalIOInputStatus. rewrite run_getter. fold status w1 read.
      apply Z.eqb_neq in Hr. rewrite Hr. reflexivity. }
    reflexivity. }
  assert (Hhigh : 32 <= c ->
            StaticIO.GetState s channel w = (Done (false, None), after w1 read)).
  { intros Hc. rewrite Hrun. destruct (Z.ltb_spec c 0); [lia|].
    unfold shl32. destruct (Z.leb_spec 32 c); [|lia].
    rewrite Z.land_0_r. reflexivity. }
  split; [|split].
  - intros Hc. destruct (Z.lt_ge_cases c 32) as [Hlt|Hge].
    + rewrite Hrun. destruct (Z.ltb_spec c 0); [lia|].
      rewrite shl32_one, land_pow2, negb_involutive by lia. reflexivity.
    + rewrite (Hhigh Hge). unfold data. rewrite uint32_bits_high by lia.
      reflexivity.
  - exact Hhigh.
  - intros Hc. rewrite Hrun. destruct (Z.ltb_spec c 0); [reflexivity | lia].
Qed.

Lemma GetState_bit_witness :
  fst (@StaticIO.GetState nat (ioReading FDwfDigitalIOInputStatus 0x0004)
         {| StaticIO.dev := session 1 |} 2 world0) = Done (true, None) /\
  fst (@StaticIO.GetState nat (ioReading FDwfDigitalIOInputStatus 0x0004)
         {| StaticIO.dev := digitalDiscovery 1 |} 2 world0)
  = Panic "negative shift amount".
Proof.
  split.
  - rewrite (proj1 (@GetState_bit nat (ioReading FDwfDigitalIOInputStatus 0x0004)
                      {| StaticIO.dev := session 1 |} 2 world0
                      ltac:(discriminate) ltac:(discriminate))
               ltac:(vm_compute; discriminate)).
    reflexivity.
  - rewrite (proj2 (proj2 (@GetState_bit nat
                             (ioReading FDwfDigitalIOInputStatus 0x0004)
                             {| StaticIO.dev := digitalDiscovery 1 |} 2 world0
                             ltac:(discriminate) ltac:(discriminate)))
               ltac:(vm_compute; reflexivity)).
    reflexivity.
Defined.

Section StateFacts.
Context {H : Type} `{Sdk H}.

(** Once the output word has been read, [SetState] writes [modeMask] of
    it; a failed read ends the method before any write. *)
Lemma run_SetState (s : StaticIO.staticIOImpl) (channel : Z) (value : bool)
  (w : World H) :
  let h := handle (StaticIO.dev s) in
  let get := Call FDwfDigitalIOOutputGet [AInt h] in
  let prev := uint32 (outInt (reply w get) 0) in
  let new := StaticIO.modeMask prev (StaticIO.adjustChannel s channel)
               (uint32 (StaticIO.channelCount s)) value in
  StaticIO.SetState s channel value w =
  if rc (reply w get) =? 0
  then (Done (Some (errorText (reply (after w get) getLastErrorMsg))),
        after (after w get) getLastErrorMsg)
  else dwfDigitalIOOutputSet h new (after w get).
Proof.
  intros h get prev new. unfold StaticIO.SetState. fold h.
  unfold bind at 1. unfold dwfDigitalIOOutputGet. rewrite run_getter. fold get.
  destruct (rc (reply w get) =? 0); reflexivity.
Qed.

End StateFacts.

(** The two masks of [modeMask] for a line inside the channel count. *)
Lemma modeMask_in_range (prev N c : Z) :
  1 <= N <= 32 -> 0 <= c < N ->
  StaticIO.modeMask (uint32 prev) c (uint32 N) true = Z.setbit (uint32 prev) c /\
  StaticIO.modeMask (uint32 prev) c (uint32 N) false =
    Z.land (uint32 prev) (disablePattern N c).
Proof.
  intros HN Hc. destruct (pattern_facts N c HN Hc) as (_ & _ & Hone & _).
  unfold StaticIO.modeMask. split.
  - rewrite Hone. unfold Z.setbit. rewrite Z.shiftl_1_l. reflexivity.
  - reflexivity.
Qed.

(** X10: [SetState] updates the output word as [SetMode] updates the
    output-enable word.  A failed read of the word ends it with that error
    and nothing is written.  After a successful read, for a channel count
    [N] in [[1, 32]] and an adjusted channel [c] in [[0, N)], setting the
    line writes the word with bit [c] set and no other bit changed;
    clearing it writes the word with bit [c] cleared, the other bits below
    [N + c] unchanged and the bits from [N + c] on cleared. *)
Theorem SetState_mask {H : Type} `{Sdk H}
  (s : StaticIO.staticIOImpl) (channel : Z) (w : World H) :
  let h := handle (StaticIO.dev s) in
  let N := StaticIO.channelCount s in
  let c := StaticIO.adjustChannel s channel in
  let get := Call FDwfDigitalIOOutputGet [AInt h] in
  let prev := uint32 (outInt (reply w get) 0) in
  let set := fun mask => Call FDwfDigitalIOOutputSet [AInt h; AInt mask] in
  1 <= N <= 32 -> 0 <= c < N ->
  (rc (reply w get) = 0 ->
   forall value,
     StaticIO.SetState s channel value w =
     (Done (Some (errorText (reply (after w get) getLastErrorMsg))),
      after (after w get) getLastErrorMsg)) /\
  (rc (reply w get) <> 0 ->
   snd (StaticIO.SetState s channel true w) =
     dropped (after w get) (set (Z.setbit prev c)) /\
   exists new : Z,
     snd (StaticIO.SetState s channel false w) = dropped (after w get) (set new) /\
     (forall i, 0 <= i ->
        Z.testbit new i = Z.testbit prev i && negb (c =? i) && (i <? N + c)) /\
     (prev < 2 ^ N -> new = Z.clearbit prev c)).
Proof.
  intros h N c get prev set HN Hc.
  destruct (pattern_facts N c HN Hc) as (Hpat & _ & Hone & _).
  destruct (modeMask_in_range (outInt (reply w get) 0) N c HN Hc) as (Mset & Mclear).
  fold prev in Mset, Mclear.
  assert (Hbits : forall i, 0 <= i ->
            Z.testbit (Z.land prev (disablePattern N c)) i =
            Z.testbit prev i && negb (c =? i) && (i <? N + c)).
  { intros i Hi. rewrite Hpat, Z.land_spec, allButOne_bits by lia.
    destruct (Z.lt_ge_cases i 32) as [Hlt|Hge].
    - replace (i <? Z.min 32 (N + c)) with (i <? N + c).
      + destruct (Z.testbit prev i), (c =? i), (i <? N + c); reflexivity.
      + destruct (Z.ltb_spec i (N + c)); destruct (Z.ltb_spec i (Z.min 32 (N + c)));
          try reflexivity; lia.
    - unfold prev. rewrite uint32_bits_high by lia. reflexivity. }
  split.
  - intros Hr value. rewrite run_SetState. fold h get. rewrite Hr. reflexivity.
  - intros Hr. apply Z.eqb_neq in Hr. split.
    + rewrite run_SetState. fold h get prev N c. rewrite Hr, Mset.
      unfold dwfDigitalIOOutputSet, set.
      match goal with
      | |- context [bind (ccall ?f ?args) _ ?w0] =>
          destruct (setter_world f args w0) as (e' & ->)
      end.
      cbn [snd]. unfold prev, Z.setbit. rewrite Z.shiftl_1_l.
      rewrite C_uint_setbit by lia. reflexivity.
    + exists (Z.land prev (disablePattern N c)).
      split; [|split; [exact Hbits|]].
      * rewrite run_SetState. fold h get prev N c. rewrite Hr, Mclear.
        unfold dwfDigitalIOOutputSet, set.
        match goal with
        | |- context [bind (ccall ?f ?args) _ ?w0] =>
            destruct (setter_world f args w0) as (e' & ->)
        end.
        cbn [snd]. unfold prev. rewrite C_uint_land. reflexivity.
      * intros Hsmall. apply Z.bits_inj'. intros i Hi.
        rewrite Hbits, Z.clearbit_eqb by lia.
        destruct (Z.ltb_spec i (N + c)); [apply andb_true_r|].
        rewrite (small_bits_high prev N i); [reflexivity | | lia].
        split; [|exact Hsmall]. unfold prev, uint32, wrapU.
        apply Z.mod_pos_bound. lia.
Qed.

Lemma SetState_mask_witness :
  snd (@StaticIO.SetState nat (ioReading FDwfDigitalIOOutputGet 0x00F0)
         {| StaticIO.dev := session 1 |} 2 true world0) =
  @dropped nat (ioReading FDwfDigitalIOOutputGet 0x00F0)
    (@after nat (ioReading FDwfDigitalIOOutputGet 0x00F0) world0
       (Call FDwfDigitalIOOutputGet [AInt 1]))
    (Call FDwfDigitalIOOutputSet [AInt 1; AInt 0x00F4]).
Proof.
  exact (proj1 (proj2 (@SetState_mask nat (ioReading FDwfDigitalIOOutputGet 0x00F0)
                         {| StaticIO.dev := session 1 |} 2 world0
                         ltac:(vm_compute; split; discriminate)
                         ltac:(vm_compute; split; [discriminate | reflexivity]))
                  ltac:(discriminate))).
Defined.

(** ** Static I/O: channels out of range *)






(** ** Searches over the analog-IO nodes *)

Ltac query_step :=
  match goal with
  | |- quiet _ (ret _) => apply quiet_ret
  | |- quiet _ (ccall _ _) => apply quiet_ccall; exact I
  | |- quiet _ lastError => apply quiet_lastError; exact I
  | |- quiet _ (nil_unless_failed _) => apply quiet_nil_unless_failed; exact I
  | |- quiet _ (bind _ _) => apply quiet_bind; [|intros]
  | |- quiet _ (if ?b then _ else _) => destruct b
  | |- quiet _ (match ?x with _ => _ end) => destruct x
  end.

Section SearchFacts.
Context {H : Type} `{Sdk H}.

Lemma query_ChannelCount (h : Z) : quiet analogIOQuery (dwfAnalogIOChannelCount h).
Proof. unfold dwfAnalogIOChannelCount. repeat query_step. Qed.

Lemma query_ChannelName (h ch : Z) :
  quiet analogIOQuery (dwfAnalogIOChannelName h ch).
Proof. unfold dwfAnalogIOChannelName. repeat query_step. Qed.

Lemma query_ChannelInfo (h ch : Z) :
  quiet analogIOQuery (dwfAnalogIOChannelInfo h ch).
Proof. unfold dwfAnalogIOChannelInfo. repeat query_step. Qed.

Lemma query_NodeName (h ch n : Z) :
  quiet analogIOQuery (dwfAnalogIOChannelNodeName h ch n).
Proof. unfold dwfAnalogIOChannelNodeName. repeat query_step. Qed.

(** Two stretches of queries make one. *)
Lemma queries_chain (w w1 wq : World H) (c1 c2 : list (CCall * CReply)) :
  trace w1 = trace w ++ c1 ->
  Forall (fun e => analogIOQuery (cfun (fst e))) c1 ->
  trace wq = trace w1 ++ c2 ->
  Forall (fun e => analogIOQuery (cfun (fst e))) c2 ->
  trace wq = trace w ++ (c1 ++ c2) /\
  Forall (fun e => analogIOQuery (cfun (fst e))) (c1 ++ c2).
Proof.
  intros T1 F1 T2 F2. split.
  - rewrite T2, T1, app_assoc. reflexivity.
  - apply Forall_app. split; assumption.
Qed.

Lemma driveNode_shape (left : nat) (h ch n : Z) (current : float) (w : World H) :
  exists (wq : World H) (queries : list (CCall * CReply)),
    trace wq = trace w ++ queries /\
    Forall (fun e => analogIOQuery (cfun (fst e))) queries /\
    (StaticIO.driveNode left h ch n current w = (Done None, wq) \/
     exists (n' : Z) (e : error) (w' : World H),
       dwfAnalogIOChannelNodeSet h (cInt ch) (cInt n') current wq = (Done e, w') /\
       StaticIO.driveNode left h ch n current w = (Done (Some e), w')).
Proof.
  revert n w. induction left as [|left IH]; intros n w; cbn [StaticIO.driveNode].
  - exists w, []. rewrite app_nil_r. repeat split; [constructor | left; reflexivity].
  - destruct (query_NodeName h (cInt ch) (cInt n) w)
      as ([[name units] err] & w1 & c1 & E1 & T1 & F1).
    rewrite (bind_done _ _ _ _ _ E1). cbv beta iota.
    assert (Hnext :
      exists (wq : World H) (queries : list (CCall * CReply)),
        trace wq = trace w ++ queries /\
        Forall (fun e => analogIOQuery (cfun (fst e))) queries /\
        (StaticIO.driveNode left h ch (n + 1) current w1 = (Done None, wq) \/
         exists (n' : Z) (e : error) (w' : World H),
           dwfAnalogIOChannelNodeSet h (cInt ch) (cInt n') current wq = (Done e, w') /\
           StaticIO.driveNode left h ch (n + 1) current w1 = (Done (Some e), w'))).
    { destruct (IH (n + 1) w1) as (wq & c2 & T2 & F2 & Hshape).
      destruct (queries_chain w w1 wq c1 c2 T1 F1 T2 F2) as (T & F).
      exists wq, (c1 ++ c2). repeat split; assumption. }
    destruct err as [msg|]; [exact Hnext|].
    destruct (negb (String.eqb name "Drive")); [exact Hnext|].
    exists w1, c1. split; [exact T1 | split; [exact F1|]]. right.
    unfold dwfAnalogIOChannelNodeSet.
    destruct (setter_world FDwfAnalogIOChannelNodeSet
                [AInt h; AInt (cInt ch); AInt (cInt n); ADouble current] w1)
      as (e & E).
    exists n, e, (dropped w1 (Call FDwfAnalogIOChannelNodeSet
                    [AInt h; AInt (cInt ch); AInt (cInt n); ADouble current])).
    split; [exact E|]. rewrite (bind_done _ _ _ _ _ E). reflexivity.
Qed.

Lemma driveChannel_shape (left : nat) (h ch : Z) (current : float) (w : World H) :
  exists (wq : World H) (queries : list (CCall * CReply)),
    trace wq = trace w ++ queries /\
    Forall (fun e => analogIOQuery (cfun (fst e))) queries /\
    (StaticIO.driveChannel left h ch current w =
       (Done (Some "drive current node not found"%string), wq) \/
     exists ch' n' : Z,
       StaticIO.driveChannel left h ch current w =
       dwfAnalogIOChannelNodeSet h (cInt ch') (cInt n') current wq).
Proof.
  revert ch w. induction left as [|left IH]; intros ch w; cbn [StaticIO.driveChannel].
  - exists w, []. rewrite app_nil_r. repeat split; [constructor | left; reflexivity].
  - destruct (query_ChannelName h (cInt ch) w)
      as ([[name label] err] & w1 & c1 & E1 & T1 & F1).
    rewrite (bind_done _ _ _ _ _ E1). cbv beta iota.
    assert (Hnext : forall (w2 : World H) (c2 : list (CCall * CReply)),
      trace w2 = trace w ++ c2 ->
      Forall (fun e => analogIOQuery (cfun (fst e))) c2 ->
      exists (wq : World H) (queries : list (CCall * CReply)),
        trace wq = trace w ++ queries /\
        Forall (fun e => analogIOQuery (cfun (fst e))) queries /\
        (StaticIO.driveChannel left h (ch + 1) current w2 =
           (Done (Some "drive current node not found"%string), wq) \/
         exists ch' n' : Z,
           StaticIO.driveChannel left h (ch + 1) current w2 =
           dwfAnalogIOChannelNodeSet h (cInt ch') (cInt n') current wq)).
    { intros w2 c2 T2 F2.
      destruct (IH (ch + 1) w2) as (wq & c3 & T3 & F3 & Hshape).
      destruct (queries_chain w w2 wq c2 c3 T2 F2 T3 F3) as (T & F).
      exists wq, (c2 ++ c3). repeat split; assumption. }
    destruct err as [msg|]; [exact (Hnext w1 c1 T1 F1)|].
    destruct (negb (String.eqb label "VDD")); [exact (Hnext w1 c1 T1 F1)|].
    destruct (query_ChannelInfo h (cInt ch) w1)
      as ([nodeCount err] & w2 & c2 & E2 & T2 & F2).
    rewrite (bind_done _ _ _ _ _ E2). cbv beta iota.
    destruct (queries_chain w w1 w2 c1 c2 T1 F1 T2 F2) as (T12 & F12).
    destruct err as [msg|]; [exact (Hnext w2 _ T12 F12)|].
    destruct (driveNode_shape (Z.to_nat nodeCount) h ch 0 current w2)
      as (w3 & c3 & T3 & F3 & [E3 | (n' & e & w' & Eset & E3)]).
    + destruct (queries_chain w w2 w3 _ c3 T12 F12 T3 F3) as (T & F).
      rewrite (bind_done _ _ _ _ _ E3). exact (Hnext w3 _ T F).
    + destruct (queries_chain w w2 w3 _ c3 T12 F12 T3 F3) as (T & F).
      rewrite (bind_done _ _ _ _ _ E3).
      exists w3, ((c1 ++ c2) ++ c3). split; [exact T | split; [exact F|]].
      right. exists ch, n'. rewrite Eset. reflexivity.
Qed.

End SearchFacts.

(** X12: [SetCurrent] writes at most once, and only the requested
    current.  From any world it first makes read-only enumeration calls,
    and then either returns an error without having written anything (the
    channel count could not be read, or no "Drive" node of a "VDD" channel
    was found), or ends with exactly one node write of [current]
    whose outcome is its result. *)
Theorem SetCurrent_single_write {H : Type} `{Sdk H}
  (s : StaticIO.staticIOImpl) (current : float) (w : World H) :
  let h := handle (StaticIO.dev s) in
  exists (wq : World H) (queries : list (CCall * CReply)),
    trace wq = trace w ++ queries /\
    Forall (fun e => analogIOQuery (cfun (fst e))) queries /\
    ((exists msg : string,
        StaticIO.SetCurrent s current w = (Done (Some msg), wq)) \/
     (exists ch n : Z,
        StaticIO.SetCurrent s current w =
        dwfAnalogIOChannelNodeSet h (cInt ch) (cInt n) current wq)).
Proof.
  intros h. unfold StaticIO.SetCurrent. fold h.
  destruct (query_ChannelCount h w) as ([chCount err] & w1 & c1 & E1 & T1 & F1).
  rewrite (bind_done _ _ _ _ _ E1). cbv beta iota.
  destruct err as [msg|].
  - exists w1, c1. split; [exact T1 | split; [exact F1|]].
    left. exists msg. reflexivity.
  - destruct (driveChannel_shape (Z.to_nat chCount) h 0 current w1)
      as (wq & c2 & T2 & F2 & Hshape).
    destruct (queries_chain w w1 wq c1 c2 T1 F1 T2 F2) as (T & F).
    exists wq, (c1 ++ c2). split; [exact T | split; [exact F|]].
    destruct Hshape as [E | (ch & n & E)].
    + left. eexists. exact E.
    + right. exists ch, n. exact E.
Qed.

(** ** Board temperature *)

Section TemperatureFacts.
Context {H : Type} `{Sdk H}.

Lemma getter_returns {A} (f : CFun) (args : list CArg)
  (onFail onOk : CReply -> A) (w : World H) :
  exists (res : A * error) (w' : World H),
    (r <- ccall f args ;;
     if rc r =? 0 then e <- lastError ;; ret (onFail r, Some e)
     else ret (onOk r, None)) w = (Done res, w').
Proof. rewrite run_getter. destruct (rc _ =? 0); eexists; eexists; reflexivity. Qed.

Lemma tempNode_shape (left : nat) (h ch n : Z) (w : World H) :
  let status := Call FDwfAnalogIOStatus [AInt h] in
  exists (wq : World H) (queries : list (CCall * CReply)),
    trace wq = trace w ++ queries /\
    Forall (fun e => analogIOQuery (cfun (fst e))) queries /\
    (Dev.tempNode left h ch n w = (Done None, wq) \/
     (exists e : error, Dev.tempNode left h ch n w = (Done (Some (0%float, e)), wq)) \/
     exists (n' : Z) (res : float * error) (w' : World H),
       rc (reply wq status) <> 0 /\
       dwfAnalogIOChannelNodeStatus h (cInt ch) (cInt n') (after wq status)
         = (Done res, w') /\
       Dev.tempNode left h ch n w = (Done (Some res), w')).
Proof.
  intros status. revert n w.
  induction left as [|left IH]; intros n w; cbn [Dev.tempNode].
  - exists w, []. rewrite app_nil_r. repeat split; [constructor | left; reflexivity].
  - destruct (query_NodeName h (cInt ch) (cInt n) w)
      as ([[name units] err] & w1 & c1 & E1 & T1 & F1).
    rewrite (bind_done _ _ _ _ _ E1). cbv beta iota.
    assert (Hnext :
      exists (wq : World H) (queries : list (CCall * CReply)),
        trace wq = trace w ++ queries /\
        Forall (fun e => analogIOQuery (cfun (fst e))) queries /\
        (Dev.tempNode left h ch (n + 1) w1 = (Done None, wq) \/
         (exists e : error,
            Dev.tempNode left h ch (n + 1) w1 = (Done (Some (0%float, e)), wq)) \/
         exists (n' : Z) (res : float * error) (w' : World H),
           rc (reply wq status) <> 0 /\
           dwfAnalogIOChannelNodeStatus h (cInt ch) (cInt n') (after wq status)
             = (Done res, w') /\
           Dev.tempNode left h ch (n + 1) w1 = (Done (Some res), w'))).
    { destruct (IH (n + 1) w1) as (wq & c2 & T2 & F2 & Hshape).
      destruct (queries_chain w w1 wq c1 c2 T1 F1 T2 F2) as (T & F).
      exists wq, (c1 ++ c2). repeat split; assumption. }
    destruct err as [msg|]; [exact Hnext|].
    destruct (negb (String.eqb name "Temp")); [exact Hnext|].
    unfold dwfAnalogIOStatus.
    destruct (Z.eq_dec (rc (reply w1 status)) 0) as [Hrc|Hrc].
    + rewrite (bind_done _ _ _ _ _ (setter_failed _ _ _ Hrc)).
      exists (after (after w1 status) getLastErrorMsg),
        (c1 ++ [(status, reply w1 status);
                (getLastErrorMsg, reply (after w1 status) getLastErrorMsg)]).
      split; [|split].
      * rewrite !trace_after, T1, <- !app_assoc. reflexivity.
      * apply Forall_app. split; [exact F1|].
        constructor; [exact I | constructor; [exact I | constructor]].
      * right. left. eexists. reflexivity.
    + rewrite (bind_done _ _ _ _ _ (setter_ok _ _ _ Hrc)).
      exists w1, c1. split; [exact T1 | split; [exact F1|]]. right. right.
      unfold dwfAnalogIOChannelNodeStatus.
      destruct (getter_returns FDwfAnalogIOChannelNodeStatus
                  [AInt h; AInt (cInt ch); AInt (cInt n)]
                  (fun _ => 0%float) outDouble (after w1 status))
        as (res & w' & E).
      exists n, res, w'. split; [exact Hrc | split; [exact E|]].
      rewrite (bind_done _ _ _ _ _ E). reflexivity.
Qed.

Lemma tempChannel_shape (left : nat) (h ch : Z) (w : World H) :
  let status := Call FDwfAnalogIOStatus [AInt h] in
  exists (wq : World H) (queries : list (CCall * CReply)),
    trace wq = trace w ++ queries /\
    Forall (fun e => analogIOQuery (cfun (fst e))) queries /\
    ((exists e : error, Dev.tempChannel left h ch w = (Done (0%float, e), wq)) \/
     exists ch' n' : Z,
       rc (reply wq status) <> 0 /\
       Dev.tempChannel left h ch w =
       dwfAnalogIOChannelNodeStatus h (cInt ch') (cInt n') (after wq status)).
Proof.
  intros status. revert ch w.
  induction left as [|left IH]; intros ch w; cbn [Dev.tempChannel].
  - exists w, []. rewrite app_nil_r.
    repeat split; [constructor | left; eexists; reflexivity].
  - destruct (query_ChannelName h (cInt ch) w)
      as ([[name label] err] & w1 & c1 & E1 & T1 & F1).
    rewrite (bind_done _ _ _ _ _ E1). cbv beta iota.
    assert (Hnext : forall (w2 : World H) (c2 : list (CCall * CReply)),
      trace w2 = trace w ++ c2 ->
      Forall (fun e => analogIOQuery (cfun (fst e))) c2 ->
      exists (wq : World H) (queries : list (CCall * CReply)),
        trace wq = trace w ++ queries /\
        Forall (fun e => analogIOQuery (cfun (fst e))) queries /\
        ((exists e : error,
            Dev.tempChannel left h (ch + 1) w2 = (Done (0%float, e), wq)) \/
         exists ch' n' : Z,
           rc (reply wq status) <> 0 /\
           Dev.tempChannel left h (ch + 1) w2 =
           dwfAnalogIOChannelNodeStatus h (cInt ch') (cInt n') (after wq status))).
    { intros w2 c2 T2 F2.
      destruct (IH (ch + 1) w2) as (wq & c3 & T3 & F3 & Hshape).
      destruct (queries_chain w w2 wq c2 c3 T2 F2 T3 F3) as (T & F).
      exists wq, (c2 ++ c3). repeat split; assumption. }
    destruct err as [msg|]; [exact (Hnext w1 c1 T1 F1)|].
    destruct (negb (String.eqb label "System")); [exact (Hnext w1 c1 T1 F1)|].
    destruct (query_ChannelInfo h (cInt ch) w1)
      as ([nodeCount err] & w2 & c2 & E2 & T2 & F2).
    rewrite (bind_done _ _ _ _ _ E2). cbv beta iota.
    destruct (queries_chain w w1 w2 c1 c2 T1 F1 T2 F2) as (T12 & F12).
    destruct err as [msg|]; [exact (Hnext w2 _ T12 F12)|].
    destruct (tempNode_shape (Z.to_nat nodeCount) h ch 0 w2)
      as (w3 & c3 & T3 & F3 & Hshape).
    destruct (queries_chain w w2 w3 _ c3 T12 F12 T3 F3) as (T & F).
    destruct Hshape as [E3 | [(e & E3) | (n' & res & w' & Hrc & Est & E3)]];
      rewrite (bind_done _ _ _ _ _ E3).
    + exact (Hnext w3 _ T F).
    + exists w3, ((c1 ++ c2) ++ c3). split; [exact T | split; [exact F|]].
      left. exists e. reflexivity.
    + exists w3, ((c1 ++ c2) ++ c3). split; [exact T | split; [exact F|]].
      right. exists ch, n'. split; [exact Hrc|]. symmetry. exact Est.
Qed.

End TemperatureFacts.

(** X13: [Temperature] only reads, and reads the sensor only after a
    status fetch that succeeded.  From any world it makes read-only calls
    and then either returns 0 (with the error of a failed channel count or
    status fetch, or with [nil] when no "Temp" node of a "System" channel
    exists), or its result is that of one node-status read issued right
    after a successful [FDwfAnalogIOStatus]. *)
Theorem Temperature_reads_after_status {H : Type} `{Sdk H}
  (d : Device) (w : World H) :
  let status := Call FDwfAnalogIOStatus [AInt (handle d)] in
  exists (wq : World H) (queries : list (CCall * CReply)),
    trace wq = trace w ++ queries /\
    Forall (fun e => analogIOQuery (cfun (fst e))) queries /\
    ((exists e : error, Dev.Temperature d w = (Done (0%float, e), wq)) \/
     exists ch n : Z,
       rc (reply wq status) <> 0 /\
       Dev.Temperature d w =
       dwfAnalogIOChannelNodeStatus (handle d) (cInt ch) (cInt n) (after wq status)).
Proof.
  intros status. unfold Dev.Temperature.
  destruct (query_ChannelCount (handle d) w)
    as ([chCount err] & w1 & c1 & E1 & T1 & F1).
  rewrite (bind_done _ _ _ _ _ E1). cbv beta iota.
  destruct err as [msg|].
  - exists w1, c1. split; [exact T1 | split; [exact F1|]].
    left. eexists. reflexivity.
  - destruct (tempChannel_shape (Z.to_nat chCount) (handle d) 0 w1)
      as (wq & c2 & T2 & F2 & Hshape).
    destruct (queries_chain w w1 wq c1 c2 T1 F1 T2 F2) as (T & F).
    exists wq, (c1 ++ c2). split; [exact T | split; [exact F|]].
    exact Hshape.
Qed.

(** ** Opening a session and enumerating devices *)

Section YieldFacts.
Context {H : Type} `{Sdk H}.

Lemma yields_ret {A} (Q : A -> Prop) (a : A) : Q a -> yields Q (@ret H A a).
Proof. intros Ha w. exists a, w. split; [reflexivity | exact Ha]. Qed.

Lemma yields_bind {A B} (Q1 : A -> Prop) (Q2 : B -> Prop)
  (m : M H A) (k : A -> M H B) :
  yields Q1 m -> (forall a, Q1 a -> yields Q2 (k a)) -> yields Q2 (bind m k).
Proof.
  intros Hm Hk w. destruct (Hm w) as (a & w1 & E1 & Ha).
  destruct (Hk a Ha w1) as (b & w2 & E2 & Hb).
  exists b, w2. split; [|exact Hb]. unfold bind. rewrite E1. exact E2.
Qed.

Lemma yields_getter {A} (f : CFun) (args : list CArg) (onFail onOk : CReply -> A) :
  yields (fun _ => True)
    (r <- ccall f args ;;
     if rc r =? 0 then e <- lastError ;; ret (onFail r, Some e)
     else ret (onOk r, None)).
Proof.
  intros w. destruct (getter_returns f args onFail onOk w) as (res & w' & E).
  exists res, w'. split; [exact E | exact I].
Qed.

End YieldFacts.

Section OpenFacts.
Context {H : Type} `{Sdk H} `{Header}.

Lemma openFirst_returns (left : nat) (i config hdwf : Z) (openErr : error) :
  yields (fun _ => True) (Dev.openFirst left i config hdwf openErr).
Proof.
  revert i hdwf openErr.
  induction left as [|left IH]; intros i hdwf openErr; cbn [Dev.openFirst].
  - apply yields_ret. exact I.
  - eapply yields_bind; [apply yields_getter|].
    intros [hdwf' openErr'] _.
    destruct (negb (hdwf' =? 0)); [apply yields_ret; exact I | apply IH].
Qed.

Lemma enumFrom_indices (left : nat) (i : Z) :
  yields (fun devices => map Dev.Index devices = upFrom i left)
    (Dev.enumFrom left i).
Proof.
  revert i. induction left as [|left IH]; intros i; cbn [Dev.enumFrom upFrom].
  - apply yields_ret. reflexivity.
  - eapply yields_bind; [apply yields_getter|]. intros [name err1] _.
    eapply yields_bind; [apply yields_getter|]. intros [uname err2] _.
    eapply yields_bind; [apply yields_getter|]. intros [sn err3] _.
    eapply yields_bind; [apply yields_getter|]. intros [opened err4] _.
    eapply yields_bind; [apply IH|]. intros rest Hrest.
    apply yields_ret. cbn [map Dev.Index]. rewrite Hrest. reflexivity.
Qed.

End OpenFacts.

(** X14: [Open] either fails and leaves the session as it was, or
    succeeds with a handle that is not zero.  From every world it returns:
    with an error, no capability record and the session untouched, or with
    [nil] and the capability record, which is then cached in the session
    together with the handle it names. *)
Theorem Open_session_invariant {H : Type} `{Sdk H} `{Header}
  (d : Device) (device : string) (config : Z) :
  yields (openedOrUntouched d) (Dev.Open d device config).
Proof.
  unfold Dev.Open.
  eapply yields_bind; [apply yields_getter|]. intros [count err] _.
  destruct err as [msg|].
  { apply yields_ret. left. exists msg. repeat split. }
  destruct (count <=? 0).
  { destruct (String.eqb device ""); apply yields_ret; left;
      eexists; repeat split. }
  eapply yields_bind; [apply openFirst_returns|]. intros [hdwf openErr] _.
  destruct (Z.eqb_spec hdwf 0) as [Hz|Hnz].
  { destruct openErr as [msg|]; apply yields_ret; left; eexists; repeat split. }
  eapply yields_bind with (Q1 := fun _ => True).
  { destruct (0 <? count); [|apply yields_ret; exact I].
    eapply yields_bind; [apply yields_getter|]. intros [[devID devRev] e1] _.
    eapply yields_bind; [apply yields_getter|]. intros [sn e2] _.
    apply yields_ret. exact I. }
  intros [devName serialNum] _.
  unfold dwfGetVersion, dwfAnalogInChannelCount, dwfAnalogOutCount,
    dwfAnalogInBufferSizeInfo, dwfAnalogInBitsInfo, dwfDigitalInBitsInfo,
    dwfDigitalOutCount.
  eapply yields_bind; [apply yields_getter|]. intros [version ev] _.
  eapply yields_bind; [apply yields_getter|]. intros [n1 e1] _.
  eapply yields_bind; [apply yields_getter|]. intros [n2 e2] _.
  eapply yields_bind; [apply yields_getter|]. intros [n3 e3] _.
  eapply yields_bind; [apply yields_getter|]. intros [n4 e4] _.
  eapply yields_bind; [apply yields_getter|]. intros [n5 e5] _.
  eapply yields_bind; [apply yields_getter|]. intros [n6 e6] _.
  apply yields_ret. right. eexists. repeat split. exact Hnz.
Qed.

(** X15: [EnumDevices] never fails once the devices are counted.  After a
    successful count of [n > 0] it returns [n] entries whose indices are
    0, 1, ..., [n - 1] in order, whatever the per-device queries answer; a
    count of zero gives no entries and no further call; a negative count
    makes the allocation panic. *)
Theorem EnumDevices_indices {H : Type} `{Sdk H} `{Header}
  (d : Device) (w : World H) :
  let enum := Call FDwfEnum [AInt cEnumfilterAll] in
  let count := C_int (outInt (reply w enum) 0) in
  rc (reply w enum) <> 0 ->
  (0 < count ->
   exists (devices : list Dev.EnumDevice) (w' : World H),
     Dev.EnumDevices d w = (Done (devices, None), w') /\
     map Dev.Index devices = upFrom 0 (Z.to_nat count)) /\
  (count = 0 -> Dev.EnumDevices d w = (Done ([], None), after w enum)) /\
  (count < 0 ->
   Dev.EnumDevices d w = (Panic "makeslice: len out of range", after w enum)).
Proof.
  intros enum count Hrc.
  assert (Hrun : Dev.EnumDevices d w =
    (if count =? 0 then ret ([], None)
     else if count <? 0 then panic "makeslice: len out of range"
     else devices <- Dev.enumFrom (Z.to_nat count) 0 ;; ret (devices, None))
      (after w enum)).
  { unfold Dev.EnumDevices. erewrite bind_done; cycle 1.
    { unfold dwfEnum. rewrite run_getter. fold enum.
      apply Z.eqb_neq in Hrc. rewrite Hrc. reflexivity. }
    reflexivity. }
  rewrite Hrun. split; [|split].
  - intros Hc. destruct (Z.eqb_spec count 0); [lia|].
    destruct (Z.ltb_spec count 0); [lia|].
    destruct (enumFrom_indices (Z.to_nat count) 0 (after w enum))
      as (devices & w' & E & Hidx).
    exists devices, w'. split; [|exact Hidx].
    rewrite (bind_done _ _ _ _ _ E). reflexivity.
  - intros ->. reflexivity.
  - intros Hc. destruct (Z.eqb_spec count 0); [lia|].
    destruct (Z.ltb_spec count 0); [reflexivity | lia].
Qed.

Lemma EnumDevices_indices_witness :
  exists (devices : list Dev.EnumDevice) (w' : World nat),
    @Dev.EnumDevices nat (enumerating 2 1) dwfHeader (session 0) world0
      = (Done (devices, None), w') /\
    map Dev.Index devices = [0; 1].
Proof.
  exact (proj1 (@EnumDevices_indices nat (enumerating 2 1) dwfHeader (session 0)
                  world0 ltac:(discriminate))
           ltac:(vm_compute; reflexivity)).
Defined.

(** X16: whichever device [Open] opens, it identifies the device at
    enumeration index 0.  The loop may open a later index when earlier ones
    cannot be opened, but every [FDwfEnumDeviceType] and [FDwfEnumSN] call
    of [Open] carries index 0, so the name and the serial number of the
    capability record are those of the first enumerated device. *)
Theorem Open_identifies_index_zero {H : Type} `{Sdk H} `{Header}
  (d : Device) (device : string) (config : Z) :
  emits identifiesIndexZero (Dev.Open d device config).
Proof.
  assert (Hother : forall f args,
            f <> FDwfEnumDeviceType -> f <> FDwfEnumSN ->
            identifiesIndexZero (Call f args)).
  { intros f args Hf1 Hf2 [E|E]; cbn in E; congruence. }
  assert (Hget : forall {A} f args (onFail onOk : CReply -> A),
            identifiesIndexZero (Call f args) ->
            emits identifiesIndexZero
              (r <- ccall f args ;;
               if rc r =? 0 then e <- lastError ;; ret (onFail r, Some e)
               else ret (onOk r, None))).
  { intros A f args onFail onOk Hc.
    apply emits_bind; [apply emits_ccall; exact Hc|]. intros r.
    destruct (rc r =? 0); [|apply emits_ret].
    apply emits_bind; [|intros; apply emits_ret].
    apply emits_lastError. apply Hother; discriminate. }
  assert (Hloop : forall left i hdwf openErr,
            emits identifiesIndexZero (Dev.openFirst left i config hdwf openErr)).
  { induction left as [|left IH]; intros i hdwf openErr; cbn [Dev.openFirst].
    - apply emits_ret.
    - apply emits_bind; [apply Hget, Hother; discriminate|].
      intros [hdwf' openErr']. destruct (negb _); [apply emits_ret | apply IH]. }
  unfold Dev.Open.
  apply emits_bind; [apply Hget, Hother; discriminate|]. intros [count err].
  destruct err; [apply emits_ret|].
  destruct (count <=? 0); [destruct (String.eqb device ""); apply emits_ret|].
  apply emits_bind; [apply Hloop|]. intros [hdwf openErr].
  destruct (hdwf =? 0); [destruct openErr; apply emits_ret|].
  apply emits_bind.
  { destruct (0 <? count); [|apply emits_ret].
    apply emits_bind; [apply Hget; intros _; reflexivity|]. intros [[devID rev] e1].
    apply emits_bind; [apply Hget; intros _; reflexivity|]. intros [sn e2].
    apply emits_ret. }
  intros [devName serialNum].
  repeat (apply emits_bind; [apply Hget, Hother; discriminate | intros [? ?]]).
  apply emits_ret.
Qed.

(** ** Digital multimeter *)

Section DmmFacts.
Context {H : Type} `{Sdk H}.

Lemma yields_weaken {A} (Q1 Q2 : A -> Prop) (m : M H A) :
  (forall a, Q1 a -> Q2 a) -> yields Q1 m -> yields Q2 m.
Proof.
  intros HQ Hm w. destruct (Hm w) as (a & w' & E & Ha).
  exists a, w'. split; [exact E | apply HQ, Ha].
Qed.

Lemma yields_setter (f : CFun) (args : list CArg) :
  yields (fun _ => True) (r <- ccall f args ;; nil_unless_failed r).
Proof.
  intros w. destruct (setter_world f args w) as (e & E).
  exists e, (dropped w (Call f args)). split; [exact E | exact I].
Qed.

Lemma findDmm_range (left : nat) (h ch : Z) :
  yields (fun found => found = -1 \/ ch <= found < ch + Z.of_nat left)
    (Dmm.findDmm left h ch).
Proof.
  revert ch. induction left as [|left IH]; intros ch; cbn [Dmm.findDmm].
  - apply yields_ret. left. reflexivity.
  - eapply yields_bind; [apply yields_getter|]. intros [[name label] err] _.
    assert (Hnext : yields (fun found => found = -1 \/
                               ch <= found < ch + Z.of_nat (S left))
                      (Dmm.findDmm left h (ch + 1))).
    { eapply yields_weaken; [|apply IH]. intros found Hf. cbv beta in *. lia. }
    destruct err; [exact Hnext|].
    destruct (negb _); [exact Hnext|]. apply yields_ret. lia.
Qed.

Lemma assignNode_fields (name : string) (n : Z) (ns : Dmm.dmmNodes) :
  let ns' := Dmm.assignNode name n ns in
  (Dmm.enable ns' = Dmm.enable ns \/ Dmm.enable ns' = n) /\
  (Dmm.mode ns' = Dmm.mode ns \/ Dmm.mode ns' = n) /\
  (Dmm.rangN ns' = Dmm.rangN ns \/ Dmm.rangN ns' = n) /\
  (Dmm.meas ns' = Dmm.meas ns \/ Dmm.meas ns' = n) /\
  (Dmm.input ns' = Dmm.input ns \/ Dmm.input ns' = n).
Proof.
  unfold Dmm.assignNode.
  repeat match goal with
         | |- context [if ?b then _ else _] => destruct b
         end; cbn; tauto.
Qed.

Lemma nameNodes_fields (left : nat) (h channel n : Z) (ns : Dmm.dmmNodes) :
  yields (fun ns' =>
            kept_or_seen n left (Dmm.enable ns) (Dmm.enable ns') /\
            kept_or_seen n left (Dmm.mode ns) (Dmm.mode ns') /\
            kept_or_seen n left (Dmm.rangN ns) (Dmm.rangN ns') /\
            kept_or_seen n left (Dmm.meas ns) (Dmm.meas ns') /\
            kept_or_seen n left (Dmm.input ns) (Dmm.input ns'))
    (Dmm.nameNodes left h channel n ns).
Proof.
  revert n ns. induction left as [|left IH]; intros n ns; cbn [Dmm.nameNodes].
  - apply yields_ret. unfold kept_or_seen. tauto.
  - eapply yields_bind; [apply yields_getter|]. intros [[name units] err] _.
    destruct err.
    + eapply yields_weaken; [|apply IH]. unfold kept_or_seen.
      intros ns' Hf. cbv beta in *. lia.
    + eapply yields_weaken; [|apply IH]. unfold kept_or_seen.
      pose proof (assignNode_fields name n ns) as Ha. cbv zeta in Ha.
      intros ns' Hf. cbv beta in *. lia.
Qed.

End DmmFacts.

Section DmmRuns.
Context {H : Type} `{Sdk H}.

Lemma yields_getter_value {A} (Q : A -> Prop) (f : CFun) (args : list CArg)
  (onFail onOk : CReply -> A) :
  (forall r, Q (onFail r)) -> (forall r, Q (onOk r)) ->
  yields (fun res => Q (fst res))
    (r <- ccall f args ;;
     if rc r =? 0 then e <- lastError ;; ret (onFail r, Some e)
     else ret (onOk r, None)).
Proof.
  intros Hf Ho w. rewrite run_getter.
  destruct (rc _ =? 0); eexists; eexists; (split; [reflexivity|]); cbn [fst];
    [apply Hf | apply Ho].
Qed.

Lemma yields_guard {A} (Q : A -> Prop) (m : M H error) (g : error -> A)
  (k : M H A) :
  yields (fun _ => True) m -> (forall msg, Q (g (Some msg))) -> yields Q k ->
  yields Q (guard m g k).
Proof.
  intros Hm Hg Hk. unfold guard. eapply yields_bind; [exact Hm|].
  intros [msg|] _; [apply yields_ret, Hg | exact Hk].
Qed.

End DmmRuns.

(** X17: [Open] of the multimeter always returns, and what it leaves in
    the instrument is consistent: either no channel was found (channel -1,
    every node -1, and an error is returned), or the channel is a valid
    index and every node index is -1 or a valid index found by the node
    loop.  In particular it returns [nil] only when a "DMM" channel
    exists. *)
Theorem Dmm_Open_result {H : Type} `{Sdk H} (m : Dmm.dmmImpl) :
  yields (dmmOpened m) (Dmm.Open m).
Proof.
  unfold Dmm.Open, dwfAnalogIOChannelCount.
  eapply yields_bind.
  { apply (yields_getter_value (fun n => - 2 ^ 31 <= n < 2 ^ 31));
      intros r; [lia | apply C_int_range]. }
  intros [chCount err] HchCount. cbn [fst] in HchCount.
  destruct err as [msg|].
  { apply yields_ret. split; [reflexivity|]. left.
    repeat split. discriminate. }
  eapply yields_bind; [apply findDmm_range|]. intros found Hfound.
  cbv beta in Hfound.
  destruct (Z.ltb_spec found 0) as [Hneg|Hpos].
  { apply yields_ret. split; [reflexivity|]. left. cbn.
    split; [lia | split; [reflexivity | discriminate]]. }
  assert (Hch : 0 <= found < 2 ^ 31) by lia.
  unfold dwfAnalogIOChannelInfo.
  eapply yields_bind.
  { apply (yields_getter_value (fun n => - 2 ^ 31 <= n < 2 ^ 31));
      intros r; [lia | apply C_int_range]. }
  intros [nodeCount err] HnodeCount. cbn [fst] in HnodeCount.
  destruct err as [msg|].
  { apply yields_ret. split; [reflexivity|]. right. cbn.
    split; [exact Hch|]. unfold storedNodes, storedIndex. cbn. tauto. }
  eapply yields_bind; [apply nameNodes_fields|]. intros ns Hns.
  assert (Hstored : storedNodes ns).
  { unfold kept_or_seen in Hns. cbn in Hns.
    unfold storedNodes, storedIndex. lia. }
  destruct (0 <=? Dmm.enable ns).
  - eapply yields_bind; [apply yields_setter|]. intros err _.
    apply yields_ret. split; [reflexivity|]. right. cbn. tauto.
  - apply yields_ret. split; [reflexivity|]. right. cbn. tauto.
Qed.

(** X18: a multimeter without a measurement node never gives a reading.
    When the "Meas" node is missing (index below zero, as after an [Open]
    that found no DMM channel), [Measure] returns an error from every
    world, and the value beside it is -1 or 0. *)
Theorem Measure_without_meas_node {H : Type} `{Sdk H}
  (m : Dmm.dmmImpl) (mode_ : Z) (range_ : float) (highImpedance : bool) :
  Dmm.meas (Dmm.nodes m) < 0 ->
  yields (fun out => snd out <> None /\
                     (fst out = (-1)%float \/ fst out = 0%float))
    (Dmm.Measure m mode_ range_ highImpedance).
Proof.
  intros Hmeas. unfold Dmm.Measure.
  assert (Hopt : forall (b : bool) (write : M H error),
            yields (fun _ => True) write ->
            yields (fun _ => True) (if b then write else ret None)).
  { intros [|] write Hw; [exact Hw | apply yields_ret; exact I]. }
  repeat (apply yields_guard;
          [ first [apply Hopt; apply yields_setter | apply yields_setter]
          | intros msg; cbn; split; [discriminate | tauto]
          | ]).
  destruct (Z.leb_spec 0 (Dmm.meas (Dmm.nodes m))); [lia|].
  apply yields_ret. cbn. split; [discriminate | tauto].
Qed.

Lemma Measure_without_meas_node_witness :
  fst (@Dmm.Measure nat allOk unopenedMeter 1 10%float true world0)
  = Done ((-1)%float, Some "DMM measurement node not found"%string).
Proof.
  destruct (@Measure_without_meas_node nat allOk unopenedMeter 1 10%float true
              ltac:(vm_compute; reflexivity) world0)
    as (out & w' & E & _).
  rewrite E. revert E. vm_compute. intros E. injection E as <- _. reflexivity.
Defined.

(** ** Starting an output last *)

Section LastFacts.
Context {H : Type} `{Sdk H}.
Variable final : CFun.
Hypothesis final_not_lastError : FDwfGetLastErrorMsg <> final.








End LastFacts.





(** ** Oscilloscope *)

Lemma clampSize_le (requested maxBuf : Z) :
  Scope.clampSize requested maxBuf <= maxBuf.
Proof.
  unfold Scope.clampSize. destruct (Z.eqb_spec requested 0); cbn [orb]; [lia|].
  destruct (Z.ltb_spec maxBuf requested); lia.
Qed.

Lemma clampSize_kept (requested maxBuf : Z) :
  0 < requested <= maxBuf -> Scope.clampSize requested maxBuf = requested.
Proof.
  intros Hr. unfold Scope.clampSize. destruct (Z.eqb_spec requested 0); [lia|].
  destruct (Z.ltb_spec maxBuf requested); [lia | reflexivity].
Qed.

Section ScopeFacts.
Context {H : Type} `{Sdk H} `{Header}.

(** An [Open] that returns [nil] has recorded the clamped size. *)
Lemma Scope_Open_size (s0 s : Scope.scopeImpl) (cfg : Scope.ScopeConfig)
  (w0 w1 : World H) :
  Scope.Open s0 cfg w0 = (Done (None, s), w1) ->
  Scope.bufferSize s = Scope.clampSize (Scope.BufferSize cfg) (Scope.maxBuf s0).
Proof.
  unfold Scope.Open. cbv zeta.
  unfold dwfAnalogInChannelEnableSet, dwfAnalogInChannelOffsetSet,
    dwfAnalogInChannelRangeSet, dwfAnalogInBufferSizeSet,
    dwfAnalogInFrequencySet, dwfAnalogInChannelFilterSet.
  repeat match goal with
  | |- context [guard (bind (ccall ?f ?args) _) ?g ?k ?w] =>
      destruct (guard_setter_cases f args g k w) as [(_ & E)|(_ & E)];
      rewrite E; clear E; [discriminate|]
  end.
  match goal with
  | |- context [bind (bind (ccall ?f ?args) _) _ ?w] =>
      destruct (setter_world f args w) as (e & E);
      rewrite (bind_done _ _ _ _ _ E)
  end.
  intros E'. injection E' as _ <- _. reflexivity.
Qed.

(** A [Record] that returns samples returns as many as the recorded size,
    which is positive. *)
Lemma Scope_Record_success (budget : nat) (s : Scope.scopeImpl) (channel : Z)
  (w w' : World H) (samples : list float) :
  Scope.Record budget s channel w = (Done (samples, None), w') ->
  0 < Scope.bufferSize s /\ Z.of_nat (length samples) = Scope.bufferSize s.
Proof.
  unfold Scope.Record, guard. intros E.
  unfold bind at 1 in E.
  destruct (dwfAnalogInConfigure _ _ _ _) as [[[msg|]| |] w1]; try discriminate E.
  unfold bind at 1 in E.
  destruct (Scope.pollDone _ _ _) as [[[msg|]| |] w2]; try discriminate E.
  unfold dwfAnalogInStatusData, make in E.
  destruct (Z.ltb_spec (Scope.bufferSize s) 0) as [Hneg|Hpos]; [discriminate E|].
  rewrite bind_ret in E.
  destruct (Z.to_nat (Scope.bufferSize s)) as [|k] eqn:Hk; [discriminate E|].
  change (repeat 0 (S k)) with (0 :: repeat 0 k) in E. cbv iota in E.
  change (0 :: repeat 0 k) with (repeat 0 (S k)) in E.
  unfold bind at 1 in E. unfold ccall at 1 in E. cbv beta iota in E.
  destruct (rc _ =? 0).
  - unfold bind at 1 in E. rewrite run_lastError in E. discriminate E.
  - unfold ret in E. injection E as <- _.
    rewrite length_map, store_into_length. cbn [length].
    rewrite repeat_length. lia.
Qed.

End ScopeFacts.

(** X22: the oscilloscope returns as many samples as [Open] settled on.
    After an [Open] that returned [nil], a [Record] that returns samples
    returns exactly the recorded buffer size of them: a positive number,
    at most the maximum of the session's capability record, and the
    requested size when that lies in between.  Without a capability
    record there is no such [Record]. *)
Theorem Scope_Record_length {H : Type} `{Sdk H} `{Header}
  (s0 s : Scope.scopeImpl) (cfg : Scope.ScopeConfig) (w0 w1 : World H)
  (budget : nat) (channel : Z) (w w' : World H) (samples : list float) :
  Scope.Open s0 cfg w0 = (Done (None, s), w1) ->
  Scope.Record budget s channel w = (Done (samples, None), w') ->
  let n := Z.of_nat (length samples) in
  n = Scope.bufferSize s /\
  0 < n <= Scope.maxBuf s0 /\
  (0 < Scope.BufferSize cfg <= Scope.maxBuf s0 -> n = Scope.BufferSize cfg) /\
  info (Scope.dev s0) <> None.
Proof.
  intros Hopen Hrec n.
  pose proof (Scope_Open_size s0 s cfg w0 w1 Hopen) as Hsize.
  destruct (Scope_Record_success budget s channel w w' samples Hrec) as (Hpos & Hlen).
  pose proof (clampSize_le (Scope.BufferSize cfg) (Scope.maxBuf s0)) as Hle.
  subst n. split; [exact Hlen | split; [lia | split]].
  - intros Hr. rewrite Hlen, Hsize. apply clampSize_kept. exact Hr.
  - intros Hno.
    assert (Hzero : Scope.maxBuf s0 = 0)
      by (unfold Scope.maxBuf; rewrite Hno; reflexivity).
    lia.
Qed.

Lemma Scope_Record_length_witness :
  fst (@Scope.Record nat (scopeWith [0x3FF0000000000000; 0x4000000000000000]) 5
         {| Scope.dev := discovery2 1; Scope.bufferSize := 2 |} 1 world0)
  = Done ([1%float; 2%float], None) /\
  Z.of_nat (length [1%float; 2%float]) = 2.
Proof.
  split; [vm_compute; reflexivity|].
  refine (proj1 (@Scope_Record_length nat
            (scopeWith [0x3FF0000000000000; 0x4000000000000000]) dwfHeader
            {| Scope.dev := discovery2 1; Scope.bufferSize := 0 |}
            {| Scope.dev := discovery2 1; Scope.bufferSize := 2 |}
            (scopeConfig 2) world0
            (snd (@Scope.Open nat
                    (scopeWith [0x3FF0000000000000; 0x4000000000000000]) dwfHeader
                    {| Scope.dev := discovery2 1; Scope.bufferSize := 0 |}
                    (scopeConfig 2) world0))
            5%nat 1 world0
            (snd (@Scope.Record nat
                    (scopeWith [0x3FF0000000000000; 0x4000000000000000]) 5
                    {| Scope.dev := discovery2 1; Scope.bufferSize := 2 |} 1 world0))
            [1%float; 2%float] _ _)).
  - vm_compute. reflexivity.
  - vm_compute. reflexivity.
Defined.

(** ** SPI: opening *)

(** X23: [Open] of the SPI engine skips a data line whose pin is negative
    and never selects the device.  Whatever the library answers, a
    [FDwfDigitalSpiDataSet] call is made only for index 0 with a
    non-negative MOSI pin or index 1 with a non-negative MISO pin, and
    every chip-select call drives the configured pin to level 1. *)
Theorem Spi_Open_routes_lines {H : Type} `{Sdk H} `{Header}
  (sp : Spi.spiImpl) (cfg : Spi.SPIConfig) :
  emits (routesLines (handle (Spi.dev sp)) cfg) (Spi.Open sp cfg).
Proof.
  assert (Hother : forall f args,
            f <> FDwfDigitalSpiDataSet -> f <> FDwfDigitalSpiSelect ->
            routesLines (handle (Spi.dev sp)) cfg (Call f args)).
  { intros f args Hf1 Hf2. split; intros E; cbn in E; congruence. }
  assert (Hset : forall f args,
            routesLines (handle (Spi.dev sp)) cfg (Call f args) ->
            emits (routesLines (handle (Spi.dev sp)) cfg)
              (r <- ccall f args ;; nil_unless_failed r)).
  { intros f args Hc. apply emits_setter; [|exact Hc]. apply Hother; discriminate. }
  unfold Spi.Open. cbv zeta.
  unfold dwfDigitalSpiFrequencySet, dwfDigitalSpiClockSet, dwfDigitalSpiDataSet,
    dwfDigitalSpiIdleSet, dwfDigitalSpiModeSet, dwfDigitalSpiOrderSet,
    dwfDigitalSpiSelect, dwfDigitalSpiWriteOne.
  apply emits_guard; [apply Hset, Hother; discriminate|].
  apply emits_guard; [apply Hset, Hother; discriminate|].
  apply emits_guard.
  { destruct (Z.leb_spec 0 (Spi.MOSI cfg)) as [Hpin|]; [|apply emits_ret].
    apply emits_guard; [|apply Hset, Hother; discriminate].
    apply Hset. split; [|discriminate]. intros _. left. split; [reflexivity | exact Hpin]. }
  apply emits_guard.
  { destruct (Z.leb_spec 0 (Spi.MISO cfg)) as [Hpin|]; [|apply emits_ret].
    apply emits_guard; [|apply Hset, Hother; discriminate].
    apply Hset. split; [|discriminate]. intros _. right. split; [reflexivity | exact Hpin]. }
  apply emits_guard; [apply Hset, Hother; discriminate|].
  apply emits_guard; [apply Hset, Hother; discriminate|].
  apply emits_guard; [|apply Hset, Hother; discriminate].
  apply Hset. split; [discriminate|]. intros _. reflexivity.
Qed.

(** ** Logic analyzer: the trigger line *)

Lemma trigger_bit (channel : Z) :
  0 <= channel -> cUint (shl32 1 channel) = lineMask channel.
Proof.
  intros Hc. unfold lineMask, cUint. destruct (Z.ltb_spec channel 32).
  - rewrite shl32_one by lia. apply C_uint_small.
    split; [apply Z.pow_nonneg; lia | apply Z.pow_lt_mono_r; lia].
  - unfold shl32. destruct (Z.leb_spec 32 channel); [reflexivity | lia].
Qed.

(** X24: the trigger of the logic analyzer watches one line, or none.
    For a line index that is not negative, every detector and reset call of
    [SetTrigger] carries the single bit of that line in one mask and zero
    in the others; from line 32 on the bit is shifted out and every mask is
    zero, without an error.  For a negative line index an enabled
    [SetTrigger] never returns [nil]: a call fails, or the shift panics. *)
Theorem SetTrigger_line_mask {H : Type} `{Sdk H}
  (l : Logic.logicImpl) (cfg : Logic.LogicTriggerConfig) :
  (0 <= Logic.Channel cfg ->
   emits (programsLine (handle (Logic.dev l)) cfg) (Logic.SetTrigger l cfg)) /\
  (Logic.Enable cfg = true -> Logic.Channel cfg < 0 ->
   forall w : World H, fst (Logic.SetTrigger l cfg w) <> Done None).
Proof.
  split.
  - intros Hc. unfold Logic.SetTrigger. cbv zeta.
    destruct (Z.ltb_spec (Logic.Channel cfg) 0) as [|_]; [lia|].
    unfold dwfDigitalInTriggerSourceSet, dwfDigitalInTriggerPositionSet,
      dwfDigitalInTriggerPrefillSet, dwfDigitalInTriggerSet,
      dwfDigitalInTriggerResetSet, dwfDigitalInTriggerAutoTimeoutSet,
      dwfDigitalInTriggerLengthSet, dwfDigitalInTriggerCountSet.
    rewrite (trigger_bit _ Hc).
    assert (Hother : forall f args,
              f <> FDwfDigitalInTriggerSet -> f <> FDwfDigitalInTriggerResetSet ->
              programsLine (handle (Logic.dev l)) cfg (Call f args)).
    { intros f args Hf1 Hf2. split; intros E; cbn in E; congruence. }
    destruct (negb (Logic.Enable cfg));
      [apply emits_setter; apply Hother; discriminate|].
    do 3 (apply emits_guard;
          [apply emits_setter; apply Hother; discriminate|]).
    intros w. rewrite bind_ret. revert w.
    change (emits (programsLine (handle (Logic.dev l)) cfg)
              (guard
                 (if Logic.RisingEdge cfg
                  then
                    guard (dwfDigitalInTriggerSet (handle (Logic.dev l)) 0
                             (lineMask (Logic.Channel cfg)) 0 0) same_error
                      (dwfDigitalInTriggerResetSet (handle (Logic.dev l)) 0 0
                         (lineMask (Logic.Channel cfg)) 0)
                  else
                    guard (dwfDigitalInTriggerSet (handle (Logic.dev l))
                             (lineMask (Logic.Channel cfg)) 0 0 0) same_error
                      (dwfDigitalInTriggerResetSet (handle (Logic.dev l)) 0 0 0
                         (lineMask (Logic.Channel cfg))))
                 same_error
                 (guard (dwfDigitalInTriggerAutoTimeoutSet (handle (Logic.dev l))
                           (Logic.Timeout cfg)) same_error
                    (guard (dwfDigitalInTriggerLengthSet (handle (Logic.dev l))
                              (Logic.LengthMin cfg) (Logic.LengthMax cfg) 0)
                       same_error
                       (dwfDigitalInTriggerCountSet (handle (Logic.dev l))
                          (cInt (Logic.Count cfg)) 0))))).
    unfold dwfDigitalInTriggerSet, dwfDigitalInTriggerResetSet,
      dwfDigitalInTriggerAutoTimeoutSet, dwfDigitalInTriggerLengthSet,
      dwfDigitalInTriggerCountSet.
    apply emits_guard.
    + destruct (Logic.RisingEdge cfg) eqn:Hedge;
        (apply emits_guard;
         [apply emits_setter; [apply Hother; discriminate|]
         |apply emits_setter; [apply Hother; discriminate|]]);
        unfold programsLine; rewrite Hedge;
        split; intros E; try discriminate E; reflexivity.
    + do 2 (apply emits_guard;
            [apply emits_setter; apply Hother; discriminate|]).
      apply emits_setter; apply Hother; discriminate.
  - intros Hen Hc w. unfold Logic.SetTrigger. cbv zeta. rewrite Hen. cbn [negb].
    destruct (Z.ltb_spec (Logic.Channel cfg) 0) as [_|]; [|lia].
    unfold dwfDigitalInTriggerSourceSet, dwfDigitalInTriggerPositionSet,
      dwfDigitalInTriggerPrefillSet.
    repeat match goal with
    | |- context [guard (bind (ccall ?f ?args) _) ?g ?k ?w0] =>
        destruct (guard_setter_cases f args g k w0) as [(_ & E)|(_ & E)];
        rewrite E; clear E; [discriminate|]
    end.
    discriminate.
Qed.

Lemma SetTrigger_line_mask_witness :
  @emits nat allOk error (programsLine 1 (risingTrigger 0))
    (@Logic.SetTrigger nat allOk (analyzer 8) (risingTrigger 0)).
Proof.
  exact (proj1 (@SetTrigger_line_mask nat allOk (analyzer 8) (risingTrigger 0))
           ltac:(vm_compute; discriminate)).
Defined.

(** ** I2C: a scan that fails *)

Section ScanFacts.
Context {H : Type} `{Sdk H}.

Lemma scanFrom_result (left : nat) (h addr : Z) (found : list Z) :
  yields (fun out =>
            (snd out <> None -> fst out = []) /\
            (snd out = None ->
             exists more,
               fst out = found ++ more /\
               Forall (fun a => addr <= a < addr + Z.of_nat left) more))
    (I2c.scanFrom left h addr found).
Proof.
  revert addr found.
  induction left as [|left IH]; intros addr found; cbn [I2c.scanFrom].
  - apply yields_ret. cbn. split; [congruence|]. intros _. exists [].
    rewrite app_nil_r. split; [reflexivity | constructor].
  - unfold dwfDigitalI2cWrite.
    eapply yields_bind; [apply yields_getter|]. intros [nak err] _.
    destruct err as [msg|].
    + apply yields_ret. cbn. split; [reflexivity | discriminate].
    + eapply yields_weaken; [|apply IH].
      intros [out e] (Herr & Hok). cbn [fst snd] in *. split; [exact Herr|].
      intros He. destruct (Hok He) as (more & -> & Hmore).
      destruct (nak =? 0).
      * exists (addr :: more). split; [rewrite <- app_assoc; reflexivity|].
        constructor; [lia|].
        eapply Forall_impl; [|exact Hmore]. cbv beta. intros a Ha. lia.
      * exists more. split; [reflexivity|].
        eapply Forall_impl; [|exact Hmore]. cbv beta. intros a Ha. lia.
Qed.

End ScanFacts.

(** X25: a scan that fails finds nothing.  [Scan] returns from every
    world; when a probe fails it returns the error and no address, the
    addresses acknowledged before are discarded; in any case it returns
    only addresses between 0x08 and 0x77. *)
Theorem Scan_failure_discards {H : Type} `{Sdk H} (ic : I2c.i2cImpl) :
  yields scanResult (I2c.Scan ic).
Proof.
  unfold I2c.Scan. eapply yields_weaken; [|apply scanFrom_result].
  intros [out e] (Herr & Hok). unfold scanResult. cbn [fst snd] in *.
  split; [exact Herr|].
  destruct e as [msg|].
  - rewrite Herr by discriminate. constructor.
  - destruct (Hok eq_refl) as (more & -> & Hmore). cbn [app].
    eapply Forall_impl; [|exact Hmore]. cbv beta. intros a Ha.
    change (Z.of_nat (Z.to_nat (0x77 - 0x08 + 1))) with 112 in Ha. lia.
Qed.
